(** * The WebUI regenerator (module/regenerator.py): a shallow embedding

    The regenerator rebuilds Shinken objects from the broks raised by the
    broker.  This file embeds the Python code of [Regenerator] as state
    passing functions over an object heap, and proves properties of the
    handlers ([manage_*_brok]) and of the linking pass ([all_done_linking]). *)

From Stdlib Require Import ZArith String Ascii List.
From stdpp Require Import base option gmap strings list fin_maps pretty.

Set Warnings "-register-all".

Local Open Scope Z_scope.
Local Open Scope string_scope.
Local Open Scope list_scope.

(** ** Python values *)

(** Object identity: a reference into the heap. *)
Abbreviation ref := positive (only parsing).

(** The values a brok's data can carry and an attribute can hold.  [VList]
    stands for lists and tuples (the [(id, name)] pairs of group members are
    two-element sequences), [VDict] for a nested plain dictionary with string
    keys, [VRef] for a reference to an object. *)
Inductive value : Type :=
| VNone
| VBool (b : bool)
| VInt (z : Z)
| VStr (s : string)
| VList (l : list value)
| VDict (d : list (string * value))
| VRef (r : ref).

(** Lookup in a nested dictionary. *)
Fixpoint dict_get (d : list (string * value)) (k : string) : option value :=
  match d with
  | [] => None
  | (k', v) :: d' => if String.eqb k' k then Some v else dict_get d' k
  end.

(** Python's [==].  Booleans compare as the integers 0 and 1, sequences
    element by element, dictionaries key by key, objects by identity (the
    Shinken item classes define no [__eq__]). *)
Fixpoint py_eq (a b : value) : bool :=
  match a, b with
  | VNone, VNone => true
  | VBool x, VBool y => Z.eqb (Z.b2z x) (Z.b2z y)
  | VBool x, VInt y => Z.eqb (Z.b2z x) y
  | VInt x, VBool y => Z.eqb x (Z.b2z y)
  | VInt x, VInt y => Z.eqb x y
  | VStr x, VStr y => String.eqb x y
  | VList x, VList y =>
      (fix go (x y : list value) : bool :=
         match x, y with
         | [], [] => true
         | u :: x', v :: y' => py_eq u v && go x' y'
         | _, _ => false
         end) x y
  | VDict x, VDict y =>
      Nat.eqb (length x) (length y) &&
      (fix go (x : list (string * value)) : bool :=
         match x with
         | [] => true
         | (k, u) :: x' =>
             match dict_get y k with
             | Some v => py_eq u v && go x'
             | None => false
             end
         end) x
  | VRef x, VRef y => Pos.eqb x y
  | _, _ => false
  end.

(** Python's truth value: [None], [False], zero, and empty strings, sequences
    and dictionaries are false; an object is true. *)
Definition truthy (v : value) : bool :=
  match v with
  | VNone => false
  | VBool b => b
  | VInt z => negb (Z.eqb z 0)
  | VStr s => negb (String.eqb s "")
  | VList l => match l with [] => false | _ => true end
  | VDict d => match d with [] => false | _ => true end
  | VRef _ => true
  end.

(** ** Dictionary keys *)

(** Hashable values used as dictionary keys: identifiers, names, instance
    ids; [KPair] is the [(host_name, service_description)] key of services. *)
Inductive key : Type :=
| KNone
| KInt (z : Z)
| KStr (s : string)
| KRef (r : ref)
| KPair (a b : key).

Global Instance key_eq_dec : EqDecision key.
Proof. solve_decision. Defined.

Fixpoint key_to_tree (k : key) : gen_tree (Z + string + positive) :=
  match k with
  | KNone => GenNode 0 []
  | KInt z => GenLeaf (inl (inl z))
  | KStr s => GenLeaf (inl (inr s))
  | KRef r => GenLeaf (inr r)
  | KPair a b => GenNode 1 [key_to_tree a; key_to_tree b]
  end.

Fixpoint tree_to_key (t : gen_tree (Z + string + positive)) : option key :=
  match t with
  | GenLeaf (inl (inl z)) => Some (KInt z)
  | GenLeaf (inl (inr s)) => Some (KStr s)
  | GenLeaf (inr r) => Some (KRef r)
  | GenNode 0 [] => Some KNone
  | GenNode 1 [a; b] =>
      match tree_to_key a, tree_to_key b with
      | Some a', Some b' => Some (KPair a' b')
      | _, _ => None
      end
  | GenNode _ _ => None
  end.

Lemma tree_to_key_to_tree (k : key) : tree_to_key (key_to_tree k) = Some k.
Proof.
  induction k as [| | | |a IHa b IHb]; simpl; try reflexivity.
  rewrite IHa, IHb. reflexivity.
Qed.

Global Instance key_countable : Countable key :=
  inj_countable key_to_tree tree_to_key tree_to_key_to_tree.

(** The key a value hashes to; [None] for the unhashable lists and
    dictionaries.  [True] and [1] are the same key. *)
Definition to_key (v : value) : option key :=
  match v with
  | VNone => Some KNone
  | VBool b => Some (KInt (Z.b2z b))
  | VInt z => Some (KInt z)
  | VStr s => Some (KStr s)
  | VRef r => Some (KRef r)
  | VList _ | VDict _ => None
  end.

(** ** Objects and the heap *)

Inductive class : Type :=
| Host | Service | Hostgroup | Servicegroup | Contact | Contactgroup
| NotificationWay | Timeperiod | Command | Config
| SchedulerLink | PollerLink | ReactionnerLink | BrokerLink | ReceiverLink
| CommandCall | Timerange | Daterange | OtherClass.

Global Instance class_eq_dec : EqDecision class.
Proof. solve_decision. Defined.

(** An object: its class and its attribute dictionary. *)
Record object : Type := mkObject {
  cls : class;
  attrs : gmap string value;
}.

Abbreviation heap_t := (gmap positive object) (only parsing).

Definition attr_of (h : heap_t) (r : ref) (a : string) : option value :=
  match h !! r with
  | Some o => attrs o !! a
  | None => None
  end.

Definition class_of (h : heap_t) (r : ref) : class :=
  match h !! r with
  | Some o => cls o
  | None => OtherClass
  end.

(** [setattr(o, a, v)] on the object at [r]. *)
Definition heap_set (h : heap_t) (r : ref) (a : string) (v : value) : heap_t :=
  match h !! r with
  | Some o => <[r := mkObject (cls o) (<[a := v]> (attrs o))]> h
  | None => <[r := mkObject OtherClass {[a := v]}]> h
  end.

Lemma attr_of_heap_set (h : heap_t) (r r' : ref) (a a' : string) (v : value) :
  attr_of (heap_set h r a v) r' a' =
  if decide (r = r' ∧ a = a') then Some v else attr_of h r' a'.
Proof.
  unfold attr_of, heap_set.
  destruct (h !! r) as [o|] eqn:Hr.
  - destruct (decide (r = r')) as [->|Hne].
    + rewrite lookup_insert_eq. simpl. rewrite Hr.
      destruct (decide (a = a')) as [->|Ha].
      * rewrite lookup_insert_eq. rewrite decide_True by done. reflexivity.
      * rewrite lookup_insert_ne by done. rewrite decide_False by tauto. reflexivity.
    + rewrite lookup_insert_ne by done. rewrite decide_False by tauto. reflexivity.
  - destruct (decide (r = r')) as [->|Hne].
    + rewrite lookup_insert_eq. simpl. rewrite Hr.
      destruct (decide (a = a')) as [->|Ha].
      * rewrite lookup_singleton_eq. rewrite decide_True by done. reflexivity.
      * rewrite lookup_singleton_ne by done. rewrite decide_False by tauto. reflexivity.
    + rewrite lookup_insert_ne by done. rewrite decide_False by tauto. reflexivity.
Qed.

(** ** Collections of items *)

(** Modelled from the spec: the Shinken item containers ([Hosts], [Services],
    ..., of shinken.objects) are imported, not part of this repository.  The
    Entity Store is made of "typed collections (hosts, services, groups,
    contacts, timeperiods, commands, peer-daemon links) keyed by stable
    identifier, each supporting name-based and id-based lookup": a container
    holds a dictionary from identifier to element and an index from name to
    element. *)
Inductive items_class : Type :=
| Hosts | Services | NotificationWays | Contacts | Hostgroups | Servicegroups
| Contactgroups | Timeperiods | Commands
| SchedulerLinks | PollerLinks | ReactionnerLinks | BrokerLinks | ReceiverLinks.

Global Instance items_class_eq_dec : EqDecision items_class.
Proof. solve_decision. Defined.

Record Items : Type := mkItems {
  inner : items_class;
  items : gmap key ref;
  name_to_item : gmap key ref;
}.

(** [Hosts([])], [Services([])], ...: the empty container of a class. *)
Definition new_Items (c : items_class) : Items := mkItems c ∅ ∅.

(** The attribute that names the elements of a container. *)
Definition name_property (c : items_class) : string :=
  match c with
  | Hosts => "host_name"
  | Services => "unique_key"
  | NotificationWays => "notificationway_name"
  | Contacts => "contact_name"
  | Hostgroups => "hostgroup_name"
  | Servicegroups => "servicegroup_name"
  | Contactgroups => "contactgroup_name"
  | Timeperiods => "timeperiod_name"
  | Commands => "command_name"
  | SchedulerLinks => "scheduler_name"
  | PollerLinks => "poller_name"
  | ReactionnerLinks => "reactionner_name"
  | BrokerLinks => "broker_name"
  | ReceiverLinks => "receiver_name"
  end.

(** ** The regenerator *)

(** The message put on the external queue. *)
Record Message : Type := mkMessage {
  msg_id : option Z;
  msg_type : string;
  msg_data : list (string * value);
  msg_source : string;
}.

(** The attributes of [self], as [Regenerator.__init__] declares them. *)
Record Regenerator : Type := mkRegenerator {
  configs : gmap key ref;
  hosts : Items;
  services : Items;
  notificationways : Items;
  contacts : Items;
  hostgroups : Items;
  servicegroups : Items;
  contactgroups : Items;
  timeperiods : Items;
  commands : Items;
  schedulers : Items;
  pollers : Items;
  reactionners : Items;
  brokers : Items;
  receivers : Items;
  realms : gset key;
  tags : gmap key Z;
  services_tags : gmap key Z;
  inp_hosts : gmap key Items;
  inp_services : gmap key Items;
  inp_hostgroups : gmap key Items;
  inp_servicegroups : gmap key Items;
  inp_contactgroups : gmap key Items;
  last_need_data_send : Z;
  in_scheduler_mode : bool;
  from_q : option (list Message);
}.

(** Assignment to one attribute of [self]. *)
Definition set_configs (v : gmap key ref) (s : Regenerator) : Regenerator :=
  mkRegenerator v (hosts s) (services s) (notificationways s) (contacts s)
    (hostgroups s) (servicegroups s) (contactgroups s) (timeperiods s)
    (commands s) (schedulers s) (pollers s) (reactionners s) (brokers s)
    (receivers s) (realms s) (tags s) (services_tags s) (inp_hosts s)
    (inp_services s) (inp_hostgroups s) (inp_servicegroups s)
    (inp_contactgroups s) (last_need_data_send s) (in_scheduler_mode s)
    (from_q s).

Definition set_hosts (v : Items) (s : Regenerator) : Regenerator :=
  mkRegenerator (configs s) v (services s) (notificationways s) (contacts s)
    (hostgroups s) (servicegroups s) (contactgroups s) (timeperiods s)
    (commands s) (schedulers s) (pollers s) (reactionners s) (brokers s)
    (receivers s) (realms s) (tags s) (services_tags s) (inp_hosts s)
    (inp_services s) (inp_hostgroups s) (inp_servicegroups s)
    (inp_contactgroups s) (last_need_data_send s) (in_scheduler_mode s)
    (from_q s).

Definition set_services (v : Items) (s : Regenerator) : Regenerator :=
  mkRegenerator (configs s) (hosts s) v (notificationways s) (contacts s)
    (hostgroups s) (servicegroups s) (contactgroups s) (timeperiods s)
    (commands s) (schedulers s) (pollers s) (reactionners s) (brokers s)
    (receivers s) (realms s) (tags s) (services_tags s) (inp_hosts s)
    (inp_services s) (inp_hostgroups s) (inp_servicegroups s)
    (inp_contactgroups s) (last_need_data_send s) (in_scheduler_mode s)
    (from_q s).

Definition set_notificationways (v : Items) (s : Regenerator) : Regenerator :=
  mkRegenerator (configs s) (hosts s) (services s) v (contacts s) (hostgroups
    s) (servicegroups s) (contactgroups s) (timeperiods s) (commands s)
    (schedulers s) (pollers s) (reactionners s) (brokers s) (receivers s)
    (realms s) (tags s) (services_tags s) (inp_hosts s) (inp_services s)
    (inp_hostgroups s) (inp_servicegroups s) (inp_contactgroups s)
    (last_need_data_send s) (in_scheduler_mode s) (from_q s).

Definition set_contacts (v : Items) (s : Regenerator) : Regenerator :=
  mkRegenerator (configs s) (hosts s) (services s) (notificationways s) v
    (hostgroups s) (servicegroups s) (contactgroups s) (timeperiods s)
    (commands s) (schedulers s) (pollers s) (reactionners s) (brokers s)
    (receivers s) (realms s) (tags s) (services_tags s) (inp_hosts s)
    (inp_services s) (inp_hostgroups s) (inp_servicegroups s)
    (inp_contactgroups s) (last_need_data_send s) (in_scheduler_mode s)
    (from_q s).

Definition set_hostgroups (v : Items) (s : Regenerator) : Regenerator :=
  mkRegenerator (configs s) (hosts s) (services s) (notificationways s)
    (contacts s) v (servicegroups s) (contactgroups s) (timeperiods s)
    (commands s) (schedulers s) (pollers s) (reactionners s) (brokers s)
    (receivers s) (realms s) (tags s) (services_tags s) (inp_hosts s)
    (inp_services s) (inp_hostgroups s) (inp_servicegroups s)
    (inp_contactgroups s) (last_need_data_send s) (in_scheduler_mode s)
    (from_q s).

Definition set_servicegroups (v : Items) (s : Regenerator) : Regenerator :=
  mkRegenerator (configs s) (hosts s) (services s) (notificationways s)
    (contacts s) (hostgroups s) v (contactgroups s) (timeperiods s) (commands
    s) (schedulers s) (pollers s) (reactionners s) (brokers s) (receivers s)
    (realms s) (tags s) (services_tags s) (inp_hosts s) (inp_services s)
    (inp_hostgroups s) (inp_servicegroups s) (inp_contactgroups s)
    (last_need_data_send s) (in_scheduler_mode s) (from_q s).

Definition set_contactgroups (v : Items) (s : Regenerator) : Regenerator :=
  mkRegenerator (configs s) (hosts s) (services s) (notificationways s)
    (contacts s) (hostgroups s) (servicegroups s) v (timeperiods s) (commands
    s) (schedulers s) (pollers s) (reactionners s) (brokers s) (receivers s)
    (realms s) (tags s) (services_tags s) (inp_hosts s) (inp_services s)
    (inp_hostgroups s) (inp_servicegroups s) (inp_contactgroups s)
    (last_need_data_send s) (in_scheduler_mode s) (from_q s).

Definition set_timeperiods (v : Items) (s : Regenerator) : Regenerator :=
  mkRegenerator (configs s) (hosts s) (services s) (notificationways s)
    (contacts s) (hostgroups s) (servicegroups s) (contactgroups s) v
    (commands s) (schedulers s) (pollers s) (reactionners s) (brokers s)
    (receivers s) (realms s) (tags s) (services_tags s) (inp_hosts s)
    (inp_services s) (inp_hostgroups s) (inp_servicegroups s)
    (inp_contactgroups s) (last_need_data_send s) (in_scheduler_mode s)
    (from_q s).

Definition set_commands (v : Items) (s : Regenerator) : Regenerator :=
  mkRegenerator (configs s) (hosts s) (services s) (notificationways s)
    (contacts s) (hostgroups s) (servicegroups s) (contactgroups s)
    (timeperiods s) v (schedulers s) (pollers s) (reactionners s) (brokers s)
    (receivers s) (realms s) (tags s) (services_tags s) (inp_hosts s)
    (inp_services s) (inp_hostgroups s) (inp_servicegroups s)
    (inp_contactgroups s) (last_need_data_send s) (in_scheduler_mode s)
    (from_q s).

Definition set_schedulers (v : Items) (s : Regenerator) : Regenerator :=
  mkRegenerator (configs s) (hosts s) (services s) (notificationways s)
    (contacts s) (hostgroups s) (servicegroups s) (contactgroups s)
    (timeperiods s) (commands s) v (pollers s) (reactionners s) (brokers s)
    (receivers s) (realms s) (tags s) (services_tags s) (inp_hosts s)
    (inp_services s) (inp_hostgroups s) (inp_servicegroups s)
    (inp_contactgroups s) (last_need_data_send s) (in_scheduler_mode s)
    (from_q s).

Definition set_pollers (v : Items) (s : Regenerator) : Regenerator :=
  mkRegenerator (configs s) (hosts s) (services s) (notificationways s)
    (contacts s) (hostgroups s) (servicegroups s) (contactgroups s)
    (timeperiods s) (commands s) (schedulers s) v (reactionners s) (brokers s)
    (receivers s) (realms s) (tags s) (services_tags s) (inp_hosts s)
    (inp_services s) (inp_hostgroups s) (inp_servicegroups s)
    (inp_contactgroups s) (last_need_data_send s) (in_scheduler_mode s)
    (from_q s).

Definition set_reactionners (v : Items) (s : Regenerator) : Regenerator :=
  mkRegenerator (configs s) (hosts s) (services s) (notificationways s)
    (contacts s) (hostgroups s) (servicegroups s) (contactgroups s)
    (timeperiods s) (commands s) (schedulers s) (pollers s) v (brokers s)
    (receivers s) (realms s) (tags s) (services_tags s) (inp_hosts s)
    (inp_services s) (inp_hostgroups s) (inp_servicegroups s)
    (inp_contactgroups s) (last_need_data_send s) (in_scheduler_mode s)
    (from_q s).

Definition set_brokers (v : Items) (s : Regenerator) : Regenerator :=
  mkRegenerator (configs s) (hosts s) (services s) (notificationways s)
    (contacts s) (hostgroups s) (servicegroups s) (contactgroups s)
    (timeperiods s) (commands s) (schedulers s) (pollers s) (reactionners s) v
    (receivers s) (realms s) (tags s) (services_tags s) (inp_hosts s)
    (inp_services s) (inp_hostgroups s) (inp_servicegroups s)
    (inp_contactgroups s) (last_need_data_send s) (in_scheduler_mode s)
    (from_q s).

Definition set_receivers (v : Items) (s : Regenerator) : Regenerator :=
  mkRegenerator (configs s) (hosts s) (services s) (notificationways s)
    (contacts s) (hostgroups s) (servicegroups s) (contactgroups s)
    (timeperiods s) (commands s) (schedulers s) (pollers s) (reactionners s)
    (brokers s) v (realms s) (tags s) (services_tags s) (inp_hosts s)
    (inp_services s) (inp_hostgroups s) (inp_servicegroups s)
    (inp_contactgroups s) (last_need_data_send s) (in_scheduler_mode s)
    (from_q s).

Definition set_realms (v : gset key) (s : Regenerator) : Regenerator :=
  mkRegenerator (configs s) (hosts s) (services s) (notificationways s)
    (contacts s) (hostgroups s) (servicegroups s) (contactgroups s)
    (timeperiods s) (commands s) (schedulers s) (pollers s) (reactionners s)
    (brokers s) (receivers s) v (tags s) (services_tags s) (inp_hosts s)
    (inp_services s) (inp_hostgroups s) (inp_servicegroups s)
    (inp_contactgroups s) (last_need_data_send s) (in_scheduler_mode s)
    (from_q s).

Definition set_tags (v : gmap key Z) (s : Regenerator) : Regenerator :=
  mkRegenerator (configs s) (hosts s) (services s) (notificationways s)
    (contacts s) (hostgroups s) (servicegroups s) (contactgroups s)
    (timeperiods s) (commands s) (schedulers s) (pollers s) (reactionners s)
    (brokers s) (receivers s) (realms s) v (services_tags s) (inp_hosts s)
    (inp_services s) (inp_hostgroups s) (inp_servicegroups s)
    (inp_contactgroups s) (last_need_data_send s) (in_scheduler_mode s)
    (from_q s).

Definition set_services_tags (v : gmap key Z) (s : Regenerator) : Regenerator :=
  mkRegenerator (configs s) (hosts s) (services s) (notificationways s)
    (contacts s) (hostgroups s) (servicegroups s) (contactgroups s)
    (timeperiods s) (commands s) (schedulers s) (pollers s) (reactionners s)
    (brokers s) (receivers s) (realms s) (tags s) v (inp_hosts s)
    (inp_services s) (inp_hostgroups s) (inp_servicegroups s)
    (inp_contactgroups s) (last_need_data_send s) (in_scheduler_mode s)
    (from_q s).

Definition set_inp_hosts (v : gmap key Items) (s : Regenerator) : Regenerator :=
  mkRegenerator (configs s) (hosts s) (services s) (notificationways s)
    (contacts s) (hostgroups s) (servicegroups s) (contactgroups s)
    (timeperiods s) (commands s) (schedulers s) (pollers s) (reactionners s)
    (brokers s) (receivers s) (realms s) (tags s) (services_tags s) v
    (inp_services s) (inp_hostgroups s) (inp_servicegroups s)
    (inp_contactgroups s) (last_need_data_send s) (in_scheduler_mode s)
    (from_q s).

Definition set_inp_services (v : gmap key Items) (s : Regenerator) : Regenerator :=
  mkRegenerator (configs s) (hosts s) (services s) (notificationways s)
    (contacts s) (hostgroups s) (servicegroups s) (contactgroups s)
    (timeperiods s) (commands s) (schedulers s) (pollers s) (reactionners s)
    (brokers s) (receivers s) (realms s) (tags s) (services_tags s) (inp_hosts
    s) v (inp_hostgroups s) (inp_servicegroups s) (inp_contactgroups s)
    (last_need_data_send s) (in_scheduler_mode s) (from_q s).

Definition set_inp_hostgroups (v : gmap key Items) (s : Regenerator) : Regenerator :=
  mkRegenerator (configs s) (hosts s) (services s) (notificationways s)
    (contacts s) (hostgroups s) (servicegroups s) (contactgroups s)
    (timeperiods s) (commands s) (schedulers s) (pollers s) (reactionners s)
    (brokers s) (receivers s) (realms s) (tags s) (services_tags s) (inp_hosts
    s) (inp_services s) v (inp_servicegroups s) (inp_contactgroups s)
    (last_need_data_send s) (in_scheduler_mode s) (from_q s).

Definition set_inp_servicegroups (v : gmap key Items) (s : Regenerator) : Regenerator :=
  mkRegenerator (configs s) (hosts s) (services s) (notificationways s)
    (contacts s) (hostgroups s) (servicegroups s) (contactgroups s)
    (timeperiods s) (commands s) (schedulers s) (pollers s) (reactionners s)
    (brokers s) (receivers s) (realms s) (tags s) (services_tags s) (inp_hosts
    s) (inp_services s) (inp_hostgroups s) v (inp_contactgroups s)
    (last_need_data_send s) (in_scheduler_mode s) (from_q s).

Definition set_inp_contactgroups (v : gmap key Items) (s : Regenerator) : Regenerator :=
  mkRegenerator (configs s) (hosts s) (services s) (notificationways s)
    (contacts s) (hostgroups s) (servicegroups s) (contactgroups s)
    (timeperiods s) (commands s) (schedulers s) (pollers s) (reactionners s)
    (brokers s) (receivers s) (realms s) (tags s) (services_tags s) (inp_hosts
    s) (inp_services s) (inp_hostgroups s) (inp_servicegroups s) v
    (last_need_data_send s) (in_scheduler_mode s) (from_q s).

Definition set_last_need_data_send (v : Z) (s : Regenerator) : Regenerator :=
  mkRegenerator (configs s) (hosts s) (services s) (notificationways s)
    (contacts s) (hostgroups s) (servicegroups s) (contactgroups s)
    (timeperiods s) (commands s) (schedulers s) (pollers s) (reactionners s)
    (brokers s) (receivers s) (realms s) (tags s) (services_tags s) (inp_hosts
    s) (inp_services s) (inp_hostgroups s) (inp_servicegroups s)
    (inp_contactgroups s) v (in_scheduler_mode s) (from_q s).

Definition set_in_scheduler_mode (v : bool) (s : Regenerator) : Regenerator :=
  mkRegenerator (configs s) (hosts s) (services s) (notificationways s)
    (contacts s) (hostgroups s) (servicegroups s) (contactgroups s)
    (timeperiods s) (commands s) (schedulers s) (pollers s) (reactionners s)
    (brokers s) (receivers s) (realms s) (tags s) (services_tags s) (inp_hosts
    s) (inp_services s) (inp_hostgroups s) (inp_servicegroups s)
    (inp_contactgroups s) (last_need_data_send s) v (from_q s).

Definition set_from_q (v : option (list Message)) (s : Regenerator) : Regenerator :=
  mkRegenerator (configs s) (hosts s) (services s) (notificationways s)
    (contacts s) (hostgroups s) (servicegroups s) (contactgroups s)
    (timeperiods s) (commands s) (schedulers s) (pollers s) (reactionners s)
    (brokers s) (receivers s) (realms s) (tags s) (services_tags s) (inp_hosts
    s) (inp_services s) (inp_hostgroups s) (inp_servicegroups s)
    (inp_contactgroups s) (last_need_data_send s) (in_scheduler_mode s) v.

(** [Regenerator.__init__], run when the clock reads [t]. *)
Definition Regenerator_init (t : Z) : Regenerator :=
  {| configs := ∅;
     hosts := new_Items Hosts;
     services := new_Items Services;
     notificationways := new_Items NotificationWays;
     contacts := new_Items Contacts;
     hostgroups := new_Items Hostgroups;
     servicegroups := new_Items Servicegroups;
     contactgroups := new_Items Contactgroups;
     timeperiods := new_Items Timeperiods;
     commands := new_Items Commands;
     schedulers := new_Items SchedulerLinks;
     pollers := new_Items PollerLinks;
     reactionners := new_Items ReactionnerLinks;
     brokers := new_Items BrokerLinks;
     receivers := new_Items ReceiverLinks;
     realms := ∅;
     tags := ∅;
     services_tags := ∅;
     inp_hosts := ∅;
     inp_services := ∅;
     inp_hostgroups := ∅;
     inp_servicegroups := ∅;
     inp_contactgroups := ∅;
     last_need_data_send := t;
     in_scheduler_mode := false;
     from_q := None |}.

(** [load_external_queue]. *)
Definition load_external_queue (q : list Message) (s : Regenerator) : Regenerator :=
  set_from_q (Some q) s.

(** ** The world a handler runs in

    [rg] is [self]; [heap] holds every object; [now] is what [time.time()]
    reads during the call (in seconds; the handlers only subtract and compare
    clock readings) and [uuid4] what [str(uuid.uuid4())] returns.  The
    handlers never write the last two. *)
Record World : Type := mkWorld {
  rg : Regenerator;
  heap : gmap positive object;
  now : Z;
  uuid4 : string;
}.

Definition with_rg (s : Regenerator) (w : World) : World :=
  mkWorld s (heap w) (now w) (uuid4 w).

Definition with_heap (h : gmap positive object) (w : World) : World :=
  mkWorld (rg w) h (now w) (uuid4 w).

(** ** Exceptions and the handler monad *)

Inductive exn : Type :=
| KeyError (what : string)
| TypeError (what : string)
| AttributeError (what : string)
| IndexError (what : string)
| ValueError (what : string)
| UnboundLocalError (what : string).

Inductive result (A : Type) : Type :=
| Ret (a : A)
| Raise (e : exn).
Global Arguments Ret {A} a.
Global Arguments Raise {A} e.

(** A Python statement or expression: it runs in a world and either returns
    a value or raises; the effects made before an exception remain. *)
Definition M (A : Type) : Type := World → result A * World.

Global Instance M_ret : MRet M := λ A a w, (Ret a, w).

Global Instance M_bind : MBind M := λ A B f m w,
  match m w with
  | (Ret a, w') => f a w'
  | (Raise e, w') => (Raise e, w')
  end.

Definition raise {A : Type} (e : exn) : M A := λ w, (Raise e, w).

(** [try: m  except Exception as exp: h exp]. *)
Definition try_except {A : Type} (m : M A) (h : exn → M A) : M A := λ w,
  match m w with
  | (Ret a, w') => (Ret a, w')
  | (Raise e, w') => h e w'
  end.

(** Reading and assigning attributes of [self]. *)
Definition self {A : Type} (f : Regenerator → A) : M A := λ w, (Ret (f (rg w)), w).

Definition assign (f : Regenerator → Regenerator) : M unit := λ w,
  (Ret tt, with_rg (f (rg w)) w).

Definition time_time : M Z := λ w, (Ret (now w), w).

Definition uuid_uuid4 : M string := λ w, (Ret (uuid4 w), w).

(** A [for] loop that threads an accumulator. *)
Fixpoint foldM {A B : Type} (f : B → A → M B) (l : list A) (b : B) : M B :=
  match l with
  | [] => mret b
  | x :: l' => b' ← f b x; foldM f l' b'
  end.

Definition for_each {A : Type} (l : list A) (body : A → M unit) : M unit :=
  foldM (λ _ x, body x) l tt.

(** A loop left by [break] at the first element satisfying [p]; [None] when
    the loop runs to its end (the [else] branch of a [for]). *)
Fixpoint find_first {A : Type} (p : A → M bool) (l : list A) : M (option A) :=
  match l with
  | [] => mret None
  | x :: l' => b ← p x; if b : bool then mret (Some x) else find_first p l'
  end.

(** ** Python operations on values *)

(** [o.a] *)
Definition getattr (o : value) (a : string) : M value := λ w,
  match o with
  | VRef r =>
      match attr_of (heap w) r a with
      | Some v => (Ret v, w)
      | None => (Raise (AttributeError a), w)
      end
  | _ => (Raise (AttributeError a), w)
  end.

(** [getattr(o, a, d)] *)
Definition getattr_d (o : value) (a : string) (d : value) : M value := λ w,
  match o with
  | VRef r => (Ret (default d (attr_of (heap w) r a)), w)
  | _ => (Ret d, w)
  end.

(** [hasattr(o, a)] *)
Definition hasattr (o : value) (a : string) : M bool := λ w,
  match o with
  | VRef r => (Ret (bool_decide (is_Some (attr_of (heap w) r a))), w)
  | _ => (Ret false, w)
  end.

(** [o.a = v]; only objects take attributes. *)
Definition setattr (o : value) (a : string) (v : value) : M unit := λ w,
  match o with
  | VRef r => (Ret tt, with_heap (heap_set (heap w) r a v) w)
  | _ => (Raise (AttributeError a), w)
  end.

(** [isinstance(o, c)] for a class [c] of objects. *)
Definition isinstance (o : value) (c : class) : M bool := λ w,
  match o with
  | VRef r => (Ret (bool_decide (class_of (heap w) r = c)), w)
  | _ => (Ret false, w)
  end.

(** [d[k]] on a brok's data. *)
Definition data_get (data : gmap string value) (k : string) : M value :=
  match data !! k with
  | Some v => mret v
  | None => raise (KeyError k)
  end.

(** The key of a dictionary access; lists and dictionaries are unhashable. *)
Definition hash (v : value) : M key :=
  match to_key v with
  | Some k => mret k
  | None => raise (TypeError "unhashable")
  end.

(** The characters of a string, as one-character strings. *)
Fixpoint chars (s : string) : list value :=
  match s with
  | EmptyString => []
  | String c s' => VStr (String c EmptyString) :: chars s'
  end.

(** [for x in v]: the elements of a sequence, the keys of a dictionary, the
    characters of a string. *)
Definition elements (v : value) : option (list value) :=
  match v with
  | VList l => Some l
  | VDict d => Some (map (λ kv, VStr (fst kv)) d)
  | VStr s => Some (chars s)
  | VNone | VBool _ | VInt _ | VRef _ => None
  end.

Definition iter (v : value) : M (list value) :=
  match elements v with
  | Some l => mret l
  | None => raise (TypeError "not iterable")
  end.

(** [(a, b) = v] *)
Definition unpack2 (v : value) : M (value * value) :=
  l ← iter v;
  match l with
  | [a; b] => mret (a, b)
  | _ => raise (ValueError "unpack")
  end.

(** [len(v)] *)
Definition len (v : value) : M Z :=
  match v with
  | VList l => mret (Z.of_nat (length l))
  | VDict d => mret (Z.of_nat (length d))
  | VStr s => mret (Z.of_nat (String.length s))
  | VNone | VBool _ | VInt _ | VRef _ => raise (TypeError "len")
  end.

Definition opt_value (o : option ref) : value :=
  match o with
  | Some r => VRef r
  | None => VNone
  end.

(** ** Operations of the item containers

    Modelled from the spec: the methods of the Shinken containers the
    regenerator calls ([add_item], [remove_item], [find_by_name], indexing,
    membership and iteration), for a store "keyed by stable identifier, each
    supporting name-based and id-based lookup".  An element is filed under
    its [id] attribute and indexed under its name attribute; a service is
    indexed under the pair of its [host_name] and [service_description].
    Adding an element under a name already indexed replaces the element
    indexed there. *)

Definition item_name (h : gmap positive object) (c : items_class) (r : ref)
  : option key :=
  match c with
  | Services =>
      match attr_of h r "host_name", attr_of h r "service_description" with
      | Some hn, Some sd =>
          match to_key hn, to_key sd with
          | Some a, Some b => Some (KPair a b)
          | _, _ => None
          end
      | _, _ => Some (KStr "")
      end
  | _ => to_key (default (VStr "") (attr_of h r (name_property c)))
  end.

(** [remove_item(item)]: drop the name from the index, then
    [items.pop(item.id, None)]. *)
Definition Items_remove_item (r : ref) (h : gmap positive object) (it : Items)
  : result unit * Items :=
  match item_name h (inner it) r with
  | None => (Raise (TypeError "unhashable"), it)
  | Some n =>
      let it1 := mkItems (inner it) (items it) (delete n (name_to_item it)) in
      match attr_of h r "id" with
      | None => (Raise (AttributeError "id"), it1)
      | Some v =>
          match to_key v with
          | None => (Raise (TypeError "unhashable"), it1)
          | Some k => (Ret tt, mkItems (inner it) (delete k (items it1)) (name_to_item it1))
          end
      end
  end.

(** [add_item(item)] (with [index=True]). *)
Definition Items_add_item (r : ref) (h : gmap positive object) (it : Items)
  : result unit * Items :=
  match item_name h (inner it) r with
  | None => (Raise (TypeError "unhashable"), it)
  | Some n =>
      let '(res, it1) :=
        match name_to_item it !! n with
        | Some old => Items_remove_item old h it
        | None => (Ret tt, it)
        end in
      match res with
      | Raise e => (Raise e, it1)
      | Ret _ =>
          let it2 := mkItems (inner it) (items it1) (<[n := r]> (name_to_item it1)) in
          match attr_of h r "id" with
          | None => (Raise (AttributeError "id"), it2)
          | Some v =>
              match to_key v with
              | None => (Raise (TypeError "unhashable"), it2)
              | Some k => (Ret tt, mkItems (inner it) (<[k := r]> (items it2)) (name_to_item it2))
              end
          end
      end
  end.

(** [container[k] = item] *)
Definition Items_setitem (k : key) (r : ref) (h : gmap positive object) (it : Items)
  : result unit * Items :=
  let it1 := mkItems (inner it) (<[k := r]> (items it)) (name_to_item it) in
  match item_name h (inner it) r with
  | None => (Raise (TypeError "unhashable"), it1)
  | Some n => (Ret tt, mkItems (inner it) (items it1) (<[n := r]> (name_to_item it1)))
  end.

(** [container.find_by_name(name)] *)
Definition find_by_name (it : Items) (name : value) : M (option ref) :=
  n ← hash name; mret (name_to_item it !! n).

(** [services.find_srv_by_name_and_hostname(host_name, sdescr)] *)
Definition find_srv_by_name_and_hostname (it : Items) (hname sdesc : value)
  : M (option ref) :=
  a ← hash hname; b ← hash sdesc; mret (name_to_item it !! KPair a b).

(** [for x in container]: the elements, in the order of the dictionary. *)
Definition elements_of (it : Items) : list ref := (map_to_list (items it)).*2.

(** [k in container] *)
Definition contains (it : Items) (k : value) : M bool :=
  n ← hash k; mret (bool_decide (is_Some (items it !! n))).

(** [container[k]] *)
Definition getitem (it : Items) (k : value) : M ref :=
  n ← hash k;
  match items it !! n with
  | Some r => mret r
  | None => raise (KeyError "item")
  end.

(** The containers of [self] a handler can update: the collections of the
    store, and the containers staged for an instance ([self.inp_hosts[k]],
    ...), which a handler holds through a local name. *)
Inductive coll : Type :=
| self_hosts | self_services | self_notificationways | self_contacts
| self_hostgroups | self_servicegroups | self_contactgroups
| self_timeperiods | self_commands
| self_schedulers | self_pollers | self_reactionners | self_brokers
| self_receivers
| self_inp_hosts (k : key) | self_inp_services (k : key)
| self_inp_hostgroups (k : key) | self_inp_servicegroups (k : key)
| self_inp_contactgroups (k : key).

Definition coll_get (c : coll) (s : Regenerator) : Items :=
  match c with
  | self_hosts => hosts s
  | self_services => services s
  | self_notificationways => notificationways s
  | self_contacts => contacts s
  | self_hostgroups => hostgroups s
  | self_servicegroups => servicegroups s
  | self_contactgroups => contactgroups s
  | self_timeperiods => timeperiods s
  | self_commands => commands s
  | self_schedulers => schedulers s
  | self_pollers => pollers s
  | self_reactionners => reactionners s
  | self_brokers => brokers s
  | self_receivers => receivers s
  | self_inp_hosts k => default (new_Items Hosts) (inp_hosts s !! k)
  | self_inp_services k => default (new_Items Services) (inp_services s !! k)
  | self_inp_hostgroups k => default (new_Items Hostgroups) (inp_hostgroups s !! k)
  | self_inp_servicegroups k => default (new_Items Servicegroups) (inp_servicegroups s !! k)
  | self_inp_contactgroups k => default (new_Items Contactgroups) (inp_contactgroups s !! k)
  end.

Definition coll_set (c : coll) (it : Items) (s : Regenerator) : Regenerator :=
  match c with
  | self_hosts => set_hosts it s
  | self_services => set_services it s
  | self_notificationways => set_notificationways it s
  | self_contacts => set_contacts it s
  | self_hostgroups => set_hostgroups it s
  | self_servicegroups => set_servicegroups it s
  | self_contactgroups => set_contactgroups it s
  | self_timeperiods => set_timeperiods it s
  | self_commands => set_commands it s
  | self_schedulers => set_schedulers it s
  | self_pollers => set_pollers it s
  | self_reactionners => set_reactionners it s
  | self_brokers => set_brokers it s
  | self_receivers => set_receivers it s
  | self_inp_hosts k => set_inp_hosts (<[k := it]> (inp_hosts s)) s
  | self_inp_services k => set_inp_services (<[k := it]> (inp_services s)) s
  | self_inp_hostgroups k => set_inp_hostgroups (<[k := it]> (inp_hostgroups s)) s
  | self_inp_servicegroups k => set_inp_servicegroups (<[k := it]> (inp_servicegroups s)) s
  | self_inp_contactgroups k => set_inp_contactgroups (<[k := it]> (inp_contactgroups s)) s
  end.

(** Run a container method on a container of [self]. *)
Definition on {A : Type} (c : coll)
    (op : gmap positive object → Items → result A * Items) : M A := λ w,
  let '(r, it') := op (heap w) (coll_get c (rg w)) in
  (r, with_rg (coll_set c it' (rg w)) w).

(** [list.append]: the attribute [a] of [o] holds a list, extended in
    place. *)
Definition append_attr (o : value) (a : string) (x : value) : M unit :=
  l ← getattr o a;
  match l with
  | VList xs => setattr o a (VList (xs ++ [x]))
  | _ => raise (AttributeError "append")
  end.

(** A list comprehension with a condition. *)
Fixpoint filterM {A : Type} (p : A → M bool) (l : list A) : M (list A) :=
  match l with
  | [] => mret []
  | x :: l' =>
      b ← p x; rest ← filterM p l';
      mret (if b : bool then x :: rest else rest)
  end.

(** A number in an arithmetic expression. *)
Definition as_number (v : value) : M Z :=
  match v with
  | VInt z => mret z
  | VBool b => mret (Z.b2z b)
  | _ => raise (TypeError "unsupported operand")
  end.

(** [s.split(sep)] on a string, for a one-character separator. *)
Fixpoint split_on (sep : ascii) (s : string) : list string :=
  match s with
  | EmptyString => [EmptyString]
  | String c s' =>
      match split_on sep s' with
      | [] => [String c EmptyString]
      | w :: ws => if Ascii.eqb c sep then EmptyString :: w :: ws
                   else String c w :: ws
      end
  end.

Definition split (v : value) (sep : ascii) : M (list value) :=
  match v with
  | VStr s => mret (map VStr (split_on sep s))
  | _ => raise (AttributeError "split")
  end.

(** [needle in hay] for strings. *)
Fixpoint prefixb (p s : string) : bool :=
  match p, s with
  | EmptyString, _ => true
  | String a p', String b s' => Ascii.eqb a b && prefixb p' s'
  | String _ _, EmptyString => false
  end.

Fixpoint substringb (p s : string) : bool :=
  prefixb p s ||
  match s with
  | EmptyString => false
  | String _ s' => substringb p s'
  end.

(** [x in v] for a value [v]: an element of a sequence, a key of a
    dictionary, a substring of a string. *)
Definition py_in (x : value) (v : value) : M bool :=
  match v with
  | VList l => mret (existsb (py_eq x) l)
  | VDict d => mret (existsb (λ kv, py_eq x (VStr (fst kv))) d)
  | VStr s =>
      match x with
      | VStr p => mret (substringb p s)
      | _ => raise (TypeError "in <string>")
      end
  | VNone | VBool _ | VInt _ | VRef _ => raise (TypeError "not iterable")
  end.

(** [v[k]] for a string [k]: only a dictionary is indexed by a string. *)
Definition subscript (v : value) (k : string) : M value :=
  match v with
  | VDict d =>
      match dict_get d k with
      | Some x => mret x
      | None => raise (KeyError k)
      end
  | _ => raise (TypeError "subscript")
  end.

(** ["%02d" % n] *)
Definition fmt_02d (z : Z) : string :=
  if decide (0 ≤ z < 10) then "0" +:+ pretty z else pretty z.

(** ["%02d:%02d-%02d:%02d" % (a, b, c, d)] *)
Definition fmt_timerange (a b c d : value) : M string :=
  a' ← as_number a; b' ← as_number b; c' ← as_number c; d' ← as_number d;
  mret (fmt_02d a' +:+ ":" +:+ fmt_02d b' +:+ "-" +:+ fmt_02d c' +:+ ":" +:+ fmt_02d d').

(** ** A brok *)

Record Brok : Type := mkBrok {
  b_type : string;
  b_id : option value;      (* the attribute [id], when set *)
  b_uuid : option value;    (* the attribute [uuid], when set *)
  b_data : gmap string value;
}.

(** * The code of the regenerator *)

Section Regenerator.

(** The module constant [ALIGNAK] (set from the environment at import). *)
Variable ALIGNAK : bool.

(** The attributes a freshly constructed object of a class carries
    ([Host({})], [Config()], ...): the Shinken classes are imported, their
    defaults are taken as given. *)
Variable init : class → gmap string value.

(** [NotificationWay.properties], the property names of the class. *)
Variable NotificationWay_properties : list string.

(** [C({})]: a new object, distinct from every object of the heap. *)
Definition new (c : class) : M ref := λ w,
  let r := fresh (dom (heap w)) in
  (Ret r, with_heap (<[r := mkObject c (init c)]> (heap w)) w).

(** Modelled from the spec: [get_name()] of the Shinken classes, the "name"
    key attribute of each entity kind; a host, a contact, a timeperiod and a
    service without name answer a placeholder. *)
Definition get_name (o : value) : M value :=
  match o with
  | VRef r =>
      λ w,
      match class_of (heap w) r with
      | Host => getattr_d o "host_name" (VStr "UNNAMEDHOST") w
      | Service => getattr_d o "service_description" (VStr "SERVICE-DESCRIPTION-MISSING") w
      | Contact => getattr_d o "contact_name" (VStr "UnnamedContact") w
      | Timeperiod => getattr_d o "timeperiod_name" (VStr "unknown_timeperiod") w
      | Hostgroup => getattr o "hostgroup_name" w
      | Servicegroup => getattr o "servicegroup_name" w
      | Contactgroup => getattr o "contactgroup_name" w
      | Command => getattr o "command_name" w
      | NotificationWay => getattr o "notificationway_name" w
      | _ => (Raise (AttributeError "get_name"), w)
      end
  | _ => raise (AttributeError "get_name")
  end.

(** Modelled from the spec: [Host.find_service_by_name], the traversal of a
    host's services: the first element of [self.services] whose
    [service_description] is the one asked for. *)
Definition find_service_by_name (h : value) (sdesc : value) : M (option value) :=
  svcs ← getattr h "services";
  l ← iter svcs;
  find_first (λ s, d ← getattr_d s "service_description" (VStr "__UNNAMED_SERVICE__");
                   mret (py_eq d sdesc)) l.

(** [l.remove(x)]: without the first element equal to [x]. *)
Fixpoint list_remove (x : value) (l : list value) : option (list value) :=
  match l with
  | [] => None
  | y :: l' => if py_eq y x then Some l'
               else match list_remove x l' with
                    | Some l'' => Some (y :: l'')
                    | None => None
                    end
  end.

Definition remove_attr (o : value) (a : string) (x : value) : M unit :=
  l ← getattr o a;
  match l with
  | VList xs =>
      match list_remove x xs with
      | Some xs' => setattr o a (VList xs')
      | None => raise (ValueError "list.remove(x): x not in list")
      end
  | _ => raise (AttributeError "remove")
  end.

(** ** [update_element]

    [data] is a dictionary, which has no attribute [uuid]: the first test of
    the source never holds, and every key of [data] is set on [element]. *)
Definition update_element (element : value) (data : gmap string value) : M unit :=
  for_each (map_to_list data) (λ kv, setattr element (fst kv) (snd kv)).

(** ** The [linkify_*] helpers *)

Definition linkify_a_command (o : value) (prop : string) : M unit :=
  cc ← getattr_d o prop VNone;
  if negb (truthy cc) then setattr o prop VNone
  else
    is_cc ← isinstance cc CommandCall;
    cmdname ← (if is_cc : bool then getattr cc "command" else mret cc);
    cmds ← self commands;
    c ← find_by_name cmds cmdname;
    setattr cc "command" (opt_value c);;
    (* logger.debug: cc.command.get_name() if cc.command else 'None' *)
    match c with
    | Some r => _ ← get_name (VRef r); mret tt
    | None => mret tt
    end.

Definition linkify_commands (o : value) (prop : string) : M unit :=
  v ← getattr_d o prop VNone;
  if negb (truthy v) then setattr o prop (VList [])
  else
    l ← iter v;
    for_each l (λ cc,
      has ← hasattr cc "command";
      cmdname ← (if has : bool then getattr cc "command" else mret cc);
      cmds ← self commands;
      has_uuid ← hasattr cmdname "uuid";
      by_uuid ← (if has_uuid : bool
                 then u ← getattr cmdname "uuid"; contains cmds u
                 else mret false);
      c ← (if by_uuid : bool
           then u ← getattr cmdname "uuid"; r ← getitem cmds u; mret (Some r)
           else find_by_name cmds cmdname);
      setattr cc "command" (opt_value c);;
      match c with
      | Some r => _ ← get_name (VRef r); mret tt
      | None => mret tt
      end).

Definition linkify_a_timeperiod (o : value) (prop : string) : M unit :=
  t ← getattr_d o prop VNone;
  if negb (truthy t) then setattr o prop VNone
  else
    tps ← self timeperiods;
    known ← contains tps t;
    if known : bool then
      r ← getitem tps t; setattr o prop (VRef r)
    else
      tpname ← getattr t "timeperiod_name";
      tp ← find_by_name tps tpname;
      setattr o prop (opt_value tp).

Definition linkify_a_timeperiod_by_name (o : value) (prop : string) : M unit :=
  tpname ← getattr_d o prop VNone;
  if negb (truthy tpname) then setattr o prop VNone
  else
    tps ← self timeperiods;
    tp ← find_by_name tps tpname;
    setattr o prop (opt_value tp).

(** The inner loop of the [linkify_*] helpers: the first element of a
    container whose [uuid] is [u]. *)
Definition find_by_uuid (it : Items) (u : value) : M (option ref) :=
  find_first (λ r, x ← getattr (VRef r) "uuid"; mret (py_eq u x)) (elements_of it).

Definition linkify_contacts (o : value) (prop : string) : M unit :=
  v ← getattr_d o prop VNone;
  if negb (truthy v) then mret tt
  else
    l ← iter v;
    new_v ← foldM (λ new_v cname,
               cs ← self contacts;
               c ← find_by_name cs cname;
               match c with
               | Some r => mret (new_v ++ [VRef r])
               | None =>
                   c' ← find_by_uuid cs cname;
                   mret (match c' with Some r => new_v ++ [VRef r] | None => new_v end)
               end) l [];
    setattr o prop (VList new_v).

Definition linkify_dict_srv_and_hosts (o : value) (prop : string) : M unit :=
  v ← getattr_d o prop VNone;
  if negb (truthy v) then setattr o prop (VList [])
  else
    _ ← get_name o;
    has_hosts ← py_in (VStr "hosts") v;
    has_services ← (if has_hosts : bool then py_in (VStr "services") v else mret false);
    new_v ←
      (if negb has_hosts || negb has_services then
         l ← iter v;
         foldM (λ new_v uuid,
            hs ← self hosts;
            h ← find_by_uuid hs uuid;
            match h with
            | Some r => mret (new_v ++ [VRef r])
            | None =>
                ss ← self services;
                s ← find_by_uuid ss uuid;
                mret (match s with Some r => new_v ++ [VRef r] | None => new_v end)
            end) l []
       else
         vs ← subscript v "services";
         ls ← iter vs;
         new_v ← foldM (λ new_v name,
            elts ← split name "/";
            match elts with
            | hname :: sdesc :: _ =>
                ss ← self services;
                s ← find_srv_by_name_and_hostname ss hname sdesc;
                mret (match s with Some r => new_v ++ [VRef r] | None => new_v end)
            | _ => raise (IndexError "list index out of range")
            end) ls [];
         vh ← subscript v "hosts";
         lh ← iter vh;
         foldM (λ new_v hname,
            hs ← self hosts;
            h ← find_by_name hs hname;
            mret (match h with Some r => new_v ++ [VRef r] | None => new_v end)) lh new_v);
    setattr o prop (VList new_v).

Definition linkify_host_and_hosts (o : value) (prop : string) : M unit :=
  v ← getattr o prop;
  if negb (truthy v) then setattr o prop (VList [])
  else
    _ ← get_name o;
    l ← iter v;
    new_v ← foldM (λ new_v hname,
               hs ← self hosts;
               h ← find_by_name hs hname;
               match h with
               | Some r => mret (new_v ++ [VRef r])
               | None =>
                   h' ← find_by_uuid hs hname;
                   mret (match h' with Some r => new_v ++ [VRef r] | None => new_v end)
               end) l [];
    setattr o prop (VList new_v).

Definition linkify_service_and_services (o : value) (prop : string) : M unit :=
  v ← getattr o prop;
  if negb (truthy v) then setattr o prop (VList [])
  else
    _ ← get_name o;
    l ← iter v;
    new_v ← foldM (λ new_v sdesc,
               ss ← self services;
               s ← find_by_name ss sdesc;
               match s with
               | Some r => mret (new_v ++ [VRef r])
               | None =>
                   s' ← find_by_uuid ss sdesc;
                   mret (match s' with Some r => new_v ++ [VRef r] | None => new_v end)
               end) l [];
    setattr o prop (VList new_v).

(** ** [all_done_linking] *)

(** [k in d.keys()]: membership in the list of keys, by [==]. *)
Definition in_keys {V : Type} (k : value) (d : gmap key V) : bool :=
  match to_key k with
  | Some k' => bool_decide (is_Some (d !! k'))
  | None => false
  end.

(** [d[k]] on a dictionary of [self]. *)
Definition dict_subscript {V : Type} (d : gmap key V) (k : value) : M V :=
  n ← hash k;
  match d !! n with
  | Some x => mret x
  | None => raise (KeyError "key")
  end.

(** The merge of a staged group into the store. *)
Definition merge_group (store : coll) (sub_members : string) (group : ref) : M unit :=
  _ ← get_name (VRef group);
  n ← get_name (VRef group);
  gs ← self (coll_get store);
  g ← find_by_name gs n;
  match g with
  | Some g =>
      _ ← getattr (VRef group) "members";
      _ ← getattr (VRef group) sub_members;
      m ← getattr (VRef group) "members";
      setattr (VRef g) "members" m;;
      sm ← getattr (VRef group) sub_members;
      setattr (VRef g) sub_members sm;;
      i ← getattr (VRef group) "id";
      setattr (VRef g) "id" i;;
      u ← getattr (VRef group) "uuid";
      setattr (VRef g) "uuid" u
  | None => on store (Items_add_item group)
  end.

(** [self.tags[t] += 1], after [self.tags[t] = 0] for a new tag. *)
Definition count_tag (d : gmap key Z) (t : key) : gmap key Z :=
  <[t := default 0 (d !! t) + 1]> d.

(** The steps of the pass once the staged containers are at hand. *)
Definition link_timeperiods : M unit :=
  tps ← self timeperiods;
  for_each (elements_of tps) (λ tp,
    ex ← getattr (VRef tp) "exclude";
    l ← iter ex;
    new_exclude ← foldM (λ acc ex,
        exname ← getattr ex "timeperiod_name";
        tps' ← self timeperiods;
        t ← find_by_name tps' exname;
        mret (match t with Some r => acc ++ [VRef r] | None => acc end)) l [];
    setattr (VRef tp) "exclude" (VList new_exclude)).

Definition link_contactgroups (inp_contactgroups : Items) : M unit :=
  for_each (elements_of inp_contactgroups) (λ cg,
    _ ← get_name (VRef cg);
    ms ← getattr (VRef cg) "members";
    l ← iter ms;
    new_members ← foldM (λ acc m,
        '(i, cname) ← unpack2 m;
        cs ← self contacts;
        c ← find_by_name cs cname;
        mret (match c with Some r => acc ++ [VRef r] | None => acc end)) l [];
    setattr (VRef cg) "members" (VList new_members));;
  for_each (elements_of inp_contactgroups)
    (merge_group self_contactgroups "contactgroup_members").

Definition link_hostgroups (inp_hosts inp_hostgroups : Items) : M unit :=
  for_each (elements_of inp_hostgroups) (λ hg,
    _ ← get_name (VRef hg);
    ms ← getattr (VRef hg) "members";
    l ← iter ms;
    new_members ← foldM (λ acc m,
        '(i, hname) ← unpack2 m;
        h ← find_by_name inp_hosts hname;
        match h with
        | Some r => mret (acc ++ [VRef r])
        | None => _ ← get_name (VRef hg); mret acc
        end) l [];
    setattr (VRef hg) "members" (VList new_members));;
  for_each (elements_of inp_hostgroups)
    (merge_group self_hostgroups "hostgroup_members").

Definition link_host (h : ref) : M unit :=
  hgs0 ← getattr (VRef h) "hostgroups";
  (if truthy hgs0 then
     hgs ← match hgs0 with
           | VList l => mret l
           | _ => split hgs0 ","
           end;
     _ ← get_name (VRef h);
     new_groups ← foldM (λ acc hgname,
         gs ← self hostgroups;
         g ← find_first (λ group,
                n ← get_name (VRef group);
                if py_eq hgname n then mret true
                else u ← getattr (VRef group) "uuid"; mret (py_eq hgname u))
              (elements_of gs);
         match g with
         | Some group => _ ← get_name (VRef group); mret (acc ++ [VRef group])
         | None => _ ← get_name (VRef h); mret acc
         end) hgs [];
     setattr (VRef h) "hostgroups" (VList new_groups);;
     _ ← get_name (VRef h); mret tt
   else mret tt);;
  linkify_a_command (VRef h) "check_command";;
  linkify_a_command (VRef h) "event_handler";;
  linkify_a_timeperiod_by_name (VRef h) "notification_period";;
  linkify_a_timeperiod_by_name (VRef h) "check_period";;
  linkify_a_timeperiod_by_name (VRef h) "maintenance_period";;
  linkify_contacts (VRef h) "contacts";;
  _ ← get_name (VRef h);
  _ ← getattr (VRef h) "contacts";
  ts ← getattr (VRef h) "tags";
  l ← iter ts;
  for_each l (λ t,
    k ← hash t;
    assign (λ s, set_tags (count_tag (tags s) k) s));;
  n ← get_name (VRef h);
  hs ← self hosts;
  old_h ← find_by_name hs n;
  match old_h with
  | Some old => on self_hosts (Items_remove_item old)
  | None => mret tt
  end;;
  on self_hosts (Items_add_item h).

Definition link_servicegroups (inp_services inp_servicegroups : Items) : M unit :=
  for_each (elements_of inp_servicegroups) (λ sg,
    _ ← get_name (VRef sg);
    ms ← getattr (VRef sg) "members";
    l ← iter ms;
    new_members ← foldM (λ acc m,
        '(i, sname) ← unpack2 m;
        known ← contains inp_services i;
        if known : bool then r ← getitem inp_services i; mret (acc ++ [VRef r])
        else mret acc) l [];
    setattr (VRef sg) "members" (VList new_members));;
  for_each (elements_of inp_servicegroups)
    (merge_group self_servicegroups "servicegroup_members").

(** "Now link with host": the host of a service, and the service in the
    host's services. *)
Definition link_service_with_host (s : ref) : M unit :=
  hname ← getattr (VRef s) "host_name";
  hs ← self hosts;
  h ← find_by_name hs hname;
  setattr (VRef s) "host" (opt_value h);;
  match h with
  | Some host =>
      sdesc ← getattr (VRef s) "service_description";
      old_s ← find_service_by_name (VRef host) sdesc;
      match old_s with
      | Some VNone | None => mret tt
      | Some old => remove_attr (VRef host) "services" old
      end;;
      append_attr (VRef host) "services" (VRef s)
  | None => mret tt
  end.

Definition link_service (s : ref) : M unit :=
  sgs ← getattr (VRef s) "servicegroups";
  (if truthy sgs then
     l ← iter sgs;
     new_groups ← foldM (λ acc group_id,
         gs ← self servicegroups;
         g ← find_by_uuid gs group_id;
         mret (match g with Some r => acc ++ [VRef r] | None => acc end)) l [];
     setattr (VRef s) "servicegroups" (VList new_groups)
   else mret tt);;
  link_service_with_host s;;
  linkify_a_command (VRef s) "check_command";;
  linkify_a_command (VRef s) "event_handler";;
  linkify_a_timeperiod_by_name (VRef s) "notification_period";;
  linkify_a_timeperiod_by_name (VRef s) "check_period";;
  linkify_a_timeperiod_by_name (VRef s) "maintenance_period";;
  linkify_contacts (VRef s) "contacts";;
  _ ← getattr (VRef s) "contacts";
  ts ← getattr (VRef s) "tags";
  l ← iter ts;
  for_each l (λ t,
    k ← hash t;
    assign (λ st, set_services_tags (count_tag (services_tags st) k) st));;
  on self_services (Items_add_item s).

Definition link_realms (inp_hosts : Items) : M unit :=
  for_each (elements_of inp_hosts) (λ h,
    r ← getattr_d (VRef h) "realm_name" VNone;
    if truthy r then
      r' ← getattr (VRef h) "realm_name";
      k ← hash r';
      assign (λ s, set_realms ({[k]} ∪ realms s) s)
    else mret tt).

Definition link_impacts (inp_hosts inp_services : Items) : M unit :=
  for_each (elements_of inp_hosts) (λ h,
    linkify_dict_srv_and_hosts (VRef h) "impacts";;
    linkify_dict_srv_and_hosts (VRef h) "source_problems";;
    linkify_host_and_hosts (VRef h) "parent_dependencies";;
    linkify_host_and_hosts (VRef h) "child_dependencies";;
    linkify_host_and_hosts (VRef h) "parents";;
    linkify_host_and_hosts (VRef h) "childs");;
  for_each (elements_of inp_services) (λ s,
    linkify_dict_srv_and_hosts (VRef s) "impacts";;
    linkify_dict_srv_and_hosts (VRef s) "source_problems";;
    linkify_service_and_services (VRef s) "parent_dependencies";;
    linkify_service_and_services (VRef s) "child_dependencies").

(** [del self.inp_*[inst_id]] *)
Definition clean_staging (inst_id : value) : M unit :=
  k ← hash inst_id;
  assign (λ s, set_inp_hosts (delete k (inp_hosts s)) s);;
  assign (λ s, set_inp_hostgroups (delete k (inp_hostgroups s)) s);;
  assign (λ s, set_inp_contactgroups (delete k (inp_contactgroups s)) s);;
  assign (λ s, set_inp_services (delete k (inp_services s)) s);;
  assign (λ s, set_inp_servicegroups (delete k (inp_servicegroups s)) s).

(** The five staged containers of an instance, or [None] when the [try]
    block fails. *)
Definition load_staging (inst_id : value)
  : M (option (Items * Items * Items * Items * Items)) :=
  try_except
    (s ← self id;
     a ← dict_subscript (inp_hosts s) inst_id;
     b ← dict_subscript (inp_hostgroups s) inst_id;
     c ← dict_subscript (inp_contactgroups s) inst_id;
     d ← dict_subscript (inp_services s) inst_id;
     e ← dict_subscript (inp_servicegroups s) inst_id;
     mret (Some (a, b, c, d, e)))
    (λ _, mret None).

(** The pass proper, from "Linking TIMEPERIOD exclude with real ones now"
    to "clean old objects". *)
Definition link_pass (inst_id : value)
    (inp_hosts inp_hostgroups inp_contactgroups inp_services inp_servicegroups : Items)
  : M unit :=
  link_timeperiods;;
  link_contactgroups inp_contactgroups;;
  link_hostgroups inp_hosts inp_hostgroups;;
  for_each (elements_of inp_hosts) link_host;;
  link_servicegroups inp_services inp_servicegroups;;
  for_each (elements_of inp_services) link_service;;
  link_realms inp_hosts;;
  link_impacts inp_hosts inp_services;;
  clean_staging inst_id.

Definition all_done_linking (inst_id : value) : M unit :=
  sched ← self in_scheduler_mode;
  if sched : bool then mret tt
  else
    cfgs ← self configs;
    if negb (in_keys inst_id cfgs) then mret tt
    else
      staged ← load_staging inst_id;
      match staged with
      | None => mret tt
      | Some (inp_hosts, inp_hostgroups, inp_contactgroups,
              inp_services, inp_servicegroups) =>
          link_pass inst_id inp_hosts inp_hostgroups inp_contactgroups
            inp_services inp_servicegroups
      end.

(** ** Brok management: the initial part *)

(** [before_after_hook] does nothing in this class. *)
Definition before_after_hook (b : Brok) (obj : value) : M unit := mret tt.

Definition manage_program_status_brok (b : Brok) : M unit :=
  let data := b_data b in
  c_id ← data_get data "instance_id";
  now ← time_time;
  cfgs ← self configs;
  k ← hash c_id;
  near ← match cfgs !! k with
         | Some c =>
             ts ← getattr (VRef c) "timestamp";
             t ← as_number ts;
             mret (bool_decide (now - t < 60))
         | None => mret false
         end;
  if near : bool then mret tt
  else
    c ← new Config;
    setattr (VRef c) "timestamp" (VInt now);;
    update_element (VRef c) data;;
    assign (λ s, set_inp_hosts (<[k := new_Items Hosts]> (inp_hosts s)) s);;
    assign (λ s, set_inp_services (<[k := new_Items Services]> (inp_services s)) s);;
    assign (λ s, set_inp_hostgroups (<[k := new_Items Hostgroups]> (inp_hostgroups s)) s);;
    assign (λ s, set_inp_servicegroups (<[k := new_Items Servicegroups]> (inp_servicegroups s)) s);;
    assign (λ s, set_inp_contactgroups (<[k := new_Items Contactgroups]> (inp_contactgroups s)) s);;
    assign (λ s, set_configs (<[k := c]> (configs s)) s);;
    hs ← self hosts;
    to_del_h ← filterM (λ h, i ← getattr (VRef h) "instance_id"; mret (py_eq i c_id))
                  (elements_of hs);
    ss ← self services;
    to_del_srv ← filterM (λ x, i ← getattr (VRef x) "instance_id"; mret (py_eq i c_id))
                    (elements_of ss);
    (match to_del_h with
     | [] => mret tt
     | _ =>
         for_each to_del_h (λ h, on self_hosts (Items_remove_item h));;
         hgs ← self hostgroups;
         for_each (elements_of hgs) (λ hg,
           _ ← get_name (VRef hg);
           m ← getattr (VRef hg) "members";
           _ ← len m;
           try_except
             (setattr (VRef hg) "members" (VList []);;
              ms ← getattr (VRef hg) "members";
              l ← iter ms;
              for_each l (λ h,
                i ← getattr h "instance_id";
                if negb (py_eq i c_id) then append_attr (VRef hg) "members" h
                else mret tt))
             (λ _, mret tt);;
           m' ← getattr (VRef hg) "members";
           _ ← len m'; mret tt)
     end);;
    (match to_del_srv with
     | [] => mret tt
     | _ =>
         for_each to_del_srv (λ x, on self_services (Items_remove_item x));;
         sgs ← self servicegroups;
         for_each (elements_of sgs) (λ sg,
           _ ← get_name (VRef sg);
           m ← getattr (VRef sg) "members";
           _ ← len m;
           try_except
             (setattr (VRef sg) "members" (VList []);;
              ms ← getattr (VRef sg) "members";
              l ← iter ms;
              for_each l (λ x,
                i ← getattr x "instance_id";
                if negb (py_eq i c_id) then append_attr (VRef sg) "members" x
                else mret tt))
             (λ _, mret tt);;
           m' ← getattr (VRef sg) "members";
           _ ← len m'; mret tt)
     end).

(** "We need to rebuild Downtime and Comment relationship": the block the
    host and service handlers share. *)
Definition rebuild_downtimes_and_comments (o : value) : M unit :=
  d ← getattr o "downtimes";
  match d with
  | VDict kvs => setattr o "downtimes" (VList (map snd kvs))
  | _ => mret tt
  end;;
  d' ← getattr o "downtimes";
  ld ← iter d';
  for_each ld (λ downtime,
    setattr downtime "ref" o;;
    u ← getattr_d downtime "uuid" VNone;
    match u with
    | VNone => mret tt
    | _ => u' ← getattr downtime "uuid"; setattr downtime "id" u'
    end);;
  c ← getattr o "comments";
  match c with
  | VDict kvs => setattr o "comments" (VList (map snd kvs))
  | _ => mret tt
  end;;
  c' ← getattr o "comments";
  lc ← iter c';
  for_each lc (λ comment,
    setattr comment "ref" o;;
    u ← getattr_d comment "uuid" VNone;
    match u with
    | VNone => mret tt
    | _ => u' ← getattr comment "uuid"; setattr comment "id" u'
    end;;
    setattr comment "persistent" (VBool true)).

(** [inp[item.id] = item] on a staged container. *)
Definition stage (c : coll) (item : ref) : M unit :=
  i ← getattr (VRef item) "id";
  k ← hash i;
  on c (Items_setitem k item).

(** [try: inp = self.inp_*[inst_id]  except Exception: return]: whether
    the staged container is there. *)
Definition staged {V : Type} (d : gmap key V) (inst_id : value) : M bool :=
  try_except (_ ← dict_subscript d inst_id; mret true) (λ _, mret false).

Definition manage_initial_host_status_brok (b : Brok) : M unit :=
  let data := b_data b in
  hname ← data_get data "host_name";
  inst_id ← data_get data "instance_id";
  d ← self inp_hosts;
  ok ← staged d inst_id;
  if negb ok then mret tt
  else
    k ← hash inst_id;
    _ ← data_get data "id";
    host ← new Host;
    update_element (VRef host) data;;
    rebuild_downtimes_and_comments (VRef host);;
    stage (self_inp_hosts k) host;;
    _ ← get_name (VRef host);
    _ ← getattr (VRef host) "hostgroups";
    u ← getattr (VRef host) "uuid";
    inp ← self (coll_get (self_inp_hosts k));
    _ ← contains inp u;
    mret tt.

(** The end of the three group handlers: the members and the sub-groups. *)
Definition set_group_members (g : value) (sub_members : string) : M unit :=
  members ← getattr_d g "members" (VList []);
  setattr g "members" members;;
  sub_groups ← getattr_d g sub_members (VList []);
  first_empty ←
    (if truthy sub_groups then
       match sub_groups with
       | VList (x :: _) => mret (negb (truthy x))
       | VStr (String c _) => mret false
       | VDict _ => raise (KeyError "0")
       | _ => raise (TypeError "subscript")
       end
     else mret false);
  setattr g sub_members (if first_empty : bool then VList [] else sub_groups).

Definition manage_initial_hostgroup_status_brok (b : Brok) : M unit :=
  let data := b_data b in
  hgname ← data_get data "hostgroup_name";
  inst_id ← data_get data "instance_id";
  d ← self inp_hostgroups;
  ok ← staged d inst_id;
  if negb ok then mret tt
  else
    k ← hash inst_id;
    hg ← new Hostgroup;
    update_element (VRef hg) data;;
    stage (self_inp_hostgroups k) hg;;
    set_group_members (VRef hg) "hostgroup_members";;
    u ← getattr (VRef hg) "uuid";
    hgs ← self hostgroups;
    _ ← contains hgs u;
    mret tt.

Definition manage_initial_service_status_brok (b : Brok) : M unit :=
  let data := b_data b in
  hname ← data_get data "host_name";
  sdesc ← data_get data "service_description";
  inst_id ← data_get data "instance_id";
  d ← self inp_services;
  ok ← staged d inst_id;
  if negb ok then mret tt
  else
    k ← hash inst_id;
    _ ← data_get data "id";
    dn ← data_get data "display_name";
    let data := match dn with
                | VList _ => <["display_name" := sdesc]> data
                | _ => data
                end in
    service ← new Service;
    update_element (VRef service) data;;
    rebuild_downtimes_and_comments (VRef service);;
    stage (self_inp_services k) service;;
    u ← getattr (VRef service) "uuid";
    inp ← self (coll_get (self_inp_services k));
    _ ← contains inp u;
    mret tt.

Definition manage_initial_servicegroup_status_brok (b : Brok) : M unit :=
  let data := b_data b in
  sgname ← data_get data "servicegroup_name";
  inst_id ← data_get data "instance_id";
  d ← self inp_servicegroups;
  ok ← staged d inst_id;
  if negb ok then mret tt
  else
    k ← hash inst_id;
    sg ← new Servicegroup;
    update_element (VRef sg) data;;
    stage (self_inp_servicegroups k) sg;;
    set_group_members (VRef sg) "servicegroup_members";;
    u ← getattr (VRef sg) "uuid";
    sgs ← self servicegroups;
    _ ← contains sgs u;
    mret tt.

Definition manage_initial_contactgroup_status_brok (b : Brok) : M unit :=
  let data := b_data b in
  cgname ← data_get data "contactgroup_name";
  inst_id ← data_get data "instance_id";
  d ← self inp_contactgroups;
  ok ← staged d inst_id;
  if negb ok then mret tt
  else
    k ← hash inst_id;
    cg ← new Contactgroup;
    update_element (VRef cg) data;;
    stage (self_inp_contactgroups k) cg;;
    set_group_members (VRef cg) "contactgroup_members";;
    u ← getattr (VRef cg) "uuid";
    cgs ← self contactgroups;
    _ ← contains cgs u;
    mret tt.

(** Modelled from the spec: [Timerange(entry)] of shinken.daterange, the
    "canonical time-range representation (HH:MM-HH:MM interval)": the entry
    is matched against two digits, a colon, two digits, a dash, two digits,
    a colon and two digits; the object records whether it matched and the
    four numbers. *)
Definition digit (c : ascii) : option Z :=
  let n := Z.of_nat (nat_of_ascii c) in
  if (48 <=? n)%Z && (n <=? 57)%Z then Some (n - 48) else None.

Definition two_digits (a b : ascii) : option Z :=
  match digit a, digit b with
  | Some x, Some y => Some (10 * x + y)
  | _, _ => None
  end.

Definition Timerange_attrs (entry : string) : gmap string value :=
  match entry with
  | String a (String b (String ":" (String c (String d (String "-"
      (String e (String f (String ":" (String g (String h _)))))))))) =>
      match two_digits a b, two_digits c d, two_digits e f, two_digits g h with
      | Some hs, Some ms, Some he, Some me =>
          {[ "is_valid" := VBool true; "hstart" := VInt hs; "mstart" := VInt ms;
             "hend" := VInt he; "mend" := VInt me ]}
      | _, _, _, _ => {[ "is_valid" := VBool false ]}
      end
  | _ => {[ "is_valid" := VBool false ]}
  end.

Definition new_Timerange (entry : string) : M ref := λ w,
  let r := fresh (dom (heap w)) in
  (Ret r, with_heap (<[r := mkObject Timerange (Timerange_attrs entry)]> (heap w)) w).

(** The entry of a time range, which "may be a dictionary or an object":
    the dictionary first, the attributes when that raises [TypeError]. *)
Definition timerange_entry (tr : value) : M string :=
  try_except
    (a ← subscript tr "hstart"; b ← subscript tr "mstart";
     c ← subscript tr "hend"; d ← subscript tr "mend";
     fmt_timerange a b c d)
    (λ e, match e with
          | TypeError _ =>
              a ← getattr tr "hstart"; b ← getattr tr "mstart";
              c ← getattr tr "hend"; d ← getattr tr "mend";
              fmt_timerange a b c d
          | _ => raise e
          end).

Definition manage_initial_timeperiod_status_brok (b : Brok) : M unit :=
  let data := b_data b in
  tpname ← data_get data "timeperiod_name";
  inst_id ← data_get data "instance_id";
  tps ← self timeperiods;
  tp ← find_by_name tps tpname;
  match tp with
  | Some tp => update_element (VRef tp) data
  | None =>
      tp ← new Timeperiod;
      update_element (VRef tp) data;;
      drs ← getattr (VRef tp) "dateranges";
      l ← iter drs;
      new_drs ← foldM (λ new_drs dr,
          (* logger.warning: dr.__dict__ *)
          match dr with
          | VRef _ => mret tt
          | _ => raise (AttributeError "__dict__")
          end;;
          trs ← getattr dr "timeranges";
          lt ← iter trs;
          new_trs ← foldM (λ new_trs tr,
              entry ← timerange_entry tr;
              t ← new_Timerange entry;
              mret (new_trs ++ [VRef t])) lt [];
          setattr dr "timeranges" (VList new_trs);;
          mret (new_drs ++ [dr])) l [];
      setattr (VRef tp) "dateranges" (VList new_drs);;
      on self_timeperiods (Items_add_item tp);;
      _ ← get_name (VRef tp); mret tt
  end.

Definition manage_initial_command_status_brok (b : Brok) : M unit :=
  let data := b_data b in
  cname ← data_get data "command_name";
  inst_id ← data_get data "instance_id";
  cmds ← self commands;
  c ← find_by_name cmds cname;
  c ← match c with
      | Some c => update_element (VRef c) data;; mret c
      | None =>
          c ← new Command;
          update_element (VRef c) data;;
          on self_commands (Items_add_item c);;
          mret c
      end;
  _ ← get_name (VRef c); mret tt.

(** The linking of one notification way of a contact. *)
Definition linkify_notificationway (nw : value) : M unit :=
  linkify_commands nw "host_notification_commands";;
  linkify_commands nw "service_notification_commands";;
  linkify_a_timeperiod nw "host_notification_period";;
  linkify_a_timeperiod nw "service_notification_period".

Definition manage_initial_notificationway_status_brok (b : Brok) : M unit :=
  let data := b_data b in
  nw_name ← data_get data "notificationway_name";
  inst_id ← data_get data "instance_id";
  nws ← self notificationways;
  nw ← find_by_name nws nw_name;
  nw ← match nw with
       | Some nw => update_element (VRef nw) data;; mret nw
       | None =>
           nw ← new NotificationWay;
           update_element (VRef nw) data;;
           on self_notificationways (Items_add_item nw);;
           mret nw
       end;
  linkify_notificationway (VRef nw);;
  u ← getattr (VRef nw) "uuid";
  nws' ← self notificationways;
  _ ← contains nws' u;
  mret tt.

Definition manage_initial_contact_status_brok (b : Brok) : M unit :=
  let data := b_data b in
  cname ← data_get data "contact_name";
  inst_id ← data_get data "instance_id";
  cs ← self contacts;
  c ← find_by_name cs cname;
  c ← match c with
      | Some c => update_element (VRef c) data;; mret c
      | None =>
          c ← new Contact;
          update_element (VRef c) data;;
          on self_contacts (Items_add_item c);;
          mret c
      end;
  nws ← getattr (VRef c) "notificationways";
  let is_list := match nws with VList _ => true | _ => false end in
  if truthy nws && negb is_list then
    _ ← get_name (VRef c); mret tt
  else
    first_is_nw ←
      match nws with
      | VList (x :: _) => isinstance x NotificationWay
      | _ => mret false
      end;
    (if truthy nws && negb first_is_nw then
       l ← iter nws;
       new_notifways ← foldM (λ acc nw_uuid,
           known_nws ← self notificationways;
           known ← contains known_nws nw_uuid;
           if negb known then _ ← get_name (VRef c); mret acc
           else
             nw ← getitem known_nws nw_uuid;
             _ ← get_name (VRef c);
             linkify_notificationway (VRef nw);;
             mret (acc ++ [VRef nw])) l [];
       setattr (VRef c) "notificationways" (VList new_notifways)
     else
       l ← iter nws;
       new_notifways ← foldM (λ acc cnw,
           nwname ← get_name cnw;
           known_nws ← self notificationways;
           nw ← find_by_name known_nws nwname;
           nw ← match nw with
                | Some nw =>
                    for_each NotificationWay_properties (λ prop,
                      has ← hasattr cnw prop;
                      if has : bool then v ← getattr cnw prop; setattr (VRef nw) prop v
                      else mret tt);;
                    mret (Some nw)
                | None =>
                    match cnw with
                    | VRef r => on self_notificationways (Items_add_item r)
                    | _ => raise (AttributeError "id")
                    end;;
                    known_nws' ← self notificationways;
                    find_by_name known_nws' nwname
                end;
           linkify_notificationway (opt_value nw);;
           mret (acc ++ [opt_value nw])) l [];
       setattr (VRef c) "notificationways" (VList new_notifways));;
    u ← getattr (VRef c) "uuid";
    cs' ← self contacts;
    _ ← contains cs' u;
    mret tt.

(** The five handlers of the peer-daemon links: a new link, filed under its
    name. *)
Definition manage_initial_link_status (name_key : string) (c : class) (links : coll)
    (b : Brok) : M unit :=
  let data := b_data b in
  name ← data_get data name_key;
  link ← new c;
  update_element (VRef link) data;;
  k ← hash name;
  on links (Items_setitem k link).

Definition manage_initial_scheduler_status_brok : Brok → M unit :=
  manage_initial_link_status "scheduler_name" SchedulerLink self_schedulers.

Definition manage_initial_poller_status_brok : Brok → M unit :=
  manage_initial_link_status "poller_name" PollerLink self_pollers.

Definition manage_initial_reactionner_status_brok : Brok → M unit :=
  manage_initial_link_status "reactionner_name" ReactionnerLink self_reactionners.

Definition manage_initial_broker_status_brok : Brok → M unit :=
  manage_initial_link_status "broker_name" BrokerLink self_brokers.

Definition manage_initial_receiver_status_brok : Brok → M unit :=
  manage_initial_link_status "receiver_name" ReceiverLink self_receivers.

Definition manage_initial_broks_done_brok (b : Brok) : M unit :=
  inst_id ← data_get (b_data b) "instance_id";
  all_done_linking inst_id.

(** ** Brok management: the status updates *)

(** [self.from_q.put(msg)] *)
Definition put_message (msg : Message) : M unit :=
  assign (λ s, set_from_q (option_map (λ q, q ++ [msg]) (from_q s)) s).

Definition manage_update_program_status_brok (b : Brok) : M unit :=
  let data := b_data b in
  c_id ← data_get data "instance_id";
  cfgs ← self configs;
  if negb (in_keys c_id cfgs) then
    t ← time_time;
    last ← self last_need_data_send;
    q ← self from_q;
    if bool_decide (t - last > 60) && bool_decide (is_Some q) then
      put_message (mkMessage (if ALIGNAK then None else Some 0) "NeedData"
                     [("full_instance_id", c_id)] "WebUI");;
      t' ← time_time;
      assign (set_last_need_data_send t')
    else mret tt
  else
    c ← dict_subscript cfgs c_id;
    update_element (VRef c) data.

(** [for prop in clean_prop: del data[prop]] *)
Definition del_props (clean_prop : list string) (data : gmap string value)
  : M (gmap string value) :=
  foldM (λ d prop,
    match d !! prop with
    | Some _ => mret (delete prop d)
    | None => raise (KeyError prop)
    end) clean_prop data.

Definition manage_update_host_status_brok (b : Brok) : M unit :=
  let clean_prop := ["uuid"; "check_command"; "hostgroups";
                     "contacts"; "notification_period"; "contact_groups";
                     "check_period"; "event_handler";
                     "maintenance_period"; "realm"; "customs"; "escalations"] in
  toplogy_change ← data_get (b_data b) "topology_change";
  let clean_prop :=
    if negb (truthy toplogy_change)
    then clean_prop ++ ["parents"; "child_dependencies"; "parent_dependencies"]
    else clean_prop in
  data ← del_props clean_prop (b_data b);
  hname ← data_get data "host_name";
  hs ← self hosts;
  host ← find_by_name hs hname;
  match host with
  | None => mret tt
  | Some host =>
      let host := VRef host in
      before_after_hook b host;;
      update_element host data;;
      linkify_dict_srv_and_hosts host "impacts";;
      linkify_dict_srv_and_hosts host "source_problems";;
      (if truthy toplogy_change then
         _ ← get_name host;
         _ ← getattr host "parent_dependencies";
         linkify_host_and_hosts host "parents";;
         linkify_host_and_hosts host "childs";;
         linkify_dict_srv_and_hosts host "parent_dependencies";;
         linkify_dict_srv_and_hosts host "child_dependencies"
       else mret tt);;
      rebuild_downtimes_and_comments host
  end.

Definition manage_update_service_status_brok (b : Brok) : M unit :=
  let clean_prop := ["uuid"; "check_command"; "servicegroups";
                     "contacts"; "notification_period"; "contact_groups";
                     "check_period"; "event_handler";
                     "maintenance_period"; "customs"; "escalations"] in
  toplogy_change ← data_get (b_data b) "topology_change";
  let clean_prop :=
    if negb (truthy toplogy_change)
    then clean_prop ++ ["child_dependencies"; "parent_dependencies"]
    else clean_prop in
  data ← del_props clean_prop (b_data b);
  hname ← data_get data "host_name";
  sdesc ← data_get data "service_description";
  ss ← self services;
  service ← find_srv_by_name_and_hostname ss hname sdesc;
  match service with
  | None => mret tt
  | Some service =>
      let service := VRef service in
      before_after_hook b service;;
      update_element service data;;
      linkify_dict_srv_and_hosts service "impacts";;
      linkify_dict_srv_and_hosts service "source_problems";;
      (if truthy toplogy_change then
         linkify_dict_srv_and_hosts service "parent_dependencies";;
         linkify_dict_srv_and_hosts service "child_dependencies"
       else mret tt);;
      rebuild_downtimes_and_comments service
  end.

(** The five heartbeat handlers: the link is looked up by name and updated,
    every exception of the two steps is swallowed. *)
Definition manage_update_link_status (name_key : string) (links : coll) (b : Brok)
  : M unit :=
  let data := b_data b in
  name ← data_get data name_key;
  try_except
    (ls ← self (coll_get links);
     s ← getitem ls name;
     update_element (VRef s) data)
    (λ _, mret tt).

Definition manage_update_broker_status_brok : Brok → M unit :=
  manage_update_link_status "broker_name" self_brokers.

Definition manage_update_receiver_status_brok : Brok → M unit :=
  manage_update_link_status "receiver_name" self_receivers.

Definition manage_update_reactionner_status_brok : Brok → M unit :=
  manage_update_link_status "reactionner_name" self_reactionners.

Definition manage_update_poller_status_brok : Brok → M unit :=
  manage_update_link_status "poller_name" self_pollers.

Definition manage_update_scheduler_status_brok : Brok → M unit :=
  manage_update_link_status "scheduler_name" self_schedulers.

(** ** Check results and schedules *)

Definition manage_host_check_result_brok (b : Brok) : M unit :=
  let data := b_data b in
  hname ← data_get data "host_name";
  hs ← self hosts;
  h ← find_by_name hs hname;
  match h with
  | None => mret tt
  | Some h =>
      _ ← getattr (VRef h) "state";
      _ ← getattr (VRef h) "state_type";
      before_after_hook b (VRef h);;
      update_element (VRef h) data
  end.

Definition manage_host_next_schedule_brok (b : Brok) : M unit :=
  manage_host_check_result_brok b.

Definition manage_service_check_result_brok (b : Brok) : M unit :=
  let data := b_data b in
  hname ← data_get data "host_name";
  sdesc ← data_get data "service_description";
  ss ← self services;
  s ← find_srv_by_name_and_hostname ss hname sdesc;
  match s with
  | None => mret tt
  | Some s =>
      _ ← getattr (VRef s) "state";
      _ ← getattr (VRef s) "state_type";
      before_after_hook b (VRef s);;
      update_element (VRef s) data
  end.

Definition manage_service_next_schedule_brok (b : Brok) : M unit :=
  manage_service_check_result_brok b.

(** ** The dispatcher *)

Definition want_brok (b : Brok) : M bool :=
  sched ← self in_scheduler_mode;
  if sched : bool then
    mret (negb (bool_decide (b_type b ∈
      ["program_status";
       "initial_host_status"; "initial_hostgroup_status";
       "initial_service_status"; "initial_servicegroup_status";
       "initial_contact_status"; "initial_contactgroup_status";
       "initial_timeperiod_status"; "initial_command_status"])))
  else mret true.

(** [getattr(self, 'manage_' + brok.type + '_brok', None)]: the methods of
    the class with such a name. *)
Definition manager (type : string) : option (Brok → M unit) :=
  if String.eqb type "program_status" then Some manage_program_status_brok
  else if String.eqb type "initial_host_status" then Some manage_initial_host_status_brok
  else if String.eqb type "initial_hostgroup_status" then Some manage_initial_hostgroup_status_brok
  else if String.eqb type "initial_service_status" then Some manage_initial_service_status_brok
  else if String.eqb type "initial_servicegroup_status" then Some manage_initial_servicegroup_status_brok
  else if String.eqb type "initial_contact_status" then Some manage_initial_contact_status_brok
  else if String.eqb type "initial_contactgroup_status" then Some manage_initial_contactgroup_status_brok
  else if String.eqb type "initial_timeperiod_status" then Some manage_initial_timeperiod_status_brok
  else if String.eqb type "initial_command_status" then Some manage_initial_command_status_brok
  else if String.eqb type "initial_notificationway_status" then Some manage_initial_notificationway_status_brok
  else if String.eqb type "initial_scheduler_status" then Some manage_initial_scheduler_status_brok
  else if String.eqb type "initial_poller_status" then Some manage_initial_poller_status_brok
  else if String.eqb type "initial_reactionner_status" then Some manage_initial_reactionner_status_brok
  else if String.eqb type "initial_broker_status" then Some manage_initial_broker_status_brok
  else if String.eqb type "initial_receiver_status" then Some manage_initial_receiver_status_brok
  else if String.eqb type "initial_broks_done" then Some manage_initial_broks_done_brok
  else if String.eqb type "update_program_status" then Some manage_update_program_status_brok
  else if String.eqb type "update_host_status" then Some manage_update_host_status_brok
  else if String.eqb type "update_service_status" then Some manage_update_service_status_brok
  else if String.eqb type "update_broker_status" then Some manage_update_broker_status_brok
  else if String.eqb type "update_receiver_status" then Some manage_update_receiver_status_brok
  else if String.eqb type "update_reactionner_status" then Some manage_update_reactionner_status_brok
  else if String.eqb type "update_poller_status" then Some manage_update_poller_status_brok
  else if String.eqb type "update_scheduler_status" then Some manage_update_scheduler_status_brok
  else if String.eqb type "host_check_result" then Some manage_host_check_result_brok
  else if String.eqb type "host_next_schedule" then Some manage_host_next_schedule_brok
  else if String.eqb type "service_check_result" then Some manage_service_check_result_brok
  else if String.eqb type "service_next_schedule" then Some manage_service_next_schedule_brok
  else None.

(** The identifier logic of [manage_brok], on the brok and on its data:
    "Shinken uses id as a brok identifier whereas Alignak uses uuid". *)
Definition data_truthy (data : gmap string value) (k : string) : bool :=
  truthy (default VNone (data !! k)).

Definition normalize_identifiers (b : Brok) : M Brok :=
  let '(b_id', b_uuid') :=
    if truthy (default VNone (b_id b)) then (b_id b, b_id b)
    else if truthy (default VNone (b_uuid b)) then (b_uuid b, b_uuid b)
    else (b_id b, b_uuid b) in
  let data := b_data b in
  let data :=
    if data_truthy data "id" then <["uuid" := default VNone (data !! "id")]> data
    else if data_truthy data "uuid" then <["id" := default VNone (data !! "uuid")]> data
    else data in
  match default VNone (data !! "id") with
  | VNone =>
      u ← uuid_uuid4;
      mret (mkBrok (b_type b) b_id' b_uuid'
              (<["id" := VStr u]> (<["uuid" := VStr u]> data)))
  | _ => mret (mkBrok (b_type b) b_id' b_uuid' data)
  end.

(** [manage_brok]: "Look for a manager function for a brok, and call it".
    The result [rc] is bound only when the manager returns. *)
Definition manage_brok (brok : Brok) : M unit :=
  match manager (b_type brok) with
  | None => mret tt
  | Some manage =>
      want ← want_brok brok;
      if negb want then mret tt
      else
        brok ← normalize_identifiers brok;
        rc ← try_except (rc ← manage brok; mret (Some rc)) (λ exp, mret None);
        match rc with
        | Some rc => mret rc
        | None => raise (UnboundLocalError "rc")
        end
  end.

(** * Reasoning about handlers *)

(** A handler respects a relation between worlds when every run, returning
    or raising, leaves a world related to the one it started in. *)
Definition respects (R : World → World → Prop) {A : Type} (m : M A) : Prop :=
  ∀ w, R w (m w).2.

(** Nothing changes. *)
Definition unchanged : World → World → Prop := λ w w', w' = w.

Section Respects.

Variable R : World → World → Prop.
Hypothesis R_refl : ∀ w, R w w.
Hypothesis R_trans : ∀ a b c, R a b → R b c → R a c.

Lemma respects_unchanged {A : Type} (m : M A) :
  respects unchanged m → respects R m.
Proof. intros H w. rewrite (H w). apply R_refl. Qed.

Lemma respects_ret {A : Type} (a : A) : respects R (mret a : M A).
Proof. intros w. apply R_refl. Qed.

Lemma respects_raise {A : Type} (e : exn) : respects R (raise e : M A).
Proof. intros w. apply R_refl. Qed.

Lemma respects_bind {A B : Type} (m : M A) (k : A → M B) :
  respects R m → (∀ a, respects R (k a)) → respects R (m ≫= k).
Proof.
  intros Hm Hk w. unfold mbind, M_bind.
  specialize (Hm w). destruct (m w) as [[a|e] w1]; simpl in *.
  - eapply R_trans; [exact Hm | apply Hk].
  - exact Hm.
Qed.

Lemma respects_try_except {A : Type} (m : M A) (h : exn → M A) :
  respects R m → (∀ e, respects R (h e)) → respects R (try_except m h).
Proof.
  intros Hm Hh w. unfold try_except.
  specialize (Hm w). destruct (m w) as [[a|e] w1]; simpl in *.
  - exact Hm.
  - eapply R_trans; [exact Hm | apply Hh].
Qed.

Lemma respects_foldM {A B : Type} (f : B → A → M B) (l : list A) (b : B) :
  (∀ b x, respects R (f b x)) → respects R (foldM f l b).
Proof.
  intros Hf. revert b. induction l as [|x l IH]; intros b; simpl.
  - apply respects_ret.
  - apply respects_bind; [apply Hf | intros b'; apply IH].
Qed.

Lemma respects_for_each {A : Type} (l : list A) (body : A → M unit) :
  (∀ x, respects R (body x)) → respects R (for_each l body).
Proof. intros H. apply respects_foldM. intros _ x. apply H. Qed.

Lemma respects_find_first {A : Type} (p : A → M bool) (l : list A) :
  (∀ x, respects R (p x)) → respects R (find_first p l).
Proof.
  intros Hp. induction l as [|x l IH]; simpl.
  - apply respects_ret.
  - apply respects_bind; [apply Hp | intros [|]; [apply respects_ret | apply IH]].
Qed.

Lemma respects_filterM {A : Type} (p : A → M bool) (l : list A) :
  (∀ x, respects R (p x)) → respects R (filterM p l).
Proof.
  intros Hp. induction l as [|x l IH]; simpl.
  - apply respects_ret.
  - apply respects_bind; [apply Hp | intros b].
    apply respects_bind; [apply IH | intros rest; apply respects_ret].
Qed.

End Respects.

Lemma unchanged_refl (w : World) : unchanged w w.
Proof. reflexivity. Qed.

Lemma unchanged_trans (a b c : World) : unchanged a b → unchanged b c → unchanged a c.
Proof. unfold unchanged. congruence. Qed.

(** One step of a proof that a piece of code respects a relation: the
    structure of the code is followed, [prim] settles the operations that
    write (assignments, container methods, [setattr], constructors). *)
Ltac respects_struct refl trans :=
  lazymatch goal with
  | |- respects _ (mret _) => apply (respects_ret _ refl)
  | |- respects _ (raise _) => apply (respects_raise _ refl)
  | |- respects _ (mbind _ _) => apply (respects_bind _ trans); [|intros ?]
  | |- respects _ (try_except _ _) => apply (respects_try_except _ trans); [|intros ?]
  | |- respects _ (foldM _ _ _) => apply (respects_foldM _ refl trans); intros ? ?
  | |- respects _ (for_each _ _) => apply (respects_for_each _ refl trans); intros ?
  | |- respects _ (find_first _ _) => apply (respects_find_first _ refl trans); intros ?
  | |- respects _ (filterM _ _) => apply (respects_filterM _ refl trans); intros ?
  end.

Ltac respects_case :=
  match goal with
  | |- respects _ (match ?x with _ => _ end) => destruct x
  | |- respects _ (let (_, _) := ?x in _) => destruct x
  end.

(** Operations that only read. *)
Ltac reads_only :=
  intros w;
  repeat match goal with
         | |- context [match ?x with _ => _ end] => destruct x
         end;
  reflexivity.

Lemma unchanged_getattr o a : respects unchanged (getattr o a).
Proof. unfold getattr. reads_only. Qed.

Lemma unchanged_getattr_d o a d : respects unchanged (getattr_d o a d).
Proof. unfold getattr_d. reads_only. Qed.

Lemma unchanged_hasattr o a : respects unchanged (hasattr o a).
Proof. unfold hasattr. reads_only. Qed.

Lemma unchanged_isinstance o c : respects unchanged (isinstance o c).
Proof. unfold isinstance. reads_only. Qed.

Lemma unchanged_self {A : Type} (f : Regenerator → A) : respects unchanged (self f).
Proof. intros w. reflexivity. Qed.

Lemma unchanged_time_time : respects unchanged time_time.
Proof. intros w. reflexivity. Qed.

Lemma unchanged_uuid_uuid4 : respects unchanged uuid_uuid4.
Proof. intros w. reflexivity. Qed.

Lemma unchanged_get_name o : respects unchanged (get_name o).
Proof.
  intros w. destruct o; try reflexivity. unfold get_name.
  destruct (class_of (heap w) r);
    first [apply unchanged_getattr | apply unchanged_getattr_d | reflexivity].
Qed.

Create HintDb reads discriminated.

Hint Resolve unchanged_getattr unchanged_getattr_d unchanged_hasattr
  unchanged_isinstance unchanged_self unchanged_time_time unchanged_uuid_uuid4
  unchanged_get_name : reads.

(** Code built from reading operations only. *)
Ltac reads :=
  repeat first
    [ respects_struct unchanged_refl unchanged_trans
    | solve [auto 1 with reads nocore]
    | respects_case ].

Lemma unchanged_data_get data k : respects unchanged (data_get data k).
Proof. unfold data_get. reads. Qed.

Lemma unchanged_hash v : respects unchanged (hash v).
Proof. unfold hash. reads. Qed.

Lemma unchanged_iter v : respects unchanged (iter v).
Proof. unfold iter. reads. Qed.

Hint Resolve unchanged_data_get unchanged_hash unchanged_iter : reads.

Lemma unchanged_unpack2 v : respects unchanged (unpack2 v).
Proof. unfold unpack2. reads. Qed.

Lemma unchanged_len v : respects unchanged (len v).
Proof. unfold len. reads. Qed.

Lemma unchanged_as_number v : respects unchanged (as_number v).
Proof. unfold as_number. reads. Qed.

Lemma unchanged_split v sep : respects unchanged (split v sep).
Proof. unfold split. reads. Qed.

Lemma unchanged_py_in x v : respects unchanged (py_in x v).
Proof. unfold py_in. reads. Qed.

Lemma unchanged_subscript v k : respects unchanged (subscript v k).
Proof. unfold subscript. reads. Qed.

Hint Resolve unchanged_unpack2 unchanged_len unchanged_as_number unchanged_split
  unchanged_py_in unchanged_subscript : reads.

Lemma unchanged_fmt_timerange a b c d : respects unchanged (fmt_timerange a b c d).
Proof. unfold fmt_timerange. reads. Qed.

Lemma unchanged_find_by_name it name : respects unchanged (find_by_name it name).
Proof. unfold find_by_name. reads. Qed.

Lemma unchanged_find_srv it a b :
  respects unchanged (find_srv_by_name_and_hostname it a b).
Proof. unfold find_srv_by_name_and_hostname. reads. Qed.

Lemma unchanged_contains it k : respects unchanged (contains it k).
Proof. unfold contains. reads. Qed.

Lemma unchanged_getitem it k : respects unchanged (getitem it k).
Proof. unfold getitem. reads. Qed.

Lemma unchanged_dict_subscript {V : Type} (d : gmap key V) k :
  respects unchanged (dict_subscript d k).
Proof. unfold dict_subscript. reads. Qed.

Hint Resolve unchanged_fmt_timerange unchanged_find_by_name unchanged_find_srv
  unchanged_contains unchanged_getitem unchanged_dict_subscript : reads.

Lemma unchanged_find_by_uuid it u : respects unchanged (find_by_uuid it u).
Proof. unfold find_by_uuid. reads. Qed.

Lemma unchanged_find_service_by_name h sdesc :
  respects unchanged (find_service_by_name h sdesc).
Proof. unfold find_service_by_name. reads. Qed.

Lemma unchanged_del_props props data : respects unchanged (del_props props data).
Proof. unfold del_props. reads. Qed.

Lemma unchanged_staged {V : Type} (d : gmap key V) inst_id :
  respects unchanged (staged d inst_id).
Proof. unfold staged. reads. Qed.

Lemma unchanged_load_staging inst_id : respects unchanged (load_staging inst_id).
Proof. unfold load_staging. reads. Qed.

Lemma unchanged_timerange_entry tr : respects unchanged (timerange_entry tr).
Proof. unfold timerange_entry. reads. Qed.

Lemma unchanged_want_brok b : respects unchanged (want_brok b).
Proof. unfold want_brok. reads. Qed.

Lemma unchanged_normalize_identifiers b :
  respects unchanged (normalize_identifiers b).
Proof. unfold normalize_identifiers. reads. Qed.

Lemma unchanged_before_after_hook b o : respects unchanged (before_after_hook b o).
Proof. unfold before_after_hook. reads. Qed.

Hint Resolve unchanged_find_by_uuid unchanged_find_service_by_name
  unchanged_del_props unchanged_staged unchanged_load_staging
  unchanged_timerange_entry unchanged_want_brok unchanged_normalize_identifiers
  unchanged_before_after_hook : reads.

(** The code of the regenerator, for the proofs that follow its structure. *)
Create HintDb code discriminated.

Hint Unfold append_attr remove_attr update_element
  linkify_a_command linkify_commands linkify_a_timeperiod
  linkify_a_timeperiod_by_name linkify_contacts linkify_dict_srv_and_hosts
  linkify_host_and_hosts linkify_service_and_services linkify_notificationway
  merge_group link_timeperiods link_contactgroups link_hostgroups link_host
  link_servicegroups link_service_with_host link_service link_realms
  link_impacts clean_staging link_pass all_done_linking
  rebuild_downtimes_and_comments stage set_group_members put_message
  manage_initial_link_status manage_update_link_status : code.

Ltac respects_with refl trans prim :=
  repeat first
    [ respects_struct refl trans
    | apply (respects_unchanged _ refl); solve [auto 1 with reads nocore]
    | prim
    | respects_case
    | progress autounfold with code ].

(** ** The tag counters only grow *)

(** The counters of one dictionary: every tag counted before is still
    counted, and not less. *)
Definition count (d : gmap key Z) (t : key) : Z := default 0 (d !! t).

Definition counts_le (d d' : gmap key Z) : Prop :=
  ∀ t : key, (is_Some (d !! t) → is_Some (d' !! t)) ∧ (count d t ≤ count d' t)%Z.

Definition tags_grow (w w' : World) : Prop :=
  counts_le (tags (rg w)) (tags (rg w')) ∧
  counts_le (services_tags (rg w)) (services_tags (rg w')).

Lemma counts_le_refl (d : gmap key Z) : counts_le d d.
Proof. intros t. split; [tauto | lia]. Qed.

Lemma counts_le_trans (a b c : gmap key Z) :
  counts_le a b → counts_le b c → counts_le a c.
Proof.
  intros Hab Hbc t. destruct (Hab t) as [H1 H2]. destruct (Hbc t) as [H3 H4].
  split; [tauto | lia].
Qed.

Lemma count_count_tag (d : gmap key Z) (t t' : key) :
  count (count_tag d t) t' = if decide (t = t') then (count d t' + 1)%Z else count d t'.
Proof.
  unfold count, count_tag. destruct (decide (t = t')) as [->|Hne].
  - rewrite lookup_insert_eq. reflexivity.
  - rewrite lookup_insert_ne by done. reflexivity.
Qed.

Lemma counts_le_count_tag (d : gmap key Z) (t : key) : counts_le d (count_tag d t).
Proof.
  intros t'. split.
  - unfold count_tag. destruct (decide (t = t')) as [->|Hne].
    + rewrite lookup_insert_eq. eauto.
    + rewrite lookup_insert_ne by done. tauto.
  - rewrite count_count_tag. destruct (decide (t = t')); lia.
Qed.

Lemma tags_grow_refl (w : World) : tags_grow w w.
Proof. split; apply counts_le_refl. Qed.

Lemma tags_grow_trans (a b c : World) : tags_grow a b → tags_grow b c → tags_grow a c.
Proof. intros [H1 H2] [H3 H4]. split; eapply counts_le_trans; eassumption. Qed.

Lemma tags_grow_setattr o a v : respects tags_grow (setattr o a v).
Proof. intros w. destruct o; simpl; split; apply counts_le_refl. Qed.

Lemma tags_grow_new c : respects tags_grow (new c).
Proof. intros w. simpl. split; apply counts_le_refl. Qed.

Lemma tags_grow_new_Timerange e : respects tags_grow (new_Timerange e).
Proof. intros w. simpl. split; apply counts_le_refl. Qed.

Lemma tags_grow_on {A : Type} (c : coll)
    (op : gmap positive object → Items → result A * Items) :
  respects tags_grow (on c op).
Proof.
  intros w. unfold on. destruct (op (heap w) (coll_get c (rg w))) as [r it].
  destruct c; simpl; split; apply counts_le_refl.
Qed.

Lemma tags_grow_assign (f : Regenerator → Regenerator) :
  (∀ s, counts_le (tags s) (tags (f s)) ∧
        counts_le (services_tags s) (services_tags (f s))) →
  respects tags_grow (assign f).
Proof. intros H w. apply H. Qed.

Create HintDb tags discriminated.

Hint Resolve tags_grow_setattr tags_grow_new tags_grow_new_Timerange
  tags_grow_on : tags.

Ltac tags_prim :=
  first
    [ solve [auto 1 with tags nocore]
    | apply tags_grow_assign; intros ?; simpl; split;
      first [apply counts_le_refl | apply counts_le_count_tag] ].

Ltac tags_auto :=
  repeat first
    [ respects_struct tags_grow_refl tags_grow_trans
    | apply (respects_unchanged _ tags_grow_refl); solve [auto 1 with reads nocore]
    | tags_prim
    | respects_case ].

Lemma tags_grow_append_attr o a x :
  respects tags_grow (append_attr o a x).
Proof. unfold append_attr. tags_auto. Qed.

Hint Resolve tags_grow_append_attr : tags.

Lemma tags_grow_remove_attr o a x :
  respects tags_grow (remove_attr o a x).
Proof. unfold remove_attr. tags_auto. Qed.

Hint Resolve tags_grow_remove_attr : tags.

Lemma tags_grow_update_element e data :
  respects tags_grow (update_element e data).
Proof. unfold update_element. tags_auto. Qed.

Hint Resolve tags_grow_update_element : tags.

Lemma tags_grow_linkify_a_command o prop :
  respects tags_grow (linkify_a_command o prop).
Proof. unfold linkify_a_command. tags_auto. Qed.

Hint Resolve tags_grow_linkify_a_command : tags.

Lemma tags_grow_linkify_commands o prop :
  respects tags_grow (linkify_commands o prop).
Proof. unfold linkify_commands. tags_auto. Qed.

Hint Resolve tags_grow_linkify_commands : tags.

Lemma tags_grow_linkify_a_timeperiod o prop :
  respects tags_grow (linkify_a_timeperiod o prop).
Proof. unfold linkify_a_timeperiod. tags_auto. Qed.

Hint Resolve tags_grow_linkify_a_timeperiod : tags.

Lemma tags_grow_linkify_a_timeperiod_by_name o prop :
  respects tags_grow (linkify_a_timeperiod_by_name o prop).
Proof. unfold linkify_a_timeperiod_by_name. tags_auto. Qed.

Hint Resolve tags_grow_linkify_a_timeperiod_by_name : tags.

Lemma tags_grow_linkify_contacts o prop :
  respects tags_grow (linkify_contacts o prop).
Proof. unfold linkify_contacts. tags_auto. Qed.

Hint Resolve tags_grow_linkify_contacts : tags.

Lemma tags_grow_linkify_dict_srv_and_hosts o prop :
  respects tags_grow (linkify_dict_srv_and_hosts o prop).
Proof. unfold linkify_dict_srv_and_hosts. tags_auto. Qed.

Hint Resolve tags_grow_linkify_dict_srv_and_hosts : tags.

Lemma tags_grow_linkify_host_and_hosts o prop :
  respects tags_grow (linkify_host_and_hosts o prop).
Proof. unfold linkify_host_and_hosts. tags_auto. Qed.

Hint Resolve tags_grow_linkify_host_and_hosts : tags.

Lemma tags_grow_linkify_service_and_services o prop :
  respects tags_grow (linkify_service_and_services o prop).
Proof. unfold linkify_service_and_services. tags_auto. Qed.

Hint Resolve tags_grow_linkify_service_and_services : tags.

Lemma tags_grow_linkify_notificationway nw :
  respects tags_grow (linkify_notificationway nw).
Proof. unfold linkify_notificationway. tags_auto. Qed.

Hint Resolve tags_grow_linkify_notificationway : tags.

Lemma tags_grow_merge_group c sub g :
  respects tags_grow (merge_group c sub g).
Proof. unfold merge_group. tags_auto. Qed.

Hint Resolve tags_grow_merge_group : tags.

Lemma tags_grow_link_timeperiods  :
  respects tags_grow (link_timeperiods ).
Proof. unfold link_timeperiods. tags_auto. Qed.

Hint Resolve tags_grow_link_timeperiods : tags.

Lemma tags_grow_link_contactgroups icg :
  respects tags_grow (link_contactgroups icg).
Proof. unfold link_contactgroups. tags_auto. Qed.

Hint Resolve tags_grow_link_contactgroups : tags.

Lemma tags_grow_link_hostgroups ih ihg :
  respects tags_grow (link_hostgroups ih ihg).
Proof. unfold link_hostgroups. tags_auto. Qed.

Hint Resolve tags_grow_link_hostgroups : tags.

Lemma tags_grow_link_host h :
  respects tags_grow (link_host h).
Proof. unfold link_host. tags_auto. Qed.

Hint Resolve tags_grow_link_host : tags.

Lemma tags_grow_link_servicegroups isv isg :
  respects tags_grow (link_servicegroups isv isg).
Proof. unfold link_servicegroups. tags_auto. Qed.

Hint Resolve tags_grow_link_servicegroups : tags.

Lemma tags_grow_link_service_with_host x :
  respects tags_grow (link_service_with_host x).
Proof. unfold link_service_with_host. tags_auto. Qed.

Hint Resolve tags_grow_link_service_with_host : tags.

Lemma tags_grow_link_service x :
  respects tags_grow (link_service x).
Proof. unfold link_service. tags_auto. Qed.

Hint Resolve tags_grow_link_service : tags.

Lemma tags_grow_link_realms ih :
  respects tags_grow (link_realms ih).
Proof. unfold link_realms. tags_auto. Qed.

Hint Resolve tags_grow_link_realms : tags.

Lemma tags_grow_link_impacts ih isv :
  respects tags_grow (link_impacts ih isv).
Proof. unfold link_impacts. tags_auto. Qed.

Hint Resolve tags_grow_link_impacts : tags.

Lemma tags_grow_clean_staging i :
  respects tags_grow (clean_staging i).
Proof. unfold clean_staging. tags_auto. Qed.

Hint Resolve tags_grow_clean_staging : tags.

Lemma tags_grow_link_pass i a b c d e :
  respects tags_grow (link_pass i a b c d e).
Proof. unfold link_pass. tags_auto. Qed.

Hint Resolve tags_grow_link_pass : tags.

Lemma tags_grow_all_done_linking i :
  respects tags_grow (all_done_linking i).
Proof. unfold all_done_linking. tags_auto. Qed.

Hint Resolve tags_grow_all_done_linking : tags.

Lemma tags_grow_rebuild_downtimes_and_comments o :
  respects tags_grow (rebuild_downtimes_and_comments o).
Proof. unfold rebuild_downtimes_and_comments. tags_auto. Qed.

Hint Resolve tags_grow_rebuild_downtimes_and_comments : tags.

Lemma tags_grow_stage c item :
  respects tags_grow (stage c item).
Proof. unfold stage. tags_auto. Qed.

Hint Resolve tags_grow_stage : tags.

Lemma tags_grow_set_group_members g sub :
  respects tags_grow (set_group_members g sub).
Proof. unfold set_group_members. tags_auto. Qed.

Hint Resolve tags_grow_set_group_members : tags.

Lemma tags_grow_put_message msg :
  respects tags_grow (put_message msg).
Proof. unfold put_message. tags_auto. Qed.

Hint Resolve tags_grow_put_message : tags.

Lemma tags_grow_manage_initial_link_status n c l b :
  respects tags_grow (manage_initial_link_status n c l b).
Proof. unfold manage_initial_link_status. tags_auto. Qed.

Hint Resolve tags_grow_manage_initial_link_status : tags.

Lemma tags_grow_manage_update_link_status n l b :
  respects tags_grow (manage_update_link_status n l b).
Proof. unfold manage_update_link_status. tags_auto. Qed.

Hint Resolve tags_grow_manage_update_link_status : tags.

Ltac tags_handler := tags_auto.

Lemma tags_grow_program_status b : respects tags_grow (manage_program_status_brok b).
Proof. unfold manage_program_status_brok. tags_handler. Qed.

Hint Resolve tags_grow_program_status : tags.

Lemma tags_grow_initial_host_status b : respects tags_grow (manage_initial_host_status_brok b).
Proof. unfold manage_initial_host_status_brok. tags_handler. Qed.

Hint Resolve tags_grow_initial_host_status : tags.

Lemma tags_grow_initial_hostgroup_status b : respects tags_grow (manage_initial_hostgroup_status_brok b).
Proof. unfold manage_initial_hostgroup_status_brok. tags_handler. Qed.

Hint Resolve tags_grow_initial_hostgroup_status : tags.

Lemma tags_grow_initial_service_status b : respects tags_grow (manage_initial_service_status_brok b).
Proof. unfold manage_initial_service_status_brok. tags_handler. Qed.

Hint Resolve tags_grow_initial_service_status : tags.

Lemma tags_grow_initial_servicegroup_status b : respects tags_grow (manage_initial_servicegroup_status_brok b).
Proof. unfold manage_initial_servicegroup_status_brok. tags_handler. Qed.

Hint Resolve tags_grow_initial_servicegroup_status : tags.

Lemma tags_grow_initial_contact_status b : respects tags_grow (manage_initial_contact_status_brok b).
Proof. unfold manage_initial_contact_status_brok. tags_handler. Qed.

Hint Resolve tags_grow_initial_contact_status : tags.

Lemma tags_grow_initial_contactgroup_status b : respects tags_grow (manage_initial_contactgroup_status_brok b).
Proof. unfold manage_initial_contactgroup_status_brok. tags_handler. Qed.

Hint Resolve tags_grow_initial_contactgroup_status : tags.

Lemma tags_grow_initial_timeperiod_status b : respects tags_grow (manage_initial_timeperiod_status_brok b).
Proof. unfold manage_initial_timeperiod_status_brok. tags_handler. Qed.

Hint Resolve tags_grow_initial_timeperiod_status : tags.

Lemma tags_grow_initial_command_status b : respects tags_grow (manage_initial_command_status_brok b).
Proof. unfold manage_initial_command_status_brok. tags_handler. Qed.

Hint Resolve tags_grow_initial_command_status : tags.

Lemma tags_grow_initial_notificationway_status b : respects tags_grow (manage_initial_notificationway_status_brok b).
Proof. unfold manage_initial_notificationway_status_brok. tags_handler. Qed.

Hint Resolve tags_grow_initial_notificationway_status : tags.

Lemma tags_grow_initial_scheduler_status b : respects tags_grow (manage_initial_scheduler_status_brok b).
Proof. unfold manage_initial_scheduler_status_brok. tags_handler. Qed.

Hint Resolve tags_grow_initial_scheduler_status : tags.

Lemma tags_grow_initial_poller_status b : respects tags_grow (manage_initial_poller_status_brok b).
Proof. unfold manage_initial_poller_status_brok. tags_handler. Qed.

Hint Resolve tags_grow_initial_poller_status : tags.

Lemma tags_grow_initial_reactionner_status b : respects tags_grow (manage_initial_reactionner_status_brok b).
Proof. unfold manage_initial_reactionner_status_brok. tags_handler. Qed.

Hint Resolve tags_grow_initial_reactionner_status : tags.

Lemma tags_grow_initial_broker_status b : respects tags_grow (manage_initial_broker_status_brok b).
Proof. unfold manage_initial_broker_status_brok. tags_handler. Qed.

Hint Resolve tags_grow_initial_broker_status : tags.

Lemma tags_grow_initial_receiver_status b : respects tags_grow (manage_initial_receiver_status_brok b).
Proof. unfold manage_initial_receiver_status_brok. tags_handler. Qed.

Hint Resolve tags_grow_initial_receiver_status : tags.

Lemma tags_grow_initial_broks_done b : respects tags_grow (manage_initial_broks_done_brok b).
Proof. unfold manage_initial_broks_done_brok. tags_handler. Qed.

Hint Resolve tags_grow_initial_broks_done : tags.

Lemma tags_grow_update_program_status b : respects tags_grow (manage_update_program_status_brok b).
Proof. unfold manage_update_program_status_brok. tags_handler. Qed.

Hint Resolve tags_grow_update_program_status : tags.

Lemma tags_grow_update_host_status b : respects tags_grow (manage_update_host_status_brok b).
Proof. unfold manage_update_host_status_brok. tags_handler. Qed.

Hint Resolve tags_grow_update_host_status : tags.

Lemma tags_grow_update_service_status b : respects tags_grow (manage_update_service_status_brok b).
Proof. unfold manage_update_service_status_brok. tags_handler. Qed.

Hint Resolve tags_grow_update_service_status : tags.

Lemma tags_grow_update_broker_status b : respects tags_grow (manage_update_broker_status_brok b).
Proof. unfold manage_update_broker_status_brok. tags_handler. Qed.

Hint Resolve tags_grow_update_broker_status : tags.

Lemma tags_grow_update_receiver_status b : respects tags_grow (manage_update_receiver_status_brok b).
Proof. unfold manage_update_receiver_status_brok. tags_handler. Qed.

Hint Resolve tags_grow_update_receiver_status : tags.

Lemma tags_grow_update_reactionner_status b : respects tags_grow (manage_update_reactionner_status_brok b).
Proof. unfold manage_update_reactionner_status_brok. tags_handler. Qed.

Hint Resolve tags_grow_update_reactionner_status : tags.

Lemma tags_grow_update_poller_status b : respects tags_grow (manage_update_poller_status_brok b).
Proof. unfold manage_update_poller_status_brok. tags_handler. Qed.

Hint Resolve tags_grow_update_poller_status : tags.

Lemma tags_grow_update_scheduler_status b : respects tags_grow (manage_update_scheduler_status_brok b).
Proof. unfold manage_update_scheduler_status_brok. tags_handler. Qed.

Hint Resolve tags_grow_update_scheduler_status : tags.

Lemma tags_grow_host_check_result b : respects tags_grow (manage_host_check_result_brok b).
Proof. unfold manage_host_check_result_brok. tags_handler. Qed.

Hint Resolve tags_grow_host_check_result : tags.

Lemma tags_grow_host_next_schedule b : respects tags_grow (manage_host_next_schedule_brok b).
Proof. unfold manage_host_next_schedule_brok. unfold manage_host_check_result_brok. tags_handler. Qed.

Hint Resolve tags_grow_host_next_schedule : tags.

Lemma tags_grow_service_check_result b : respects tags_grow (manage_service_check_result_brok b).
Proof. unfold manage_service_check_result_brok. tags_handler. Qed.

Hint Resolve tags_grow_service_check_result : tags.

Lemma tags_grow_service_next_schedule b : respects tags_grow (manage_service_next_schedule_brok b).
Proof. unfold manage_service_next_schedule_brok. unfold manage_service_check_result_brok. tags_handler. Qed.

Hint Resolve tags_grow_service_next_schedule : tags.

Lemma tags_grow_manager type manage b :
  manager type = Some manage → respects tags_grow (manage b).
Proof.
  unfold manager.
  repeat lazymatch goal with
         | |- (if ?c then _ else _) = _ → _ =>
             destruct c; [intros [= <-]; solve [auto 1 with tags nocore]|]
         end.
  discriminate.
Qed.

Lemma tags_grow_manage_brok brok : respects tags_grow (manage_brok brok).
Proof.
  unfold manage_brok.
  destruct (manager (b_type brok)) as [manage|] eqn:Hm; [|tags_handler].
  repeat first
    [ respects_struct tags_grow_refl tags_grow_trans
    | apply (respects_unchanged _ tags_grow_refl); solve [auto 1 with reads nocore]
    | eapply tags_grow_manager; eassumption
    | respects_case ].
Qed.

(** ** Running a handler *)

Lemma bind_run {A B : Type} (m : M A) (k : A → M B) (w : World) :
  (m ≫= k) w =
  match m w with
  | (Ret a, w') => k a w'
  | (Raise e, w') => (Raise e, w')
  end.
Proof. reflexivity. Qed.

Lemma ret_run {A : Type} (a : A) (w : World) : (mret a : M A) w = (Ret a, w).
Proof. reflexivity. Qed.

Lemma raise_run {A : Type} (e : exn) (w : World) : (raise e : M A) w = (Raise e, w).
Proof. reflexivity. Qed.

Lemma self_run {A : Type} (f : Regenerator → A) (w : World) :
  self f w = (Ret (f (rg w)), w).
Proof. reflexivity. Qed.

Ltac run :=
  repeat (first [rewrite bind_run | rewrite ret_run | rewrite raise_run
                | rewrite self_run]; simpl).

Lemma bind_Ret_inv {A B : Type} (m : M A) (k : A → M B) (w w' : World) (b : B) :
  (m ≫= k) w = (Ret b, w') →
  ∃ a w1, m w = (Ret a, w1) ∧ k a w1 = (Ret b, w').
Proof.
  rewrite bind_run. destruct (m w) as [[a|e] w1]; [|discriminate].
  intros H. exists a, w1. split; [reflexivity | exact H].
Qed.

(** A reading operation leaves the world as it is, whatever it answers. *)
Lemma unchanged_run {A : Type} (m : M A) (w : World) :
  respects unchanged m → m w = ((m w).1, w).
Proof. intros H. specialize (H w). red in H. destruct (m w) as [r w']. simpl in *. congruence. Qed.

(** ** The linker bails out without side effects *)

Lemma in_keys_spec {V : Type} (k : value) (d : gmap key V) :
  in_keys k d = true ↔ ∃ k', to_key k = Some k' ∧ is_Some (d !! k').
Proof.
  unfold in_keys. destruct (to_key k) as [k'|].
  - rewrite bool_decide_eq_true. split; [eauto | intros (? & [= <-] & ?); done].
  - split; [discriminate | intros (? & [=] & _)].
Qed.

Lemma dict_subscript_None {V : Type} (d : gmap key V) (i : value) (k : key) (w : World) :
  to_key i = Some k → d !! k = None →
  dict_subscript d i w = (Raise (KeyError "key"), w).
Proof.
  intros Hk Hd. unfold dict_subscript, hash. rewrite Hk, bind_run. simpl.
  rewrite Hd. reflexivity.
Qed.

Lemma dict_subscript_Some {V : Type} (d : gmap key V) (i : value) (k : key) (x : V)
    (w : World) :
  to_key i = Some k → d !! k = Some x → dict_subscript d i w = (Ret x, w).
Proof.
  intros Hk Hd. unfold dict_subscript, hash. rewrite Hk, bind_run. simpl.
  rewrite Hd. reflexivity.
Qed.

Lemma dict_subscript_unhashable {V : Type} (d : gmap key V) (i : value) (w : World) :
  to_key i = None → dict_subscript d i w = (Raise (TypeError "unhashable"), w).
Proof. intros Hk. unfold dict_subscript, hash. rewrite Hk. reflexivity. Qed.

(** The staged containers are loaded exactly when the five of them are
    there. *)
Lemma load_staging_missing (inst_id : value) (k : key) (w : World) :
  to_key inst_id = Some k →
  inp_hosts (rg w) !! k = None ∨ inp_hostgroups (rg w) !! k = None ∨
  inp_contactgroups (rg w) !! k = None ∨ inp_services (rg w) !! k = None ∨
  inp_servicegroups (rg w) !! k = None →
  load_staging inst_id w = (Ret None, w).
Proof.
  intros Hk H. unfold load_staging, try_except. rewrite bind_run. simpl.
  destruct (inp_hosts (rg w) !! k) as [a|] eqn:Ha;
    [rewrite bind_run, (dict_subscript_Some _ _ _ _ _ Hk Ha)
    |rewrite bind_run, (dict_subscript_None _ _ _ _ Hk Ha); reflexivity].
  destruct (inp_hostgroups (rg w) !! k) as [b|] eqn:Hb;
    [rewrite bind_run, (dict_subscript_Some _ _ _ _ _ Hk Hb)
    |rewrite bind_run, (dict_subscript_None _ _ _ _ Hk Hb); reflexivity].
  destruct (inp_contactgroups (rg w) !! k) as [c|] eqn:Hc;
    [rewrite bind_run, (dict_subscript_Some _ _ _ _ _ Hk Hc)
    |rewrite bind_run, (dict_subscript_None _ _ _ _ Hk Hc); reflexivity].
  destruct (inp_services (rg w) !! k) as [d|] eqn:Hd;
    [rewrite bind_run, (dict_subscript_Some _ _ _ _ _ Hk Hd)
    |rewrite bind_run, (dict_subscript_None _ _ _ _ Hk Hd); reflexivity].
  destruct (inp_servicegroups (rg w) !! k) as [e|] eqn:He;
    [|rewrite bind_run, (dict_subscript_None _ _ _ _ Hk He); reflexivity].
  exfalso. destruct H as [H|[H|[H|[H|H]]]]; discriminate.
Qed.

Lemma load_staging_present (inst_id : value) (k : key) (w : World)
    (a b c d e : Items) :
  to_key inst_id = Some k →
  inp_hosts (rg w) !! k = Some a → inp_hostgroups (rg w) !! k = Some b →
  inp_contactgroups (rg w) !! k = Some c → inp_services (rg w) !! k = Some d →
  inp_servicegroups (rg w) !! k = Some e →
  load_staging inst_id w = (Ret (Some (a, b, c, d, e)), w).
Proof.
  intros Hk Ha Hb Hc Hd He. unfold load_staging, try_except.
  rewrite bind_run. simpl.
  rewrite bind_run, (dict_subscript_Some _ _ _ _ _ Hk Ha).
  rewrite bind_run, (dict_subscript_Some _ _ _ _ _ Hk Hb).
  rewrite bind_run, (dict_subscript_Some _ _ _ _ _ Hk Hc).
  rewrite bind_run, (dict_subscript_Some _ _ _ _ _ Hk Hd).
  rewrite bind_run, (dict_subscript_Some _ _ _ _ _ Hk He).
  reflexivity.
Qed.

Lemma all_done_linking_unchanged (inst_id : value) (w : World) :
  in_keys inst_id (configs (rg w)) = false ∨
  (∃ k, to_key inst_id = Some k ∧
     (inp_hosts (rg w) !! k = None ∨ inp_hostgroups (rg w) !! k = None ∨
      inp_contactgroups (rg w) !! k = None ∨ inp_services (rg w) !! k = None ∨
      inp_servicegroups (rg w) !! k = None)) →
  all_done_linking inst_id w = (Ret tt, w).
Proof.
  intros H. unfold all_done_linking. rewrite bind_run. simpl.
  destruct (in_scheduler_mode (rg w)); [reflexivity|].
  rewrite bind_run. simpl.
  destruct (in_keys inst_id (configs (rg w))) eqn:Hin; simpl; [|reflexivity].
  destruct H as [H|(k & Hk & H)]; [discriminate|].
  rewrite bind_run, (load_staging_missing _ _ _ Hk H). reflexivity.
Qed.

(** C5.  When the instance has no Config in [self.configs], or one of the
    five staged containers ([inp_hosts], [inp_hostgroups],
    [inp_contactgroups], [inp_services], [inp_servicegroups]) is missing for
    it, [all_done_linking] returns and the whole state is what it was:
    nothing is merged, no membership list is changed, no staging is
    deleted. *)
Theorem all_done_linking_bailout (inst_id : value) (w : World) :
  in_keys inst_id (configs (rg w)) = false ∨
  (∃ k, to_key inst_id = Some k ∧
     (inp_hosts (rg w) !! k = None ∨ inp_hostgroups (rg w) !! k = None ∨
      inp_contactgroups (rg w) !! k = None ∨ inp_services (rg w) !! k = None ∨
      inp_servicegroups (rg w) !! k = None)) →
  all_done_linking inst_id w = (Ret tt, w).
Proof. apply all_done_linking_unchanged. Qed.

(** The pass proper runs when the regenerator is not in scheduler mode, the
    instance has a Config and its five containers are staged. *)
Lemma all_done_linking_pass (inst_id : value) (k : key) (w : World)
    (a b c d e : Items) :
  in_scheduler_mode (rg w) = false →
  to_key inst_id = Some k → is_Some (configs (rg w) !! k) →
  inp_hosts (rg w) !! k = Some a → inp_hostgroups (rg w) !! k = Some b →
  inp_contactgroups (rg w) !! k = Some c → inp_services (rg w) !! k = Some d →
  inp_servicegroups (rg w) !! k = Some e →
  all_done_linking inst_id w = link_pass inst_id a b c d e w.
Proof.
  intros Hs Hk Hc Ha Hb Hcg Hd He. unfold all_done_linking.
  rewrite bind_run. simpl. rewrite Hs. rewrite bind_run. simpl.
  assert (in_keys inst_id (configs (rg w)) = true) as ->.
  { apply in_keys_spec. eauto. }
  simpl. rewrite bind_run, (load_staging_present _ _ _ _ _ _ _ _ Hk Ha Hb Hcg Hd He).
  reflexivity.
Qed.

(** ** An update for an unknown instance *)

(** The clock moves between two calls. *)
Definition at_time (t : Z) (w : World) : World :=
  mkWorld (rg w) (heap w) t (uuid4 w).

(** The request for the full data of an instance. *)
Definition need_data (c_id : value) : Message :=
  mkMessage (if ALIGNAK then None else Some 0) "NeedData"
    [("full_instance_id", c_id)] "WebUI".

(** What the handler does to [self] when it asks: the message is put on the
    queue and the time of the request is recorded. *)
Definition asked (c_id : value) (w : World) : World :=
  with_rg (set_last_need_data_send (now w)
             (set_from_q (option_map (λ q, q ++ [need_data c_id]) (from_q (rg w)))
                (rg w))) w.

(** C6, as the code has it.  For an [update_program_status] brok whose
    instance has no Config, the handler returns; it puts exactly one
    [NeedData] message for that instance on the queue and records the time
    when more than 60 seconds have passed since [last_need_data_send] (set
    at construction, then at each request) and a queue is loaded, and
    otherwise changes nothing.  The limit is one request, for whatever
    unknown instance: after a request, a brok for any unknown instance that
    comes within the next 60 seconds changes nothing. *)
Theorem update_program_status_unknown_instance (b : Brok) (c_id : value) (w : World) :
  b_data b !! "instance_id" = Some c_id →
  in_keys c_id (configs (rg w)) = false →
  manage_update_program_status_brok b w =
    (Ret tt,
     if bool_decide (now w - last_need_data_send (rg w) > 60)%Z &&
        bool_decide (is_Some (from_q (rg w)))
     then asked c_id w else w) ∧
  ∀ (b' : Brok) (c_id' : value) (t' : Z),
    b_data b' !! "instance_id" = Some c_id' →
    in_keys c_id' (configs (rg w)) = false →
    (t' - now w ≤ 60)%Z →
    manage_update_program_status_brok b' (at_time t' (asked c_id w)) =
      (Ret tt, at_time t' (asked c_id w)).
Proof.
  intros Hd Hin. split.
  - unfold manage_update_program_status_brok, data_get.
    rewrite Hd, bind_run. simpl. rewrite bind_run. simpl. rewrite Hin. simpl.
    repeat (rewrite bind_run; simpl).
    destruct (bool_decide (now w - last_need_data_send (rg w) > 60)%Z); simpl;
      [|reflexivity].
    destruct (from_q (rg w)) as [q|] eqn:Hq; simpl; reflexivity.
  - intros b' c_id' t' Hd' Hin' Ht.
    unfold manage_update_program_status_brok, data_get.
    rewrite Hd', bind_run. simpl. rewrite bind_run. simpl. rewrite Hin'. simpl.
    repeat (rewrite bind_run; simpl).
    rewrite bool_decide_eq_false_2 by lia. reflexivity.
Qed.

(** ** The dispatcher and a manager that raises *)

(** The identifier logic only computes: it gives the same brok in every
    world but for the synthesized identifier. *)
Lemma normalize_identifiers_run (b : Brok) (w : World) :
  ∃ b', normalize_identifiers b w = (Ret b', w).
Proof.
  unfold normalize_identifiers.
  destruct (if truthy (default VNone (b_id b)) then _ else _) as [i u].
  destruct (default VNone (_ !! "id")); eexists; reflexivity.
Qed.

Lemma want_brok_run (b : Brok) (w : World) :
  ∃ r, want_brok b w = (Ret r, w).
Proof.
  unfold want_brok. rewrite bind_run. simpl.
  destruct (in_scheduler_mode (rg w)); eexists; reflexivity.
Qed.

(** C2, what the code does.  When the manager of a brok raises, the
    exception is caught and logged, but the result [rc] that [manage_brok]
    then returns was never bound: [manage_brok] itself raises
    [UnboundLocalError], in the world the manager left. *)
Theorem manage_brok_manager_raises (brok brok' : Brok) (manage : Brok → M unit)
    (e : exn) (w w' : World) :
  manager (b_type brok) = Some manage →
  want_brok brok w = (Ret true, w) →
  normalize_identifiers brok w = (Ret brok', w) →
  manage brok' w = (Raise e, w') →
  manage_brok brok w = (Raise (UnboundLocalError "rc"), w').
Proof.
  intros Hm Hw Hn He. unfold manage_brok. rewrite Hm.
  rewrite bind_run, Hw. simpl. rewrite bind_run, Hn.
  rewrite bind_run. unfold try_except. rewrite bind_run, He. reflexivity.
Qed.

(** When the manager returns, so does [manage_brok], in the same world. *)
Lemma manage_brok_manager_returns (brok brok' : Brok) (manage : Brok → M unit)
    (w w' : World) :
  manager (b_type brok) = Some manage →
  want_brok brok w = (Ret true, w) →
  normalize_identifiers brok w = (Ret brok', w) →
  manage brok' w = (Ret tt, w') →
  manage_brok brok w = (Ret tt, w').
Proof.
  intros Hm Hw Hn He. unfold manage_brok. rewrite Hm.
  rewrite bind_run, Hw. simpl. rewrite bind_run, Hn.
  rewrite bind_run. unfold try_except. rewrite bind_run, He. reflexivity.
Qed.

(** ** A dump replayed while the Config is fresh *)

(** The identifier logic touches the keys [id] and [uuid] only. *)
Lemma normalize_identifiers_data (b b' : Brok) (w w' : World) (k : string) :
  normalize_identifiers b w = (Ret b', w') →
  k ≠ "id" → k ≠ "uuid" →
  b_type b' = b_type b ∧ b_data b' !! k = b_data b !! k.
Proof.
  unfold normalize_identifiers. intros H Hid Huuid.
  destruct (if truthy (default VNone (b_id b)) then _ else _) as [i u].
  assert (∀ d : gmap string value,
            (if data_truthy d "id" then <["uuid" := default VNone (d !! "id")]> d
             else if data_truthy d "uuid" then <["id" := default VNone (d !! "uuid")]> d
             else d) !! k = d !! k) as Hd.
  { intros d. destruct (data_truthy d "id"); [by rewrite lookup_insert_ne|].
    destruct (data_truthy d "uuid"); [by rewrite lookup_insert_ne | done]. }
  destruct (default VNone (_ !! "id")); simpl in H; try rewrite bind_run in H;
    simpl in H; injection H as <- <-; simpl; split; try reflexivity;
    rewrite ?lookup_insert_ne by done; apply Hd.
Qed.

(** Where a manager leaves the world as it is, so does the dispatcher. *)
Lemma manage_brok_unchanged (brok : Brok) (manage : Brok → M unit) (w : World) :
  manager (b_type brok) = Some manage →
  (∀ brok', normalize_identifiers brok w = (Ret brok', w) → (manage brok' w).2 = w) →
  (manage_brok brok w).2 = w.
Proof.
  intros Hm H. unfold manage_brok. rewrite Hm.
  destruct (want_brok_run brok w) as [r Hr]. rewrite bind_run, Hr.
  destruct r; simpl; [|reflexivity].
  destruct (normalize_identifiers_run brok w) as [brok' Hn].
  rewrite bind_run, Hn. specialize (H brok' Hn).
  rewrite bind_run. unfold try_except. rewrite bind_run.
  destruct (manage brok' w) as [[[]|e] w1]; simpl in *; exact H.
Qed.

Lemma staged_absent {V : Type} (d : gmap key V) (inst_id : value) (k : key) (w : World) :
  to_key inst_id = Some k → d !! k = None → staged d inst_id w = (Ret false, w).
Proof.
  intros Hk Hd. unfold staged, try_except.
  rewrite bind_run, (dict_subscript_None _ _ _ _ Hk Hd). reflexivity.
Qed.

(** The duplicate [program_status]: "Got near initial program status.
    Ignoring this information." *)
Lemma program_status_near (b : Brok) (c_id : value) (k : key) (c : ref) (t : Z)
    (w : World) :
  b_data b !! "instance_id" = Some c_id → to_key c_id = Some k →
  configs (rg w) !! k = Some c →
  attr_of (heap w) c "timestamp" = Some (VInt t) →
  (now w - t < 60)%Z →
  manage_program_status_brok b w = (Ret tt, w).
Proof.
  intros Hd Hk Hc Ht Hlt. unfold manage_program_status_brok, data_get.
  rewrite Hd. run. unfold hash. rewrite Hk. run. rewrite Hc. run.
  unfold getattr. rewrite Ht. run.
  rewrite bool_decide_eq_true_2 by exact Hlt. reflexivity.
Qed.

(** A brok of a staged kind for an instance without staging: "Not good!",
    and nothing else. *)
Lemma initial_host_status_not_staged (b : Brok) (inst_id : value) (k : key) (w : World) :
  b_data b !! "instance_id" = Some inst_id → to_key inst_id = Some k →
  inp_hosts (rg w) !! k = None →
  (manage_initial_host_status_brok b w).2 = w.
Proof.
  intros H Hk Hs. unfold manage_initial_host_status_brok.
  destruct (b_data b !! "host_name") as [hn|] eqn:Hn;
    unfold data_get; rewrite Hn; [|reflexivity].
  rewrite bind_run. simpl. rewrite H, bind_run. simpl. rewrite bind_run. simpl.
  rewrite bind_run, (staged_absent _ _ _ _ Hk Hs). reflexivity.
Qed.

Lemma initial_hostgroup_status_not_staged (b : Brok) (inst_id : value) (k : key)
    (w : World) :
  b_data b !! "instance_id" = Some inst_id → to_key inst_id = Some k →
  inp_hostgroups (rg w) !! k = None →
  (manage_initial_hostgroup_status_brok b w).2 = w.
Proof.
  intros H Hk Hs. unfold manage_initial_hostgroup_status_brok.
  destruct (b_data b !! "hostgroup_name") as [hn|] eqn:Hn;
    unfold data_get; rewrite Hn; [|reflexivity].
  rewrite bind_run. simpl. rewrite H, bind_run. simpl. rewrite bind_run. simpl.
  rewrite bind_run, (staged_absent _ _ _ _ Hk Hs). reflexivity.
Qed.

Lemma initial_service_status_not_staged (b : Brok) (inst_id : value) (k : key)
    (w : World) :
  b_data b !! "instance_id" = Some inst_id → to_key inst_id = Some k →
  inp_services (rg w) !! k = None →
  (manage_initial_service_status_brok b w).2 = w.
Proof.
  intros H Hk Hs. unfold manage_initial_service_status_brok.
  destruct (b_data b !! "host_name") as [hn|] eqn:Hn;
    unfold data_get; rewrite Hn; [|reflexivity].
  rewrite bind_run. simpl.
  destruct (b_data b !! "service_description") as [sd|] eqn:Hsd; [|reflexivity].
  rewrite bind_run. simpl. rewrite H, bind_run. simpl. rewrite bind_run. simpl.
  rewrite bind_run, (staged_absent _ _ _ _ Hk Hs). reflexivity.
Qed.

Lemma initial_servicegroup_status_not_staged (b : Brok) (inst_id : value) (k : key)
    (w : World) :
  b_data b !! "instance_id" = Some inst_id → to_key inst_id = Some k →
  inp_servicegroups (rg w) !! k = None →
  (manage_initial_servicegroup_status_brok b w).2 = w.
Proof.
  intros H Hk Hs. unfold manage_initial_servicegroup_status_brok.
  destruct (b_data b !! "servicegroup_name") as [hn|] eqn:Hn;
    unfold data_get; rewrite Hn; [|reflexivity].
  rewrite bind_run. simpl. rewrite H, bind_run. simpl. rewrite bind_run. simpl.
  rewrite bind_run, (staged_absent _ _ _ _ Hk Hs). reflexivity.
Qed.

Lemma initial_contactgroup_status_not_staged (b : Brok) (inst_id : value) (k : key)
    (w : World) :
  b_data b !! "instance_id" = Some inst_id → to_key inst_id = Some k →
  inp_contactgroups (rg w) !! k = None →
  (manage_initial_contactgroup_status_brok b w).2 = w.
Proof.
  intros H Hk Hs. unfold manage_initial_contactgroup_status_brok.
  destruct (b_data b !! "contactgroup_name") as [hn|] eqn:Hn;
    unfold data_get; rewrite Hn; [|reflexivity].
  rewrite bind_run. simpl. rewrite H, bind_run. simpl. rewrite bind_run. simpl.
  rewrite bind_run, (staged_absent _ _ _ _ Hk Hs). reflexivity.
Qed.

Lemma initial_broks_done_not_staged (b : Brok) (inst_id : value) (k : key) (w : World) :
  b_data b !! "instance_id" = Some inst_id → to_key inst_id = Some k →
  inp_hosts (rg w) !! k = None →
  (manage_initial_broks_done_brok b w).2 = w.
Proof.
  intros H Hk Hs. unfold manage_initial_broks_done_brok, data_get.
  rewrite H, bind_run. simpl. rewrite all_done_linking_unchanged; [reflexivity|].
  right. exists k. auto.
Qed.

(** The kinds of brok of a dump that are staged per instance, with the two
    that open and close the dump. *)
Definition staged_kinds : list string :=
  ["program_status"; "initial_host_status"; "initial_hostgroup_status";
   "initial_service_status"; "initial_servicegroup_status";
   "initial_contactgroup_status"; "initial_broks_done"].

(** C3, as the code has it.  Once a dump of an instance has been merged (the
    instance has a Config, its staging is deleted), and for as long as the
    Config is less than 60 seconds old, the duplicate [program_status], every
    replayed host, hostgroup, service, servicegroup and contactgroup brok of
    that instance and the closing [initial_broks_done] leave the whole state
    as it is: no host, service or group of the store is modified.  (The
    contacts, timeperiods, commands and notification ways are not staged:
    their handlers update them again from the replayed data.) *)
Theorem replay_within_60s (brok : Brok) (inst_id : value) (k : key) (c : ref)
    (t : Z) (w : World) :
  b_type brok ∈ staged_kinds →
  b_data brok !! "instance_id" = Some inst_id → to_key inst_id = Some k →
  configs (rg w) !! k = Some c →
  attr_of (heap w) c "timestamp" = Some (VInt t) →
  (now w - t < 60)%Z →
  inp_hosts (rg w) !! k = None → inp_hostgroups (rg w) !! k = None →
  inp_contactgroups (rg w) !! k = None → inp_services (rg w) !! k = None →
  inp_servicegroups (rg w) !! k = None →
  (manage_brok brok w).2 = w.
Proof.
  intros Hty Hd Hk Hc Ht Hlt Hh Hhg Hcg Hs Hsg.
  assert (∀ brok', normalize_identifiers brok w = (Ret brok', w) →
                   b_data brok' !! "instance_id" = Some inst_id) as Hn.
  { intros brok' H.
    destruct (normalize_identifiers_data _ _ _ _ "instance_id" H) as [_ ->]; done. }
  unfold staged_kinds in Hty.
  repeat (apply elem_of_cons in Hty as [Hty|Hty]);
    [..|by apply elem_of_nil in Hty];
    (eapply manage_brok_unchanged; [rewrite Hty; reflexivity|]);
    intros brok' Hb; specialize (Hn brok' Hb).
  - erewrite program_status_near; eauto.
  - eapply initial_host_status_not_staged; eauto.
  - eapply initial_hostgroup_status_not_staged; eauto.
  - eapply initial_service_status_not_staged; eauto.
  - eapply initial_servicegroup_status_not_staged; eauto.
  - eapply initial_contactgroup_status_not_staged; eauto.
  - eapply initial_broks_done_not_staged; eauto.
Qed.

(** ** Attributes a piece of code leaves alone *)

(** The attributes selected by [F] hold what they held. *)
Definition keeps_where (F : ref → string → Prop) (w w' : World) : Prop :=
  ∀ r a, F r a → attr_of (heap w') r a = attr_of (heap w) r a.

(** The same, for the attributes of a given name on every object. *)
Definition keeps (P : string → bool) : World → World → Prop :=
  keeps_where (λ _ a, P a = true).

Lemma keeps_where_refl F (w : World) : keeps_where F w w.
Proof. intros r a _. reflexivity. Qed.

Lemma keeps_where_trans F (a b c : World) :
  keeps_where F a b → keeps_where F b c → keeps_where F a c.
Proof. intros H1 H2 r x HF. rewrite (H2 r x HF). apply H1, HF. Qed.

Lemma keeps_refl P (w : World) : keeps P w w.
Proof. apply keeps_where_refl. Qed.

Lemma keeps_trans P (a b c : World) : keeps P a b → keeps P b c → keeps P a c.
Proof. apply keeps_where_trans. Qed.

Lemma keeps_where_setattr F o a v :
  (∀ r, o = VRef r → ¬ F r a) → respects (keeps_where F) (setattr o a v).
Proof.
  intros H w. destruct o; try apply keeps_where_refl.
  intros r' a' HF. simpl. rewrite attr_of_heap_set.
  destruct (decide (r = r' ∧ a = a')) as [[-> ->]|]; [|reflexivity].
  exfalso. eapply H; [reflexivity | exact HF].
Qed.

Lemma keeps_setattr P o a v : P a = false → respects (keeps P) (setattr o a v).
Proof. intros H. apply keeps_where_setattr. intros r _. rewrite H. discriminate. Qed.

Lemma keeps_where_assign F f : respects (keeps_where F) (assign f).
Proof. intros w r a _. reflexivity. Qed.

Lemma keeps_where_on F {A : Type} (c : coll)
    (op : gmap positive object → Items → result A * Items) :
  respects (keeps_where F) (on c op).
Proof.
  intros w. unfold on. destruct (op (heap w) (coll_get c (rg w))).
  intros r' a' _. reflexivity.
Qed.

Ltac keeps_prim :=
  first
    [ apply keeps_where_assign
    | apply keeps_where_on
    | apply keeps_setattr; reflexivity ].

(** The code is followed through the helpers it calls. *)
Ltac keeps_auto P :=
  respects_with (keeps_refl P) (keeps_trans P) keeps_prim.

(** ** [update_element], as one update of the attributes *)

Definition heap_update (h : gmap positive object) (r : ref) (l : list (string * value))
  : gmap positive object :=
  foldl (λ h kv, heap_set h r kv.1 kv.2) h l.

Lemma for_each_setattr_run (r : ref) (l : list (string * value)) (w : World) :
  for_each l (λ kv, setattr (VRef r) kv.1 kv.2) w =
  (Ret tt, with_heap (heap_update (heap w) r l) w).
Proof.
  revert w. induction l as [|[k v] l IH]; intros w.
  - destruct w; reflexivity.
  - unfold for_each in *. simpl. rewrite bind_run. simpl. rewrite IH. reflexivity.
Qed.

Lemma attr_of_heap_update (h : gmap positive object) (r r' : ref)
    (l : list (string * value)) (a : string) :
  NoDup l.*1 →
  attr_of (heap_update h r l) r' a =
  match (if decide (r = r') then (list_to_map l : gmap string value) !! a else None) with
  | Some v => Some v
  | None => attr_of h r' a
  end.
Proof.
  revert h. induction l as [|[k v] l IH]; intros h Hnd.
  - simpl. destruct (decide (r = r')); reflexivity.
  - apply NoDup_cons in Hnd as [Hk Hnd]. simpl. rewrite (IH _ Hnd).
    rewrite attr_of_heap_set.
    destruct (decide (r = r')) as [->|Hr].
    + destruct (decide (k = a)) as [->|Ha].
      * rewrite lookup_insert_eq.
        rewrite (proj1 (not_elem_of_list_to_map (M := gmap string) l a) Hk).
        rewrite decide_True by done. reflexivity.
      * rewrite lookup_insert_ne by done. rewrite decide_False by tauto. reflexivity.
    + rewrite decide_False by tauto. reflexivity.
Qed.

Lemma update_element_run (r : ref) (data : gmap string value) (w : World) :
  update_element (VRef r) data w =
  (Ret tt, with_heap (heap_update (heap w) r (map_to_list data)) w).
Proof. apply for_each_setattr_run. Qed.

(** After [update_element(element, data)], an attribute named by a key of
    [data] holds the value of that key, and every other attribute, of the
    element or of another object, holds what it held. *)
Lemma update_element_attr (r r' : ref) (data : gmap string value) (w : World)
    (a : string) :
  attr_of (heap (update_element (VRef r) data w).2) r' a =
  match (if decide (r = r') then data !! a else None) with
  | Some v => Some v
  | None => attr_of (heap w) r' a
  end.
Proof.
  rewrite update_element_run. simpl.
  rewrite attr_of_heap_update by apply NoDup_fst_map_to_list.
  rewrite list_to_map_to_list. reflexivity.
Qed.

(** ** The update of a host *)

Lemma del_props_run (props : list string) (data : gmap string value) (w : World) :
  NoDup props → (∀ p, p ∈ props → is_Some (data !! p)) →
  del_props props data w = (Ret (foldl (λ d p, delete p d) data props), w).
Proof.
  unfold del_props. revert data. induction props as [|p props IH]; intros data Hnd Hall.
  - reflexivity.
  - apply NoDup_cons in Hnd as [Hp Hnd]. simpl.
    destruct (Hall p) as [v Hv]; [left|]. rewrite Hv. run.
    apply IH; [exact Hnd|]. intros p' Hp'.
    rewrite lookup_delete_ne by (intros ->; contradiction).
    apply Hall. by right.
Qed.

Lemma lookup_foldl_delete (props : list string) (data : gmap string value) (a : string) :
  foldl (λ d p, delete p d) data props !! a =
  if decide (a ∈ props) then None else data !! a.
Proof.
  revert data. induction props as [|p props IH]; intros data.
  - simpl. destruct (decide (a ∈ [])) as [H|_]; [by apply elem_of_nil in H | done].
  - change (foldl _ data (p :: props)) with (foldl (λ d p, delete p d) (delete p data) props).
    rewrite IH. destruct (decide (a ∈ props)) as [Hin|Hnin].
    + rewrite decide_True by (by right). reflexivity.
    + destruct (decide (a = p)) as [->|Hne].
      * rewrite decide_True by left. apply lookup_delete_eq.
      * rewrite decide_False by (intros [?|?]%elem_of_cons; contradiction).
        apply lookup_delete_ne. congruence.
Qed.

(** A missing key stops the deletion: [del data[prop]] raises. *)
Lemma del_props_missing (props : list string) (data : gmap string value) (p : string)
    (w : World) :
  p ∈ props → data !! p = None →
  ∃ q, del_props props data w = (Raise (KeyError q), w).
Proof.
  unfold del_props. revert data. induction props as [|p' props IH]; intros data Hin Hp.
  - by apply elem_of_nil in Hin.
  - simpl. destruct (data !! p') as [v|] eqn:Hv.
    + run. apply IH.
      * apply elem_of_cons in Hin as [->|Hin]; [congruence | exact Hin].
      * destruct (decide (p' = p)) as [->|Hne]; [apply lookup_delete_eq|].
        by rewrite lookup_delete_ne.
    + exists p'. reflexivity.
Qed.

(** The properties an update of a host leaves out when the topology did not
    change: [clean_prop] with [other_to_clean]. *)
Definition update_host_cleaned : list string :=
  ["uuid"; "check_command"; "hostgroups"; "contacts"; "notification_period";
   "contact_groups"; "check_period"; "event_handler"; "maintenance_period";
   "realm"; "customs"; "escalations";
   "parents"; "child_dependencies"; "parent_dependencies"].

(** The attributes the handler writes again after the overwrite: the links
    it rebuilds on the host, and [ref], [id] and [persistent] on the
    downtimes and comments. *)
Definition update_host_relinked : list string :=
  ["impacts"; "source_problems"; "downtimes"; "comments"; "ref"; "id"; "persistent"].

Definition not_relinked (a : string) : bool :=
  bool_decide (a ∉ update_host_relinked).

Lemma update_host_relink_keeps (host : value) :
  respects (keeps not_relinked)
    (linkify_dict_srv_and_hosts host "impacts";;
     linkify_dict_srv_and_hosts host "source_problems";;
     mret tt;;
     rebuild_downtimes_and_comments host).
Proof. keeps_auto not_relinked. Qed.

(** C4, as the code has it.  For an [update_host_status] brok whose
    [topology_change] is false, whose data holds every property the handler
    deletes, and whose [host_name] names a host of the store: once the
    handler has run, each deleted property of the host ([check_command],
    [hostgroups], [contacts], [notification_period], [check_period],
    [event_handler], [maintenance_period], [parents], [parent_dependencies],
    [child_dependencies], ...) holds what it held, and every other key of
    the data that the handler does not link again afterwards (such as
    [state]) holds the value of the brok. *)
Theorem update_host_status_fields (b : Brok) (tc hname : value) (k : key) (h : ref)
    (w : World) :
  b_data b !! "topology_change" = Some tc → truthy tc = false →
  (∀ p, p ∈ update_host_cleaned → is_Some (b_data b !! p)) →
  b_data b !! "host_name" = Some hname → to_key hname = Some k →
  name_to_item (hosts (rg w)) !! k = Some h →
  (∀ a, a ∈ update_host_cleaned →
     attr_of (heap (manage_update_host_status_brok b w).2) h a = attr_of (heap w) h a) ∧
  (∀ a v, b_data b !! a = Some v →
     a ∉ update_host_cleaned → a ∉ update_host_relinked →
     attr_of (heap (manage_update_host_status_brok b w).2) h a = Some v).
Proof.
  intros Htc Hfalse Hall Hname Hk Hh.
  assert (NoDup update_host_cleaned) as Hnd.
  { apply (bool_decide_unpack _). vm_compute. exact I. }
  assert (∀ a : string, a ∈ update_host_cleaned → not_relinked a = true) as Hcr.
  { intros a Ha. unfold update_host_cleaned in Ha.
    repeat (apply elem_of_cons in Ha as [->|Ha]; [reflexivity|]).
    by apply elem_of_nil in Ha. }
  assert (∀ a, attr_of (heap (manage_update_host_status_brok b w).2) h a =
               if not_relinked a then
                 match (if decide (a ∈ update_host_cleaned) then None else b_data b !! a) with
                 | Some v => Some v
                 | None => attr_of (heap w) h a
                 end
               else attr_of (heap (manage_update_host_status_brok b w).2) h a) as Hattr.
  { intros a. destruct (not_relinked a) eqn:Hnr; [|reflexivity].
    unfold manage_update_host_status_brok, data_get. rewrite Htc.
    rewrite bind_run, ret_run, Hfalse. cbn [negb app].
    rewrite bind_run.
    change (del_props _ (b_data b) w) with (del_props update_host_cleaned (b_data b) w).
    rewrite (del_props_run _ _ _ Hnd Hall).
    set (data := foldl _ (b_data b) update_host_cleaned).
    unfold data_get.
    assert (data !! "host_name" = Some hname) as ->.
    { unfold data. rewrite lookup_foldl_delete. rewrite decide_False; [exact Hname|].
      apply (bool_decide_unpack _). vm_compute. exact I. }
    run. unfold find_by_name, hash. rewrite Hk. run. rewrite Hh.
    unfold before_after_hook. rewrite bind_run, ret_run. cbv beta iota.
    rewrite bind_run, update_element_run. cbv beta iota.
    pose proof (update_host_relink_keeps (VRef h)
                  (with_heap (heap_update (heap w) h (map_to_list data)) w)) as Hk'.
    rewrite (Hk' h a Hnr). simpl.
    rewrite attr_of_heap_update by apply NoDup_fst_map_to_list.
    rewrite list_to_map_to_list, decide_True by done.
    unfold data. rewrite lookup_foldl_delete. reflexivity. }
  split.
  - intros a Ha. rewrite Hattr, (Hcr a Ha). rewrite decide_True by exact Ha. reflexivity.
  - intros a v Hv Hnc Hnr. rewrite Hattr.
    unfold not_relinked. rewrite bool_decide_eq_true_2 by exact Hnr.
    rewrite decide_False by exact Hnc. rewrite Hv. reflexivity.
Qed.

(** ** Following a run that returns *)

(** Two relations at once. *)
Definition both (R1 R2 : World → World → Prop) : World → World → Prop :=
  λ w w', R1 w w' ∧ R2 w w'.

Lemma both_refl R1 R2 :
  (∀ w, R1 w w) → (∀ w, R2 w w) → ∀ w, both R1 R2 w w.
Proof. intros H1 H2 w. split; [apply H1 | apply H2]. Qed.

Lemma both_trans R1 R2 :
  (∀ a b c, R1 a b → R1 b c → R1 a c) → (∀ a b c, R2 a b → R2 b c → R2 a c) →
  ∀ a b c, both R1 R2 a b → both R1 R2 b c → both R1 R2 a c.
Proof. intros H1 H2 a b c [Ha Hb] [Hc Hd]. split; [eapply H1 | eapply H2]; eassumption. Qed.

Lemma respects_both R1 R2 {A : Type} (m : M A) :
  respects R1 m → respects R2 m → respects (both R1 R2) m.
Proof. intros H1 H2 w. split; [apply H1 | apply H2]. Qed.

Lemma respects_run R {A : Type} (m : M A) (w w' : World) (r : result A) :
  respects R m → m w = (r, w') → R w w'.
Proof. intros H Hm. specialize (H w). rewrite Hm in H. exact H. Qed.

Lemma bind_Ret_inv_respects R {A B : Type} (m : M A) (k : A → M B)
    (w w' : World) (b : B) :
  respects R m → (m ≫= k) w = (Ret b, w') →
  ∃ a w1, R w w1 ∧ k a w1 = (Ret b, w').
Proof.
  intros HR H. apply bind_Ret_inv in H as (a & w1 & Hm & Hk).
  exists a, w1. split; [eapply respects_run; eassumption | exact Hk].
Qed.

(** In a loop that returns, each element had its turn: the body ran on it
    and returned, between two stretches of the loop. *)
Lemma for_each_elem_inv R {A : Type} (body : A → M unit) (l : list A) (x : A)
    (w w' : World) :
  (∀ w, R w w) → (∀ a b c, R a b → R b c → R a c) →
  (∀ y, respects R (body y)) →
  for_each l body w = (Ret tt, w') → x ∈ l →
  ∃ w1 w2, R w w1 ∧ body x w1 = (Ret tt, w2) ∧ R w2 w'.
Proof.
  intros Hrefl Htrans Hbody. revert w. induction l as [|y l IH]; intros w Hrun Hin.
  - by apply elem_of_nil in Hin.
  - unfold for_each in Hrun. simpl in Hrun.
    apply bind_Ret_inv in Hrun as ([] & wa & Hy & Hrest).
    apply elem_of_cons in Hin as [->|Hin].
    + exists w, wa. split; [apply Hrefl|]. split; [exact Hy|].
      eapply respects_run; [|exact Hrest].
      apply (respects_for_each R Hrefl Htrans). exact Hbody.
    + destruct (IH wa Hrest Hin) as (w1 & w2 & H1 & H2 & H3).
      exists w1, w2. split; [|split; assumption].
      eapply Htrans; [|exact H1]. eapply respects_run; [apply Hbody | exact Hy].
Qed.

(** ** A linking pass counts the tags of what it links *)

Definition is_tags (a : string) : bool := String.eqb a "tags".

(** The counters grow and no [tags] attribute is written. *)
Definition tags_step : World → World → Prop := both tags_grow (keeps is_tags).

Lemma tags_step_refl (w : World) : tags_step w w.
Proof. apply both_refl; [apply tags_grow_refl | apply keeps_refl]. Qed.

Lemma tags_step_trans (a b c : World) : tags_step a b → tags_step b c → tags_step a c.
Proof. apply both_trans; [apply tags_grow_trans | apply keeps_trans]. Qed.

Ltac tags_step_auto :=
  apply respects_both; [solve [tags_auto] | solve [keeps_auto is_tags]].

(** Counting the tags of a list: each one is counted. *)
Lemma count_tags_loop (l : list value) (t : value) (kt : key) (w w' : World) :
  for_each l (λ t, k ← hash t; assign (λ s, set_tags (count_tag (tags s) k) s)) w
    = (Ret tt, w') →
  t ∈ l → to_key t = Some kt →
  (count (tags (rg w)) kt + 1 ≤ count (tags (rg w')) kt)%Z.
Proof.
  intros Hrun Hin Hk.
  eapply (for_each_elem_inv tags_grow) in Hrun as (w1 & w2 & [H1 _] & Hb & [H2 _]);
    [|apply tags_grow_refl|apply tags_grow_trans| |exact Hin].
  - unfold hash in Hb. rewrite Hk in Hb. rewrite bind_run in Hb. simpl in Hb.
    injection Hb as <-. simpl in H2.
    destruct (H1 kt) as [_ Ha]. destruct (H2 kt) as [_ Hc].
    rewrite count_count_tag, decide_True in Hc by done. lia.
  - intros y. tags_auto.
Qed.

Lemma count_services_tags_loop (l : list value) (t : value) (kt : key) (w w' : World) :
  for_each l (λ t, k ← hash t;
                   assign (λ st, set_services_tags (count_tag (services_tags st) k) st)) w
    = (Ret tt, w') →
  t ∈ l → to_key t = Some kt →
  (count (services_tags (rg w)) kt + 1 ≤ count (services_tags (rg w')) kt)%Z.
Proof.
  intros Hrun Hin Hk.
  eapply (for_each_elem_inv tags_grow) in Hrun as (w1 & w2 & [_ H1] & Hb & [_ H2]);
    [|apply tags_grow_refl|apply tags_grow_trans| |exact Hin].
  - unfold hash in Hb. rewrite Hk in Hb. rewrite bind_run in Hb. simpl in Hb.
    injection Hb as <-. simpl in H2.
    destruct (H1 kt) as [_ Ha]. destruct (H2 kt) as [_ Hc].
    rewrite count_count_tag, decide_True in Hc by done. lia.
  - intros y. tags_auto.
Qed.

(** One more statement of a run that returns, the relation carried along. *)
Ltac tags_step_in H Hacc :=
  let a := fresh "a" in
  let w1 := fresh "w" in
  let HR := fresh "HR" in
  apply (bind_Ret_inv_respects tags_step) in H as (a & w1 & HR & H);
  [ apply (tags_step_trans _ _ _ Hacc) in HR; clear Hacc; rename HR into Hacc
  | tags_step_auto ].

Lemma getattr_Ret_inv (r : ref) (a : string) (v : value) (w w' : World) :
  getattr (VRef r) a w = (Ret v, w') → attr_of (heap w) r a = Some v ∧ w' = w.
Proof.
  unfold getattr. destruct (attr_of (heap w) r a); [|discriminate].
  intros [= <- <-]. done.
Qed.

Lemma iter_Ret_inv (v : value) (l : list value) (w w' : World) :
  iter v w = (Ret l, w') → elements v = Some l ∧ w' = w.
Proof.
  unfold iter. destruct (elements v); [|discriminate]. intros [= <- <-]. done.
Qed.

Lemma link_host_counts (h : ref) (tv t : value) (l : list value) (kt : key)
    (w w' : World) :
  link_host h w = (Ret tt, w') →
  attr_of (heap w) h "tags" = Some tv → elements tv = Some l →
  t ∈ l → to_key t = Some kt →
  (count (tags (rg w)) kt + 1 ≤ count (tags (rg w')) kt)%Z.
Proof.
  intros H Htv Hl Hin Hk. unfold link_host in H.
  pose proof (tags_step_refl w) as Hacc.
  do 10 tags_step_in H Hacc.
  apply bind_Ret_inv in H as (ts & wa & Hts & H).
  apply getattr_Ret_inv in Hts as [Hts ->].
  destruct Hacc as [Hg Hkeep]. rewrite (Hkeep h "tags" eq_refl), Htv in Hts.
  injection Hts as <-.
  apply bind_Ret_inv in H as (l' & wb & Hit & H).
  apply iter_Ret_inv in Hit as [Hit ->]. rewrite Hl in Hit. injection Hit as <-.
  apply bind_Ret_inv in H as ([] & wc & Hloop & H).
  pose proof (count_tags_loop _ _ _ _ _ Hloop Hin Hk) as Hc.
  eapply (respects_run tags_grow) in H; [|tags_auto].
  destruct Hg as [Hg _]. destruct H as [H _].
  destruct (Hg kt) as [_ H1]. destruct (H kt) as [_ H2]. lia.
Qed.

Lemma link_service_counts (x : ref) (tv t : value) (l : list value) (kt : key)
    (w w' : World) :
  link_service x w = (Ret tt, w') →
  attr_of (heap w) x "tags" = Some tv → elements tv = Some l →
  t ∈ l → to_key t = Some kt →
  (count (services_tags (rg w)) kt + 1 ≤ count (services_tags (rg w')) kt)%Z.
Proof.
  intros H Htv Hl Hin Hk. unfold link_service in H.
  pose proof (tags_step_refl w) as Hacc.
  do 10 tags_step_in H Hacc.
  apply bind_Ret_inv in H as (ts & wa & Hts & H).
  apply getattr_Ret_inv in Hts as [Hts ->].
  destruct Hacc as [Hg Hkeep]. rewrite (Hkeep x "tags" eq_refl), Htv in Hts.
  injection Hts as <-.
  apply bind_Ret_inv in H as (l' & wb & Hit & H).
  apply iter_Ret_inv in Hit as [Hit ->]. rewrite Hl in Hit. injection Hit as <-.
  apply bind_Ret_inv in H as ([] & wc & Hloop & H).
  pose proof (count_services_tags_loop _ _ _ _ _ Hloop Hin Hk) as Hc.
  eapply (respects_run tags_grow) in H; [|tags_auto].
  destruct Hg as [_ Hg]. destruct H as [_ H].
  destruct (Hg kt) as [_ H1]. destruct (H kt) as [_ H2]. lia.
Qed.

Lemma tags_step_link_host (h : ref) : respects tags_step (link_host h).
Proof. tags_step_auto. Qed.

Lemma tags_step_link_service (x : ref) : respects tags_step (link_service x).
Proof. tags_step_auto. Qed.

(** A pass that returns has counted every tag of every staged host and of
    every staged service once more. *)
Lemma link_pass_counts (inst_id : value) (a b c d e : Items) (w w' : World) :
  link_pass inst_id a b c d e w = (Ret tt, w') →
  (∀ h tv l t kt,
     h ∈ elements_of a → attr_of (heap w) h "tags" = Some tv →
     elements tv = Some l → t ∈ l → to_key t = Some kt →
     (count (tags (rg w)) kt + 1 ≤ count (tags (rg w')) kt)%Z) ∧
  (∀ x tv l t kt,
     x ∈ elements_of d → attr_of (heap w) x "tags" = Some tv →
     elements tv = Some l → t ∈ l → to_key t = Some kt →
     (count (services_tags (rg w)) kt + 1 ≤ count (services_tags (rg w')) kt)%Z).
Proof.
  intros H. unfold link_pass in H. split.
  - intros h tv l t kt Hh Htv Hl Hin Hk.
    pose proof (tags_step_refl w) as Hacc.
    do 3 tags_step_in H Hacc.
    apply bind_Ret_inv in H as ([] & wa & Hloop & H).
    eapply (for_each_elem_inv tags_step) in Hloop as (wl1 & wl2 & HR1 & Hb & HR2);
      [|apply tags_step_refl|apply tags_step_trans|apply tags_step_link_host|exact Hh].
    pose proof (tags_step_trans _ _ _ Hacc HR1) as [Hg Hkeep].
    rewrite <- (Hkeep h "tags" eq_refl) in Htv.
    pose proof (link_host_counts _ _ _ _ _ _ _ Hb Htv Hl Hin Hk) as Hc.
    eapply (respects_run tags_grow) in H; [|tags_auto].
    destruct Hg as [Hg _]. destruct HR2 as [[HR2 _] _]. destruct H as [H _].
    destruct (Hg kt) as [_ H1]. destruct (HR2 kt) as [_ H2]. destruct (H kt) as [_ H3].
    lia.
  - intros x tv l t kt Hx Htv Hl Hin Hk.
    pose proof (tags_step_refl w) as Hacc.
    do 5 tags_step_in H Hacc.
    apply bind_Ret_inv in H as ([] & wa & Hloop & H).
    eapply (for_each_elem_inv tags_step) in Hloop as (wl1 & wl2 & HR1 & Hb & HR2);
      [|apply tags_step_refl|apply tags_step_trans|apply tags_step_link_service|exact Hx].
    pose proof (tags_step_trans _ _ _ Hacc HR1) as [Hg Hkeep].
    rewrite <- (Hkeep x "tags" eq_refl) in Htv.
    pose proof (link_service_counts _ _ _ _ _ _ _ Hb Htv Hl Hin Hk) as Hc.
    eapply (respects_run tags_grow) in H; [|tags_auto].
    destruct Hg as [_ Hg]. destruct HR2 as [[_ HR2] _]. destruct H as [_ H].
    destruct (Hg kt) as [_ H1]. destruct (HR2 kt) as [_ H2]. destruct (H kt) as [_ H3].
    lia.
Qed.

(** ** The restart purge leaves the counters alone *)

Definition tags_same (w w' : World) : Prop :=
  tags (rg w') = tags (rg w) ∧ services_tags (rg w') = services_tags (rg w).

Lemma tags_same_refl (w : World) : tags_same w w.
Proof. split; reflexivity. Qed.

Lemma tags_same_trans (a b c : World) : tags_same a b → tags_same b c → tags_same a c.
Proof. intros [H1 H2] [H3 H4]. split; congruence. Qed.

Lemma tags_same_setattr o a v : respects tags_same (setattr o a v).
Proof. intros w. destruct o; split; reflexivity. Qed.

Lemma tags_same_new c : respects tags_same (new c).
Proof. intros w. split; reflexivity. Qed.

Lemma tags_same_on {A : Type} (c : coll)
    (op : gmap positive object → Items → result A * Items) :
  respects tags_same (on c op).
Proof.
  intros w. unfold on. destruct (op (heap w) (coll_get c (rg w))) as [r it].
  destruct c; split; reflexivity.
Qed.

Lemma tags_same_assign (f : Regenerator → Regenerator) :
  (∀ s, tags (f s) = tags s ∧ services_tags (f s) = services_tags s) →
  respects tags_same (assign f).
Proof. intros H w. apply H. Qed.

Lemma tags_same_program_status (b : Brok) :
  respects tags_same (manage_program_status_brok b).
Proof.
  unfold manage_program_status_brok.
  respects_with tags_same_refl tags_same_trans
    ltac:(first [ apply tags_same_setattr | apply tags_same_new | apply tags_same_on
                | apply tags_same_assign; intros ?; split; reflexivity ]).
Qed.

(** C10.  The tag counters [self.tags] and [self.services_tags] only grow:
    whatever brok is managed, every tag counted before is still counted, and
    not less; the restart purge of [manage_program_status_brok] removes the
    hosts and services of an instance and leaves both counters exactly as
    they were; and a linking pass that returns has counted each tag of each
    staged host and of each staged service once more, so that a second dump
    of the same hosts counts their tags a second time. *)
Theorem tag_counters_only_grow :
  (∀ (brok : Brok) (w : World), tags_grow w (manage_brok brok w).2) ∧
  (∀ (b : Brok) (w : World), tags_same w (manage_program_status_brok b w).2) ∧
  (∀ (inst_id : value) (k : key) (a b c d e : Items) (w w' : World),
     in_scheduler_mode (rg w) = false →
     to_key inst_id = Some k → is_Some (configs (rg w) !! k) →
     inp_hosts (rg w) !! k = Some a → inp_hostgroups (rg w) !! k = Some b →
     inp_contactgroups (rg w) !! k = Some c → inp_services (rg w) !! k = Some d →
     inp_servicegroups (rg w) !! k = Some e →
     all_done_linking inst_id w = (Ret tt, w') →
     (∀ h tv l t kt,
        h ∈ elements_of a → attr_of (heap w) h "tags" = Some tv →
        elements tv = Some l → t ∈ l → to_key t = Some kt →
        (count (tags (rg w)) kt + 1 ≤ count (tags (rg w')) kt)%Z) ∧
     (∀ x tv l t kt,
        x ∈ elements_of d → attr_of (heap w) x "tags" = Some tv →
        elements tv = Some l → t ∈ l → to_key t = Some kt →
        (count (services_tags (rg w)) kt + 1 ≤ count (services_tags (rg w')) kt)%Z)).
Proof.
  split; [|split].
  - intros brok w. apply tags_grow_manage_brok.
  - intros b w. apply tags_same_program_status.
  - intros inst_id k a b c d e w w' Hs Hk Hc Ha Hb Hcg Hd He Hrun.
    rewrite (all_done_linking_pass _ _ _ _ _ _ _ _ Hs Hk Hc Ha Hb Hcg Hd He) in Hrun.
    eapply link_pass_counts. exact Hrun.
Qed.

(** ** A service and the services of its host *)

(** How many times the object [s] itself is in a list. *)
Definition is_ref (s : ref) (v : value) : bool :=
  match v with
  | VRef r => Pos.eqb r s
  | _ => false
  end.

Definition occurrences (s : ref) (xs : list value) : nat :=
  length (List.filter (is_ref s) xs).

Lemma occurrences_app (s : ref) (xs ys : list value) :
  occurrences s (xs ++ ys) = (occurrences s xs + occurrences s ys)%nat.
Proof. unfold occurrences. rewrite List.filter_app, length_app. reflexivity. Qed.

Lemma occurrences_self (s : ref) : occurrences s [VRef s] = 1%nat.
Proof. unfold occurrences. simpl. rewrite Pos.eqb_refl. reflexivity. Qed.

Lemma occurrences_other (s x : ref) : x ≠ s → occurrences s [VRef x] = 0%nat.
Proof.
  intros H. unfold occurrences. simpl.
  destruct (Pos.eqb_spec x s); [contradiction | reflexivity].
Qed.

Lemma py_eq_is_ref (s : ref) (y old : value) :
  is_ref s y = true → py_eq y old = true → old = VRef s.
Proof.
  destruct y; try discriminate. simpl. intros ->%Pos.eqb_eq.
  destruct old; try discriminate. intros ->%Pos.eqb_eq. reflexivity.
Qed.

Lemma list_remove_occurrences_le (s : ref) (old : value) (xs xs' : list value) :
  list_remove old xs = Some xs' → (occurrences s xs' ≤ occurrences s xs)%nat.
Proof.
  revert xs'. induction xs as [|y xs IH]; intros xs'; simpl; [discriminate|].
  destruct (py_eq y old).
  - intros [= <-]. unfold occurrences. simpl. destruct (is_ref s y); simpl; lia.
  - destruct (list_remove old xs) as [xs''|]; [|discriminate].
    intros [= <-]. specialize (IH _ eq_refl). unfold occurrences in *. simpl.
    destruct (is_ref s y); simpl; lia.
Qed.

Lemma list_remove_occurrences (s : ref) (old : value) (xs xs' : list value) :
  list_remove old xs = Some xs' → old ≠ VRef s →
  occurrences s xs' = occurrences s xs.
Proof.
  intros H Hne. revert xs' H. induction xs as [|y xs IH]; intros xs'; simpl; [discriminate|].
  destruct (py_eq y old) eqn:Hy.
  - intros [= <-]. unfold occurrences. simpl.
    destruct (is_ref s y) eqn:Hr; [|reflexivity].
    exfalso. apply Hne. eapply py_eq_is_ref; eassumption.
  - destruct (list_remove old xs) as [xs''|]; [|discriminate].
    intros [= <-]. specialize (IH _ eq_refl). unfold occurrences in *. simpl.
    destruct (is_ref s y); simpl; lia.
Qed.

(** The element a search stops at passed the test. *)
Lemma find_first_Some_inv {A : Type} (p : A → M bool) (l : list A) (x : A)
    (w w' : World) :
  (∀ y, respects unchanged (p y)) →
  find_first p l w = (Ret (Some x), w') →
  w' = w ∧ p x w = (Ret true, w).
Proof.
  intros Hp. induction l as [|y l IH]; simpl; [discriminate|].
  rewrite bind_run. rewrite (unchanged_run (p y) w (Hp y)).
  destruct (p y w).1 as [[|]|e] eqn:Hy; simpl.
  - intros [= <- <-]. split; [reflexivity|].
    rewrite (unchanged_run (p y) w (Hp y)), Hy. reflexivity.
  - exact IH.
  - discriminate.
Qed.

(** The description a host compares when it searches its services. *)
Definition description_of (h : gmap positive object) (v : value) : value :=
  match v with
  | VRef r => default (VStr "__UNNAMED_SERVICE__") (attr_of h r "service_description")
  | _ => VStr "__UNNAMED_SERVICE__"
  end.

Lemma find_service_by_name_inv (host : ref) (sdesc old : value) (w w' : World) :
  find_service_by_name (VRef host) sdesc w = (Ret (Some old), w') →
  w' = w ∧ py_eq (description_of (heap w) old) sdesc = true.
Proof.
  unfold find_service_by_name. intros H.
  apply bind_Ret_inv in H as (svcs & w1 & H1 & H).
  apply getattr_Ret_inv in H1 as [_ ->].
  apply bind_Ret_inv in H as (l & w2 & H2 & H).
  apply iter_Ret_inv in H2 as [_ ->].
  apply find_first_Some_inv in H as [-> H]; [|intros y; reads].
  split; [reflexivity|].
  rewrite bind_run in H. unfold getattr_d, description_of in *.
  destruct old; simpl in H; injection H as H; exact H.
Qed.

(** What "Now link with host" does to the attributes [host] and [services],
    for a service [s] whose [host_name] is indexed to [h], or to nothing. *)
Definition attached (s : ref) (h : option ref) (w w' : World) : Prop :=
  attr_of (heap w') s "host" = Some (opt_value h) ∧
  match h with
  | None =>
      ∀ r, attr_of (heap w') r "services" = attr_of (heap w) r "services"
  | Some h =>
      (∀ r, r ≠ h → attr_of (heap w') r "services" = attr_of (heap w) r "services") ∧
      ∃ sdesc xs xs',
        attr_of (heap w) s "service_description" = Some sdesc ∧
        attr_of (heap w) h "services" = Some (VList xs) ∧
        attr_of (heap w') h "services" = Some (VList (xs' ++ [VRef s])) ∧
        (xs' = xs ∨
         ∃ old, list_remove old xs = Some xs' ∧
                py_eq (description_of (heap w) old) sdesc = true)
  end.

Definition names_kept (w w' : World) : Prop :=
  ∀ r, attr_of (heap w') r "host_name" = attr_of (heap w) r "host_name" ∧
       attr_of (heap w') r "service_description" =
         attr_of (heap w) r "service_description".

Lemma description_of_kept (w w' : World) (v : value) :
  names_kept w w' → description_of (heap w') v = description_of (heap w) v.
Proof.
  intros H. destruct v; try reflexivity. simpl. destruct (H r) as [_ ->]. reflexivity.
Qed.

Lemma link_service_with_host_inv (s : ref) (w w' : World) :
  link_service_with_host s w = (Ret tt, w') →
  rg w' = rg w ∧ names_kept w w' ∧
  (∀ r, r ≠ s → attr_of (heap w') r "host" = attr_of (heap w) r "host") ∧
  ∃ hname kh,
    attr_of (heap w) s "host_name" = Some hname ∧ to_key hname = Some kh ∧
    attached s (name_to_item (hosts (rg w)) !! kh) w w'.
Proof.
  unfold link_service_with_host. intros H.
  apply bind_Ret_inv in H as (hname & w1 & H1 & H).
  apply getattr_Ret_inv in H1 as [Hname ->].
  rewrite bind_run, self_run in H. cbv beta iota in H.
  apply bind_Ret_inv in H as (h & w1 & H1 & H).
  unfold find_by_name, hash in H1.
  destruct (to_key hname) as [kh|] eqn:Hk; [|discriminate].
  rewrite bind_run, ret_run in H1. cbv beta iota in H1. rewrite ret_run in H1.
  injection H1 as <- <-.
  rewrite bind_run in H. simpl in H.
  set (w1 := with_heap (heap_set (heap w) s "host" _) w) in H.
  assert (∀ r a, a ≠ "host" → attr_of (heap w1) r a = attr_of (heap w) r a) as Hw1.
  { intros r a Ha. unfold w1. simpl. rewrite attr_of_heap_set.
    rewrite decide_False; [reflexivity|]. intros [_ ?]. congruence. }
  assert (∀ r, r ≠ s → attr_of (heap w1) r "host" = attr_of (heap w) r "host") as Hw1h.
  { intros r Hr. unfold w1. simpl. rewrite attr_of_heap_set.
    rewrite decide_False; [reflexivity|]. intros [? _]. congruence. }
  assert (attr_of (heap w1) s "host" =
          Some (opt_value (name_to_item (hosts (rg w)) !! kh))) as Hw1s.
  { unfold w1. simpl. rewrite attr_of_heap_set. rewrite decide_True by done. reflexivity. }
  destruct (name_to_item (hosts (rg w)) !! kh) as [host|] eqn:Hh.
  - apply bind_Ret_inv in H as (sdesc & w2 & H2 & H).
    apply getattr_Ret_inv in H2 as [Hsd ->].
    rewrite Hw1 in Hsd by discriminate.
    apply bind_Ret_inv in H as (old_s & w2 & H2 & H).
    assert (w2 = w1 ∧
            (old_s = None ∨ old_s = Some VNone ∨
             ∃ old, old_s = Some old ∧
                    py_eq (description_of (heap w) old) sdesc = true)) as [-> Hold].
    { destruct old_s as [old|].
      - apply find_service_by_name_inv in H2 as [-> Hd]. split; [reflexivity|].
        right. right. exists old. split; [reflexivity|].
        rewrite <- Hd. f_equal. destruct old; try reflexivity. simpl.
        rewrite Hw1 by discriminate. reflexivity.
      - split; [|left; reflexivity].
        pose proof (unchanged_find_service_by_name (VRef host) sdesc w1) as Hu.
        rewrite H2 in Hu. exact Hu. }
    clear H2.
    apply bind_Ret_inv in H as ([] & w2 & H2 & H).
    (* the list after the removal *)
    assert (∃ xs xs', attr_of (heap w) host "services" = Some (VList xs) ∧
                      attr_of (heap w2) host "services" = Some (VList xs') ∧
                      rg w2 = rg w ∧
                      (∀ r a, ¬ (r = host ∧ a = "services") →
                              attr_of (heap w2) r a = attr_of (heap w1) r a) ∧
                      (xs' = xs ∨
                       ∃ old, list_remove old xs = Some xs' ∧
                              py_eq (description_of (heap w) old) sdesc = true))
      as (xs & xs' & Hxs & Hxs' & Hrg2 & Hframe2 & Hrel).
    { unfold append_attr in H.
      apply bind_Ret_inv in H as (l & w3 & H3 & H).
      apply getattr_Ret_inv in H3 as [Hl ->].
      destruct l as [| | | |xs'| |]; try discriminate.
      assert (∀ old, remove_attr (VRef host) "services" old w1 = (Ret tt, w2) →
                ∃ xs, attr_of (heap w) host "services" = Some (VList xs) ∧
                      list_remove old xs = Some xs' ∧ rg w2 = rg w ∧
                      (∀ r a, ¬ (r = host ∧ a = "services") →
                              attr_of (heap w2) r a = attr_of (heap w1) r a)) as Hrem.
      { intros old Hr. unfold remove_attr in Hr.
        apply bind_Ret_inv in Hr as (l & w3 & H3 & Hr).
        apply getattr_Ret_inv in H3 as [Hl1 ->].
        destruct l as [| | | |xs| |]; try discriminate.
        destruct (list_remove old xs) as [xs''|] eqn:Hrm; [|discriminate].
        simpl in Hr. injection Hr as <-. simpl in Hl.
        rewrite attr_of_heap_set, decide_True in Hl by done. injection Hl as ->.
        exists xs. rewrite <- Hw1 by discriminate.
        split; [exact Hl1|]. split; [exact Hrm|]. split; [reflexivity|].
        intros r a Hra. simpl. rewrite attr_of_heap_set.
        rewrite decide_False; [reflexivity|]. intros [-> <-]. apply Hra. done. }
      assert ((mret tt : M unit) w1 = (Ret tt, w2) →
                attr_of (heap w) host "services" = Some (VList xs') ∧ rg w2 = rg w ∧
                (∀ r a, ¬ (r = host ∧ a = "services") →
                        attr_of (heap w2) r a = attr_of (heap w1) r a)) as Hskip.
      { intros [= <-]. rewrite <- Hw1 by discriminate. done. }
      destruct Hold as [->|[->|(old & -> & Hd)]].
      - destruct (Hskip H2) as (? & ? & ?). exists xs', xs'. eauto 10.
      - destruct (Hskip H2) as (? & ? & ?). exists xs', xs'. eauto 10.
      - destruct old.
        + destruct (Hskip H2) as (? & ? & ?). exists xs', xs'. eauto 10.
        + destruct (Hrem _ H2) as (xs & ? & ? & ? & ?). exists xs, xs'. eauto 10.
        + destruct (Hrem _ H2) as (xs & ? & ? & ? & ?). exists xs, xs'. eauto 10.
        + destruct (Hrem _ H2) as (xs & ? & ? & ? & ?). exists xs, xs'. eauto 10.
        + destruct (Hrem _ H2) as (xs & ? & ? & ? & ?). exists xs, xs'. eauto 10.
        + destruct (Hrem _ H2) as (xs & ? & ? & ? & ?). exists xs, xs'. eauto 10.
        + destruct (Hrem _ H2) as (xs & ? & ? & ? & ?). exists xs, xs'. eauto 10. }
    unfold append_attr in H.
    apply bind_Ret_inv in H as (l & w3 & H3 & H).
    apply getattr_Ret_inv in H3 as [Hl ->].
    rewrite Hxs' in Hl. injection Hl as <-. simpl in H. injection H as <-.
    unfold names_kept, attached. simpl. split; [exact Hrg2|]. split; [|split].
    + intros r. rewrite !attr_of_heap_set. rewrite !decide_False by (intros [_ ?]; discriminate).
      rewrite !Hframe2 by (intros [_ ?]; discriminate).
      rewrite !Hw1 by discriminate. done.
    + intros r Hr. rewrite attr_of_heap_set. rewrite decide_False by (intros [_ ?]; discriminate).
      rewrite Hframe2 by (intros [_ ?]; discriminate). apply Hw1h, Hr.
    + exists hname, kh. split; [exact Hname|]. split; [exact Hk|].
      rewrite Hh. split.
      * rewrite attr_of_heap_set. rewrite decide_False by (intros [_ ?]; discriminate).
        rewrite Hframe2 by (intros [_ ?]; discriminate). exact Hw1s.
      * split.
        -- intros r Hr. rewrite attr_of_heap_set. rewrite decide_False by (intros [? _]; congruence).
           rewrite Hframe2 by (intros [? _]; congruence). apply Hw1. discriminate.
        -- exists sdesc, xs, xs'. split; [exact Hsd|]. split; [exact Hxs|]. split; [|exact Hrel].
           rewrite attr_of_heap_set. rewrite decide_True by done. reflexivity.
  - simpl in H. injection H as <-. unfold names_kept, attached.
    split; [reflexivity|]. split; [|split].
    + intros r. rewrite !Hw1 by discriminate. done.
    + exact Hw1h.
    + exists hname, kh. split; [exact Hname|]. split; [exact Hk|].
      rewrite Hh. split; [exact Hw1s|]. intros r. apply Hw1. discriminate.
Qed.

(** The attributes the link between a service and its host rests on. *)
Definition is_link_attr (a : string) : bool :=
  bool_decide (a ∈ ["host"; "services"; "host_name"; "service_description"]).

(** The collection of hosts is what it was. *)
Definition same_hosts (w w' : World) : Prop := hosts (rg w') = hosts (rg w).

Lemma same_hosts_refl (w : World) : same_hosts w w.
Proof. reflexivity. Qed.

Lemma same_hosts_trans (a b c : World) : same_hosts a b → same_hosts b c → same_hosts a c.
Proof. unfold same_hosts. congruence. Qed.

Lemma same_hosts_setattr o a v : respects same_hosts (setattr o a v).
Proof. intros w. destruct o; reflexivity. Qed.

Lemma same_hosts_assign (f : Regenerator → Regenerator) :
  (∀ s, hosts (f s) = hosts s) → respects same_hosts (assign f).
Proof. intros H w. apply H. Qed.

Lemma same_hosts_on {A : Type} (c : coll)
    (op : gmap positive object → Items → result A * Items) :
  (∀ it s, hosts (coll_set c it s) = hosts s) → respects same_hosts (on c op).
Proof.
  intros H w. unfold on. destruct (op (heap w) (coll_get c (rg w))) as [r it].
  apply H.
Qed.

Ltac same_hosts_auto :=
  respects_with same_hosts_refl same_hosts_trans
    ltac:(first [ apply same_hosts_setattr
                | apply same_hosts_assign; intros ?; reflexivity
                | apply same_hosts_on; intros ? ?; reflexivity ]).

Definition link_step : World → World → Prop := both (keeps is_link_attr) same_hosts.

Lemma link_step_refl (w : World) : link_step w w.
Proof. apply both_refl; [apply keeps_refl | apply same_hosts_refl]. Qed.

Lemma link_step_trans (a b c : World) : link_step a b → link_step b c → link_step a c.
Proof. apply both_trans; [apply keeps_trans | apply same_hosts_trans]. Qed.

Ltac link_step_auto :=
  apply respects_both; [solve [keeps_auto is_link_attr] | solve [same_hosts_auto]].

Ltac link_step_in H Hacc :=
  let a := fresh "a" in
  let w1 := fresh "w" in
  let HR := fresh "HR" in
  apply (bind_Ret_inv_respects link_step) in H as (a & w1 & HR & H);
  [ apply (link_step_trans _ _ _ Hacc) in HR; clear Hacc; rename HR into Hacc
  | link_step_auto ].

Lemma link_step_names (w w' : World) : link_step w w' → names_kept w w'.
Proof. intros [H _] r. split; apply H; reflexivity. Qed.

Lemma names_kept_trans (a b c : World) : names_kept a b → names_kept b c → names_kept a c.
Proof.
  intros H1 H2 r. destruct (H1 r) as [? ?]. destruct (H2 r) as [? ?].
  split; congruence.
Qed.

(** The links of a service move along stretches of code that leave the link
    attributes and the hosts alone. *)
Lemma attached_transport (s : ref) (h : option ref) (w wa wb w' : World) :
  link_step w wa → attached s h wa wb → link_step wb w' → attached s h w w'.
Proof.
  intros [Ha _] Hatt [Hb _]. unfold attached in *.
  destruct Hatt as [Hhost Hs]. split.
  - rewrite (Hb s "host" eq_refl). exact Hhost.
  - destruct h as [h|].
    + destruct Hs as (Hother & sdesc & xs & xs' & Hsd & Hxs & Hxs' & Hrel). split.
      * intros r Hr. rewrite (Hb r "services" eq_refl), (Hother r Hr).
        apply (Ha r "services" eq_refl).
      * exists sdesc, xs, xs'.
        rewrite <- (Ha s "service_description" eq_refl), <- (Ha h "services" eq_refl).
        rewrite (Hb h "services" eq_refl).
        split; [exact Hsd|]. split; [exact Hxs|]. split; [exact Hxs'|].
        destruct Hrel as [->|(old & Hrm & Hd)]; [left; reflexivity|].
        right. exists old. split; [exact Hrm|]. rewrite <- Hd. f_equal.
        destruct old; try reflexivity. simpl.
        rewrite (Ha _ "service_description" eq_refl). reflexivity.
    + intros r. rewrite (Hb r "services" eq_refl), (Hs r).
      apply (Ha r "services" eq_refl).
Qed.

(** The linking of one service. *)
Lemma link_service_inv (s : ref) (w w' : World) :
  link_service s w = (Ret tt, w') →
  hosts (rg w') = hosts (rg w) ∧ names_kept w w' ∧
  (∀ r, r ≠ s → attr_of (heap w') r "host" = attr_of (heap w) r "host") ∧
  ∃ hname kh,
    attr_of (heap w) s "host_name" = Some hname ∧ to_key hname = Some kh ∧
    attached s (name_to_item (hosts (rg w)) !! kh) w w'.
Proof.
  intros H. unfold link_service in H.
  pose proof (link_step_refl w) as Hpre.
  do 2 link_step_in H Hpre.
  apply bind_Ret_inv in H as ([] & wb & Hcore & H).
  eapply (respects_run link_step) in H; [|link_step_auto].
  apply link_service_with_host_inv in Hcore
    as (Hrg & Hnames & Hhost & hname & kh & Hname & Hk & Hatt).
  pose proof Hpre as [Hpk Hph]. pose proof H as [Hqk Hqh].
  red in Hph, Hqh.
  split; [congruence|]. split; [|split].
  - eapply names_kept_trans; [apply link_step_names, Hpre|].
    eapply names_kept_trans; [exact Hnames | apply link_step_names, H].
  - intros r Hr. rewrite (Hqk r "host" eq_refl), (Hhost r Hr).
    apply (Hpk r "host" eq_refl).
  - exists hname, kh. rewrite <- (Hpk s "host_name" eq_refl). split; [exact Hname|].
    split; [exact Hk|]. rewrite <- Hph.
    eapply attached_transport; eassumption.
Qed.

(** No other service of the list [L] that is attached to the host [h] has
    the description [d] of the service [s]. *)
Definition alone_on_host (L : list ref) (s h : ref) (d : value) (w : World) : Prop :=
  ∀ s' hn' kh' d',
    s' ∈ L → s' ≠ s →
    attr_of (heap w) s' "host_name" = Some hn' → to_key hn' = Some kh' →
    name_to_item (hosts (rg w)) !! kh' = Some h →
    attr_of (heap w) s' "service_description" = Some d' →
    py_eq d d' = false.

Lemma alone_on_host_step (L : list ref) (s h x : ref) (d : value) (w w' : World) :
  hosts (rg w') = hosts (rg w) → names_kept w w' →
  alone_on_host (x :: L) s h d w → alone_on_host L s h d w'.
Proof.
  intros Hh Hn H s' hn' kh' d' Hin Hne Hname Hk Hlook Hd.
  destruct (Hn s') as [Hn1 Hn2]. rewrite Hn1 in Hname. rewrite Hn2 in Hd.
  rewrite Hh in Hlook. eapply H; eauto. by right.
Qed.

(** The services linked after [s] leave its host and its place alone. *)
Lemma services_loop_stable (s h : ref) (d : value) (L : list ref) (w w' : World) :
  for_each L link_service w = (Ret tt, w') → s ∉ L →
  hosts (rg w') = hosts (rg w) ∧ names_kept w w' ∧
  attr_of (heap w') s "host" = attr_of (heap w) s "host" ∧
  (attr_of (heap w) s "service_description" = Some d →
   alone_on_host L s h d w →
   ∀ xs, attr_of (heap w) h "services" = Some (VList xs) →
         ∃ xs', attr_of (heap w') h "services" = Some (VList xs') ∧
                occurrences s xs' = occurrences s xs).
Proof.
  revert w. induction L as [|x L IH]; intros w Hrun Hnin.
  - injection Hrun as <-. split; [reflexivity|]. split; [done|]. split; [reflexivity|].
    intros _ _ xs Hxs. exists xs. done.
  - unfold for_each in Hrun. simpl in Hrun.
    apply bind_Ret_inv in Hrun as ([] & wa & Hx & Hrest).
    apply not_elem_of_cons in Hnin as [Hsx HsL].
    apply link_service_inv in Hx as (Hh & Hn & Hhost & hn & kh & Hname & Hk & Hatt).
    destruct (IH wa Hrest HsL) as (Hh' & Hn' & Hhost' & Hocc).
    split; [congruence|]. split; [eapply names_kept_trans; eassumption|].
    split; [rewrite Hhost'; apply Hhost; congruence|].
    intros Hd Halone xs Hxs.
    assert (∃ xa, attr_of (heap wa) h "services" = Some (VList xa) ∧
                  occurrences s xa = occurrences s xs) as (xa & Hxa & Hoa).
    { destruct Hatt as [_ Hs].
      destruct (name_to_item (hosts (rg w)) !! kh) as [h'|] eqn:Hlook.
      - destruct Hs as (Hother & sdesc & ys & ys' & Hsd & Hys & Hys' & Hrel).
        destruct (decide (h' = h)) as [->|Hne].
        + rewrite Hxs in Hys. injection Hys as <-.
          eexists. split; [exact Hys'|].
          rewrite occurrences_app, occurrences_other by congruence.
          destruct Hrel as [->|(old & Hrm & Hold)]; [lia|].
          rewrite (list_remove_occurrences _ _ _ _ Hrm); [lia|].
          intros ->. simpl in Hold. rewrite Hd in Hold. simpl in Hold.
          assert (py_eq d sdesc = false) as Hf; [|congruence].
          eapply (Halone x); eauto. left.
        + exists xs. split; [|reflexivity]. rewrite Hother by congruence. exact Hxs.
      - exists xs. split; [|reflexivity]. rewrite Hs. exact Hxs. }
    destruct (Hn s) as [_ Hn2].
    destruct (Hocc (eq_trans Hn2 Hd)
                (alone_on_host_step _ _ _ _ _ _ _ Hh Hn Halone) xa Hxa)
      as (xs' & Hxs' & Ho).
    exists xs'. split; [exact Hxs' | congruence].
Qed.

(** The loop over the staged services: each one is given its host, and is
    once in the services of that host. *)
Lemma services_loop_links (L : list ref) (w w' : World) :
  NoDup L → for_each L link_service w = (Ret tt, w') →
  ∀ s hname,
    s ∈ L → attr_of (heap w) s "host_name" = Some hname →
    ∃ kh, to_key hname = Some kh ∧
      match name_to_item (hosts (rg w)) !! kh with
      | None => attr_of (heap w') s "host" = Some VNone
      | Some h =>
          attr_of (heap w') s "host" = Some (VRef h) ∧
          ((∀ xs, attr_of (heap w) h "services" = Some (VList xs) →
                  occurrences s xs = 0%nat) →
           (∀ d, attr_of (heap w) s "service_description" = Some d →
                 alone_on_host L s h d w) →
           ∃ xs, attr_of (heap w') h "services" = Some (VList xs) ∧
                 occurrences s xs = 1%nat)
      end.
Proof.
  revert w. induction L as [|x L IH]; intros w Hnd Hrun s hname Hin Hname.
  - by apply elem_of_nil in Hin.
  - unfold for_each in Hrun. simpl in Hrun.
    apply bind_Ret_inv in Hrun as ([] & wa & Hx & Hrest).
    apply NoDup_cons in Hnd as [HxL Hnd].
    apply link_service_inv in Hx as (Hh & Hn & Hhost & hn & kh & Hname' & Hk & Hatt).
    apply elem_of_cons in Hin as [->|Hin].
    + (* the service linked now *)
      rewrite Hname in Hname'. injection Hname' as <-.
      exists kh. split; [exact Hk|].
      destruct (services_loop_stable x x (VNone) L wa w' Hrest HxL)
        as (_ & _ & Hhost' & _).
      destruct Hatt as [Hhx Hs]. rewrite <- Hhost' in Hhx.
      destruct (name_to_item (hosts (rg w)) !! kh) as [h|] eqn:Hlook; [|exact Hhx].
      split; [exact Hhx|]. intros Hfresh Halone.
      destruct Hs as (_ & sdesc & xs & xs' & Hsd & Hxs & Hxs' & Hrel).
      destruct (services_loop_stable x h sdesc L wa w' Hrest HxL)
        as (_ & _ & _ & Hocc).
      destruct (Hn x) as [_ Hn2].
      destruct (Hocc (eq_trans Hn2 Hsd)
                  (alone_on_host_step _ _ _ _ _ _ _ Hh Hn (Halone _ Hsd)) _ Hxs')
        as (ys & Hys & Ho).
      exists ys. split; [exact Hys|]. rewrite Ho, occurrences_app, occurrences_self.
      specialize (Hfresh _ Hxs).
      destruct Hrel as [->|(old & Hrm & _)]; [lia|].
      pose proof (list_remove_occurrences_le x _ _ _ Hrm). lia.
    + (* a service linked later *)
      assert (x ≠ s) as Hxs by (intros ->; contradiction).
      destruct (Hn s) as [Hn1 Hn2].
      destruct (IH wa Hnd Hrest s hname Hin (eq_trans Hn1 Hname)) as (kh' & Hk' & Hres).
      exists kh'. split; [exact Hk'|]. rewrite Hh in Hres.
      destruct (name_to_item (hosts (rg w)) !! kh') as [h|] eqn:Hlook; [|exact Hres].
      destruct Hres as [Hhs Hres]. split; [exact Hhs|].
      intros Hfresh Halone. apply Hres.
      * intros xa Hxa. destruct Hatt as [_ Hs].
        destruct (name_to_item (hosts (rg w)) !! kh) as [h'|] eqn:Hlook'.
        -- destruct Hs as (Hother & sdesc & ys & ys' & Hsd & Hys & Hys' & Hrel).
           destruct (decide (h' = h)) as [->|Hne].
           ++ rewrite Hys' in Hxa. injection Hxa as <-.
              rewrite occurrences_app, occurrences_other by exact Hxs.
              specialize (Hfresh _ Hys).
              destruct Hrel as [->|(old & Hrm & _)]; [lia|].
              pose proof (list_remove_occurrences_le s _ _ _ Hrm). lia.
           ++ rewrite Hother in Hxa by congruence. apply (Hfresh _ Hxa).
        -- rewrite Hs in Hxa. apply (Hfresh _ Hxa).
      * intros d Hd. rewrite Hn2 in Hd.
        eapply alone_on_host_step; [exact Hh | exact Hn | apply Halone, Hd].
Qed.

Lemma same_hosts_link_service (x : ref) : respects same_hosts (link_service x).
Proof. same_hosts_auto. Qed.

Ltac keeps_link_in H Hacc :=
  let a := fresh "a" in
  let w1 := fresh "w" in
  let HR := fresh "HR" in
  apply (bind_Ret_inv_respects (keeps is_link_attr)) in H as (a & w1 & HR & H);
  [ apply (keeps_trans _ _ _ _ Hacc) in HR; clear Hacc; rename HR into Hacc
  | solve [keeps_auto is_link_attr] ].


End Regenerator.

(** * Scenarios

    Runs of the regenerator on concrete broks.  The objects are constructed
    with the one attribute the regenerator relies on without receiving it (a
    host starts with an empty list of services); every other attribute read
    comes from the data of the broks. *)

Module Scenario.

Definition dict (l : list (string * value)) : gmap string value := list_to_map l.

Definition init (c : class) : gmap string value :=
  match c with
  | Host => dict [("services", VList [])]
  | _ => ∅
  end.

Definition properties : list string :=
  ["notificationway_name"; "host_notification_period";
   "service_notification_period"; "host_notification_commands";
   "service_notification_commands"].

(** The regenerator of a Shinken broker ([ALIGNAK] is false). *)
Definition manage_brok : Brok → M unit := manage_brok false init properties.

Definition brok (type : string) (data : list (string * value)) : Brok :=
  mkBrok type None None (dict data).

(** The world after a sequence of broks. *)
Definition after (l : list Brok) (w : World) : World :=
  fold_left (λ w b, (manage_brok b w).2) l w.

(** A time range as Alignak sends it, two date ranges that hold it, and a
    timeperiod to exclude, as the objects the broks below carry. *)
Definition timerange : value :=
  VDict [("hstart", VInt 0); ("mstart", VInt 0); ("hend", VInt 24); ("mend", VInt 0)].

Definition heap0 : gmap positive object :=
  list_to_map
    [(50%positive, mkObject Timeperiod (dict [("timeperiod_name", VStr "holidays")]));
     (60%positive, mkObject Daterange (dict [("timeranges", VList [timerange])]));
     (61%positive, mkObject Daterange (dict [("timeranges", VList [timerange])]))].

(** A regenerator constructed at time 0, its queue loaded, the clock now at
    100 seconds. *)
Definition w0 : World :=
  mkWorld (load_external_queue [] (Regenerator_init 0)) heap0 100 "7d0b8a5e".

Definition program_status (i : Z) : Brok :=
  brok "program_status" [("instance_id", VInt i); ("id", VInt i)].

Definition initial_broks_done (i : Z) : Brok :=
  brok "initial_broks_done" [("instance_id", VInt i)].

Definition initial_hostgroup_status (i : Z) (id name : string) (members : list value)
  : Brok :=
  brok "initial_hostgroup_status"
    [("instance_id", VInt i); ("id", VStr id); ("hostgroup_name", VStr name);
     ("members", VList members); ("hostgroup_members", VList [])].

Definition initial_host_status (i : Z) (id name group : string) : Brok :=
  brok "initial_host_status"
    [("instance_id", VInt i); ("id", VStr id); ("host_name", VStr name);
     ("hostgroups", VList [VStr group]); ("contacts", VList []);
     ("tags", VList [VStr "linux"]); ("downtimes", VList []); ("comments", VList []);
     ("parents", VList []); ("childs", VList []);
     ("parent_dependencies", VList []); ("child_dependencies", VList []);
     ("state", VStr "UP"); ("check_command", VNone)].

Definition initial_service_status (i : Z) (id hname sdesc : string) : Brok :=
  brok "initial_service_status"
    [("instance_id", VInt i); ("id", VStr id); ("host_name", VStr hname);
     ("service_description", VStr sdesc); ("display_name", VStr sdesc);
     ("servicegroups", VList []); ("contacts", VList []);
     ("tags", VList [VStr "net"]); ("downtimes", VList []); ("comments", VList []);
     ("parent_dependencies", VList []); ("child_dependencies", VList [])].

Definition initial_timeperiod_status (i : Z) (daterange : positive) (exclude : list value)
  : Brok :=
  brok "initial_timeperiod_status"
    [("instance_id", VInt i); ("id", VStr "tp1"); ("timeperiod_name", VStr "workhours");
     ("dateranges", VList [VRef daterange]); ("exclude", VList exclude)].

Definition update_program_status (i : Z) : Brok :=
  brok "update_program_status" [("instance_id", VInt i)].

(** The dump of instance 1: a hostgroup, a host, a service of that host, a
    service of a host that is not there, and a timeperiod. *)
Definition staging1 : list Brok :=
  [program_status 1;
   initial_timeperiod_status 1 60 [VRef 50];
   initial_hostgroup_status 1 "g1" "servers" [VList [VStr "h1"; VStr "srv1"]];
   initial_host_status 1 "h1" "srv1" "servers";
   initial_service_status 1 "s1" "srv1" "ping";
   initial_service_status 1 "s2" "ghost" "ping"].

Definition dump1 : list Brok := staging1 ++ [initial_broks_done 1].

(** The dump of instance 2: a hostgroup of its own and a host. *)
Definition dump2 : list Brok :=
  [program_status 2;
   initial_hostgroup_status 2 "g2" "routers" [VList [VStr "h2"; VStr "rtr1"]];
   initial_host_status 2 "h2" "rtr1" "routers";
   initial_broks_done 2].

(** The world with the dump of instance 1 staged, then merged, then with the
    dump of instance 2 merged as well. *)
Definition staged1 : World := after staging1 w0.
Definition merged1 : World := after dump1 w0.
Definition merged2 : World := after dump2 merged1.

(** A container staged for instance 1. *)
Definition staged_in (c : key → coll) : Items := coll_get (c (KInt 1)) (rg staged1).

End Scenario.

(** ** The restart purge *)

(** C1, on the code.  Instance 1 restarts more than 60 seconds after its
    dump: its host [srv1] leaves the store, and the hostgroup [routers],
    whose only member is the host [rtr1] of instance 2, is left without
    member although [rtr1] is still in the store: the loop that should keep
    the hosts of the other instances runs over the list it has just
    emptied. *)
Theorem restart_purge_empties_every_hostgroup :
  let w := at_time 200 Scenario.merged2 in
  let w' := (Scenario.manage_brok (Scenario.program_status 1) w).2 in
  name_to_item (hosts (rg w)) !! KStr "rtr1" = Some 71%positive ∧
  attr_of (heap w) 71 "instance_id" = Some (VInt 2) ∧
  name_to_item (hostgroups (rg w)) !! KStr "routers" = Some 70%positive ∧
  attr_of (heap w) 70 "members" = Some (VList [VRef 71]) ∧
  name_to_item (hosts (rg w')) !! KStr "srv1" = None ∧
  name_to_item (hosts (rg w')) !! KStr "rtr1" = Some 71%positive ∧
  name_to_item (hostgroups (rg w')) !! KStr "routers" = Some 70%positive ∧
  attr_of (heap w') 70 "members" = Some (VList []).
Proof. vm_compute. repeat split; reflexivity. Qed.

(** ** A manager that raises *)

Lemma manage_brok_manager_raises_witness :
  Scenario.manage_brok (Scenario.brok "update_host_status" []) Scenario.w0 =
  (Raise (UnboundLocalError "rc"), Scenario.w0).
Proof.
  eapply (manage_brok_manager_raises false Scenario.init Scenario.properties
            (Scenario.brok "update_host_status" []) _
            (manage_update_host_status_brok) (KeyError "topology_change")).
  - reflexivity.
  - vm_compute. reflexivity.
  - vm_compute. reflexivity.
  - vm_compute. reflexivity.
Defined.

(** ** A dump replayed within 60 seconds *)

(** The dump of instance 1 replayed 10 seconds after it was merged: the
    timeperiod [workhours], whose excluded timeperiod is unknown and was
    left out by the linking pass, excludes the raw object of the brok
    again. *)
Lemma replay_changes_timeperiod :
  let w := at_time 110 Scenario.merged1 in
  let w' := Scenario.after Scenario.dump1 w in
  name_to_item (timeperiods (rg w)) !! KStr "workhours" = Some 63%positive ∧
  name_to_item (timeperiods (rg w')) !! KStr "workhours" = Some 63%positive ∧
  attr_of (heap w) 63 "exclude" = Some (VList []) ∧
  attr_of (heap w') 63 "exclude" = Some (VList [VRef 50]).
Proof. vm_compute. repeat split; reflexivity. Qed.

Lemma replay_within_60s_witness :
  let w := at_time 110 Scenario.merged1 in
  (Scenario.manage_brok (Scenario.initial_host_status 1 "h1" "srv1" "servers") w).2 = w.
Proof.
  apply (replay_within_60s false Scenario.init Scenario.properties
           _ (VInt 1) (KInt 1) 62%positive 100);
    try (vm_compute; reflexivity).
  apply (bool_decide_unpack _). vm_compute. exact I.
Defined.

(** ** The update of a host *)

Definition update_host_status_raw : Brok :=
  Scenario.brok "update_host_status"
    [("host_name", VStr "srv1"); ("topology_change", VBool false);
     ("check_command", VStr "raw-name"); ("state", VStr "DOWN")].

(** An update that does not carry every property the handler deletes:
    [del data[prop]] raises, and the state of the host is not overwritten. *)
Lemma update_host_status_missing_property :
  let w := Scenario.merged1 in
  let w' := (manage_update_host_status_brok update_host_status_raw w).2 in
  name_to_item (hosts (rg w)) !! KStr "srv1" = Some 66%positive ∧
  (manage_update_host_status_brok update_host_status_raw w).1 = Raise (KeyError "uuid") ∧
  attr_of (heap w') 66 "state" = Some (VStr "UP").
Proof. vm_compute. repeat split; reflexivity. Qed.

Definition update_host_status_full : Brok :=
  Scenario.brok "update_host_status"
    [("host_name", VStr "srv1"); ("topology_change", VBool false);
     ("state", VStr "DOWN");
     ("uuid", VStr "h1"); ("check_command", VStr "raw-name");
     ("hostgroups", VList [VStr "servers"]); ("contacts", VList []);
     ("notification_period", VStr "workhours"); ("contact_groups", VList []);
     ("check_period", VStr "workhours"); ("event_handler", VNone);
     ("maintenance_period", VNone); ("realm", VStr "All"); ("customs", VDict []);
     ("escalations", VList []); ("parents", VList []);
     ("child_dependencies", VList []); ("parent_dependencies", VList []);
     ("downtimes", VList []); ("comments", VList [])].

Lemma update_host_status_fields_witness :
  let w := Scenario.merged1 in
  let w' := (manage_update_host_status_brok update_host_status_full w).2 in
  attr_of (heap w') 66 "check_command" = attr_of (heap w) 66 "check_command" ∧
  attr_of (heap w') 66 "state" = Some (VStr "DOWN").
Proof.
  intros w w'.
  destruct (update_host_status_fields update_host_status_full (VBool false)
              (VStr "srv1") (KStr "srv1") 66%positive w) as [Hkept Hset];
    try (vm_compute; reflexivity).
  - intros p Hp. unfold update_host_cleaned in Hp.
    repeat (apply elem_of_cons in Hp as [->|Hp]; [vm_compute; eauto|]).
    by apply elem_of_nil in Hp.
  - split.
    + apply Hkept. apply (bool_decide_unpack _). vm_compute. exact I.
    + apply Hset; [vm_compute; reflexivity| |];
        apply (bool_decide_unpack _); vm_compute; exact I.
Defined.

(** ** The linker without staging *)

Lemma all_done_linking_bailout_witness :
  all_done_linking (VInt 1) Scenario.merged1 = (Ret tt, Scenario.merged1).
Proof.
  apply all_done_linking_bailout. right. exists (KInt 1).
  split; [reflexivity|]. left. vm_compute. reflexivity.
Defined.

(** ** Updates for unknown instances *)

(** 10 seconds after the regenerator was constructed, an update for the
    unknown instance 99 asks for nothing; and once the data of the unknown
    instance 98 has been asked for, an update for the unknown instance 99
    that comes 30 seconds later asks for nothing either. *)
Lemma need_data_limit_is_global :
  let early := (Scenario.manage_brok (Scenario.update_program_status 99)
                  (at_time 10 Scenario.w0)).2 in
  let first := (Scenario.manage_brok (Scenario.update_program_status 98)
                  (at_time 100 Scenario.w0)).2 in
  let second := (Scenario.manage_brok (Scenario.update_program_status 99)
                   (at_time 130 first)).2 in
  from_q (rg early) = Some [] ∧
  from_q (rg first) = Some [need_data false (VInt 98)] ∧
  from_q (rg second) = Some [need_data false (VInt 98)].
Proof. vm_compute. repeat split; reflexivity. Qed.

Lemma update_program_status_unknown_instance_witness :
  manage_update_program_status_brok false (Scenario.update_program_status 98)
    (at_time 100 Scenario.w0) =
  (Ret tt, asked false (VInt 98) (at_time 100 Scenario.w0)).
Proof.
  apply (update_program_status_unknown_instance false
           (Scenario.update_program_status 98) (VInt 98) (at_time 100 Scenario.w0));
    vm_compute; reflexivity.
Defined.

(** ** The services of a merged dump *)



(** ** The identifiers of a brok *)

(** C8, on the code.  The data of the first command of a Shinken scheduler
    carry the identifier 0 and no [uuid]: the identifier is tested for its
    truth value, so nothing is mirrored, and it is not [None], so nothing is
    synthesized: the data leave the identifier logic without [uuid], as does
    the brok itself. *)
Theorem zero_identifier_is_not_mirrored :
  let b := mkBrok "initial_command_status" (Some (VInt 0)) None
             (Scenario.dict [("id", VInt 0); ("command_name", VStr "check_ping");
                             ("instance_id", VInt 1)]) in
  ∃ b', normalize_identifiers b Scenario.w0 = (Ret b', Scenario.w0) ∧
        b_data b' !! "id" = Some (VInt 0) ∧ b_data b' !! "uuid" = None ∧
        b_id b' = Some (VInt 0) ∧ b_uuid b' = None.
Proof. eexists. vm_compute. repeat split; reflexivity. Qed.

(** ** A timeperiod sent twice *)

(** C9, on the code.  Instance 1 sends the timeperiod [workhours]: it is
    created, and the time range of its date range becomes a [Timerange]
    object.  Instance 2 then sends the timeperiod of that name with a date
    range of its own: the timeperiod is only updated, and the time range of
    the date range it now holds is the dictionary that was received. *)
Theorem known_timeperiod_keeps_raw_timeranges :
  let w := Scenario.after [Scenario.initial_timeperiod_status 1 60 []] Scenario.w0 in
  let w' := Scenario.after [Scenario.initial_timeperiod_status 2 61 []] w in
  name_to_item (timeperiods (rg w)) !! KStr "workhours" = Some 62%positive ∧
  attr_of (heap w) 62 "dateranges" = Some (VList [VRef 60]) ∧
  attr_of (heap w) 60 "timeranges" = Some (VList [VRef 63]) ∧
  class_of (heap w) 63 = Timerange ∧
  name_to_item (timeperiods (rg w')) !! KStr "workhours" = Some 62%positive ∧
  attr_of (heap w') 62 "dateranges" = Some (VList [VRef 61]) ∧
  attr_of (heap w') 61 "timeranges" = Some (VList [Scenario.timerange]).
Proof. vm_compute. repeat split; reflexivity. Qed.

(** ** The tags of a merged dump *)

Lemma tag_counters_only_grow_witness :
  let w := Scenario.staged1 in
  let w' := (all_done_linking (VInt 1) w).2 in
  (count (tags (rg w)) (KStr "linux") + 1 ≤ count (tags (rg w')) (KStr "linux"))%Z.
Proof.
  intros w w'.
  assert (elements_of (Scenario.staged_in self_inp_hosts) = [66%positive])
    as Hel by (vm_compute; reflexivity).
  destruct (tag_counters_only_grow false Scenario.init Scenario.properties)
    as (_ & _ & H).
  destruct (H (VInt 1) (KInt 1)
              (Scenario.staged_in self_inp_hosts)
              (Scenario.staged_in self_inp_hostgroups)
              (Scenario.staged_in self_inp_contactgroups)
              (Scenario.staged_in self_inp_services)
              (Scenario.staged_in self_inp_servicegroups) w w') as [Hhosts _];
    try (vm_compute; reflexivity).
  - vm_compute. eauto.
  - apply (Hhosts 66%positive (VList [VStr "linux"]) [VStr "linux"] (VStr "linux"));
      try (vm_compute; reflexivity).
    + rewrite Hel. apply (bool_decide_unpack _). vm_compute. exact I.
    + apply list_elem_of_here.
Defined.
